(** * NPIV volume adapter of nova-powervm: fabric state store and orchestrator

    A shallow embedding of
    [nova_powervm/virt/powervm/volume/npiv.py] (class [NPIVVolumeAdapter]),
    followed by the local disk adapter of [localdisk.py] and the config
    drive builder of [media.py].

    - Python strings are [string]s, read as sequences of code points
      below 256.
    - [instance.system_metadata] is a [gmap string string]; a key bound to
      [None] and a missing key are the same thing for the code, which only
      ever tests [system_metadata.get(key) is None].
    - The adapter mutates the instance in place and calls into pypowervm, so
      the methods live in a state-and-exception monad over a [World]: the
      instance, the log of effects, and the virtual Fibre Channel mapping
      table kept by the management layer.  An exception leaves the effects
      made so far in place, as in Python. *)

From Stdlib Require Import ZArith Lia Ascii String.
From stdpp Require Import gmap strings list fin_maps.

Open Scope string_scope.
Open Scope list_scope.

(** ** Python string primitives *)

Module PyStr.

(** [sep.join(l)] *)
Fixpoint join (sep : string) (l : list string) : string :=
  match l with
  | [] => ""
  | [x] => x
  | x :: rest => x +:+ sep +:+ join sep rest
  end.

(** [s.split(c)] for a one-character separator [c]: empty fields are kept,
    and the empty string splits into one empty field. *)
Fixpoint split (c : ascii) (s : string) : list string :=
  match s with
  | EmptyString => [""]
  | String a s' =>
      if Ascii.eqb a c then "" :: split c s'
      else match split c s' with
           | tok :: toks => String a tok :: toks
           | [] => [String a ""]
           end
  end.

(** [ch.isspace()] on code points below 256. *)
Definition isspace (a : ascii) : bool :=
  let n := nat_of_ascii a in
  (((9 <=? n) && (n <=? 13)) || ((28 <=? n) && (n <=? 32))
   || (n =? 133) || (n =? 160))%nat.

Definition cons_token (tok : string) (toks : list string) : list string :=
  match tok with
  | EmptyString => toks
  | _ => tok :: toks
  end.

(** The scan behind [s.split()]: the token being read at the head of [s]
    and the tokens after it. *)
Fixpoint split_ws_scan (s : string) : string * list string :=
  match s with
  | EmptyString => ("", [])
  | String a s' =>
      let '(tok, toks) := split_ws_scan s' in
      if isspace a then ("", cons_token tok toks)
      else (String a tok, toks)
  end.

(** [s.split()]: runs of whitespace separate the tokens, no empty token. *)
Definition split_ws (s : string) : list string :=
  let '(tok, toks) := split_ws_scan s in cons_token tok toks.

(** [l[::3]] *)
Fixpoint stride3 {A} (l : list A) : list A :=
  match l with
  | [] => []
  | x :: rest =>
      x :: match rest with
           | _ :: _ :: rest' => stride3 rest'
           | _ => []
           end
  end.

(** [zip(a, b, c)]: as long as the shortest argument. *)
Fixpoint zip3 {A B C} (a : list A) (b : list B) (c : list C)
  : list (A * B * C) :=
  match a, b, c with
  | x :: a', y :: b', z :: c' => (x, y, z) :: zip3 a' b' c'
  | _, _, _ => []
  end.

(** [c in s] *)
Fixpoint contains (c : ascii) (s : string) : bool :=
  match s with
  | EmptyString => false
  | String a s' => Ascii.eqb a c || contains c s'
  end.

Fixpoint has_space (s : string) : bool :=
  match s with
  | EmptyString => false
  | String a s' => isspace a || has_space s'
  end.

End PyStr.

(** ** Data model *)

(** A port map as [derive_npiv_map] returns it: pairs of a physical port
    WWPN and the two virtual WWPNs joined by a space. *)
Abbreviation port_map := (list (string * string)).

Inductive exn : Type :=
| TypeError
| KeyError
| ManagementError (msg : string).

Inductive result (A : Type) : Type :=
| Ok (a : A)
| Raise (e : exn).
Arguments Ok {A} a.
Arguments Raise {A} e.

(** The fields of the nova instance the adapter reads and writes. *)
Record Instance : Type := {
  name : string;
  task_state : option string;
  system_metadata : gmap string string
}.

(** Effects, in the order they happen.  [EvMetaSet] is an assignment
    [instance.system_metadata[key] = value]; the others are calls into the
    management layer, with their arguments. *)
Inductive event (VIOS : Type) : Type :=
| EvMetaSet (key value : string)
| EvBuildPair
| EvReadVIOS
| EvDerive (vios_wraps : list VIOS) (p_port_wwpns v_port_wwpns : list string)
| EvGetMgmt
| EvAdd (lpar_uuid : string) (npiv_port_maps : option port_map)
| EvRemove (npiv_port_maps : option port_map).
Arguments EvMetaSet {VIOS} key value.
Arguments EvBuildPair {VIOS}.
Arguments EvReadVIOS {VIOS}.
Arguments EvDerive {VIOS} vios_wraps p_port_wwpns v_port_wwpns.
Arguments EvGetMgmt {VIOS}.
Arguments EvAdd {VIOS} lpar_uuid npiv_port_maps.
Arguments EvRemove {VIOS} npiv_port_maps.

(** One row of the management layer's table of virtual Fibre Channel
    mappings: the partition that owns it and the port mapping. *)
Abbreviation vfc_row := (string * (string * string))%type.

Record World (VIOS : Type) : Type := {
  instance : Instance;
  trace : list (event VIOS);
  vfc_mappings : list vfc_row
}.
Arguments instance {VIOS} w.
Arguments trace {VIOS} w.
Arguments vfc_mappings {VIOS} w.

(** The pypowervm and management-partition calls the adapter makes.  What a
    call returns, and whether it raises, may depend on everything that
    happened before it (the trace at the time of the call). *)
Class ManagementLayer (VIOS : Type) : Type := {
  build_wwpn_pair : list (event VIOS) -> result (string * string);
  read_vios : list (event VIOS) -> result (list VIOS);
  derive_npiv_map :
    list (event VIOS) -> list VIOS -> list string -> list string ->
    result port_map;
  get_mgmt_partition : list (event VIOS) -> result string;
  add_npiv_port_mappings_outcome :
    list (event VIOS) -> string -> option port_map -> result unit;
  remove_npiv_port_mappings_outcome :
    list (event VIOS) -> option port_map -> result unit
}.

(** [powervm.NPIV_FABRIC_WWPNS] (a dict, in its iteration order) and
    [CONF.powervm.ports_per_fabric]. *)
Record Config : Type := {
  NPIV_FABRIC_WWPNS : list (string * list string);
  ports_per_fabric : Z
}.

Definition WWPN_SYSTEM_METADATA_KEY : string := "npiv_adpt_wwpns".
Definition FABRIC_STATE_METADATA_KEY : string := "fabric_state".
Definition FS_UNMAPPED : string := "unmapped".
Definition FS_MGMT_MAPPED : string := "mgmt_mapped".
Definition FS_INST_MAPPED : string := "inst_mapped".

(** [nova.compute.task_states.DELETING] and [SPAWNING]. *)
Definition task_states_DELETING : string := "deleting".
Definition task_states_SPAWNING : string := "spawning".
Definition TASK_STATES_FOR_DISCONNECT : list string :=
  [task_states_DELETING; task_states_SPAWNING].

(** ** The management layer's mapping table *)

(** Modelled from the spec: [pypowervm.tasks.wwpn.add_npiv_port_mappings]
    and [remove_npiv_port_mappings] are not part of this repository.  The
    spec (section 6) has them "safe to call when the mapping already
    is/isn't present": adding puts in the rows that are not there yet,
    removing takes out every row of the given mappings (the call names no
    owner). *)
Definition vfc_add_row (lpar_uuid : string) (tbl : list vfc_row)
    (m : string * string) : list vfc_row :=
  if bool_decide ((lpar_uuid, m) ∈ tbl) then tbl else tbl ++ [(lpar_uuid, m)].

Definition vfc_add (lpar_uuid : string) (pm : port_map) (tbl : list vfc_row)
  : list vfc_row :=
  fold_left (vfc_add_row lpar_uuid) pm tbl.

Definition vfc_remove (pm : port_map) (tbl : list vfc_row) : list vfc_row :=
  filter (λ row, row.2 ∉ pm) tbl.

(** ** State and exceptions *)

Definition M (VIOS A : Type) : Type := World VIOS -> World VIOS * result A.

Definition ret {VIOS A} (a : A) : M VIOS A := fun w => (w, Ok a).

Definition raise {VIOS A} (e : exn) : M VIOS A := fun w => (w, Raise e).

Definition bind {VIOS A B} (m : M VIOS A) (k : A -> M VIOS B) : M VIOS B :=
  fun w =>
    match m w with
    | (w', Ok a) => k a w'
    | (w', Raise e) => (w', Raise e)
    end.

Declare Scope py_scope.
Delimit Scope py_scope with py.
Notation "'do' x <- m ; k" := (bind m (fun x => k))
  (at level 10, x name, m at level 100, k at level 200) : py_scope.
Notation "'do_' m ; k" := (bind m (fun _ => k))
  (at level 10, m at level 100, k at level 200) : py_scope.
Open Scope py_scope.

(** [for x in l: acc = body(acc, x)] *)
Fixpoint for_each {VIOS A S} (body : S -> A -> M VIOS S) (l : list A) (acc : S)
  : M VIOS S :=
  match l with
  | [] => ret acc
  | x :: rest => do acc' <- body acc x; for_each body rest acc'
  end.

(** [i = 0; while i < n: acc = body(acc); i += 1] *)
Fixpoint repeat_n {VIOS S} (body : S -> M VIOS S) (n : nat) (acc : S)
  : M VIOS S :=
  match n with
  | O => ret acc
  | S n' => do acc' <- body acc; repeat_n body n' acc'
  end.

(** ** The adapter *)

Section NPIVVolumeAdapter.

Context {VIOS : Type} {ML : ManagementLayer VIOS}.
Variable conf : Config.

Local Abbreviation M := (M VIOS).

(** *** Primitive effects *)

Definition log (ev : event VIOS) (w : World VIOS) : World VIOS :=
  {| instance := instance w;
     trace := trace w ++ [ev];
     vfc_mappings := vfc_mappings w |}.

Definition with_metadata (md : gmap string string) (w : World VIOS)
  : World VIOS :=
  {| instance := {| name := name (instance w);
                    task_state := task_state (instance w);
                    system_metadata := md |};
     trace := trace w;
     vfc_mappings := vfc_mappings w |}.

Definition with_vfc (tbl : list vfc_row) (w : World VIOS) : World VIOS :=
  {| instance := instance w; trace := trace w; vfc_mappings := tbl |}.

Definition metadata (w : World VIOS) : gmap string string :=
  system_metadata (instance w).

(** [instance.system_metadata.get(key)] *)
Definition meta_get (key : string) : M (option string) :=
  fun w => (w, Ok (metadata w !! key)).

(** [instance.system_metadata[key]] *)
Definition meta_index (key : string) : M string :=
  fun w =>
    match metadata w !! key with
    | Some v => (w, Ok v)
    | None => (w, Raise KeyError)
    end.

(** [instance.system_metadata[key] = value] *)
Definition put (key value : string) (w : World VIOS) : World VIOS :=
  log (EvMetaSet key value) (with_metadata (<[key := value]> (metadata w)) w).

Definition meta_set (key value : string) : M unit :=
  fun w => (put key value w, Ok tt).

(** [instance.task_state] *)
Definition get_task_state : M (option string) :=
  fun w => (w, Ok (task_state (instance w))).

(** A call into the management layer that changes nothing this model
    tracks: it is logged, then returns or raises. *)
Definition call {A} (ev : event VIOS)
    (outcome : list (event VIOS) -> result A) : M A :=
  fun w => (log ev w, outcome (trace w)).

Definition pvm_wwpn_build_wwpn_pair : M (string * string) :=
  call EvBuildPair build_wwpn_pair.

Definition adapter_read_vios : M (list VIOS) :=
  call EvReadVIOS read_vios.

Definition pvm_wwpn_derive_npiv_map (vios_wraps : list VIOS)
    (p_port_wwpns v_port_wwpns : list string) : M port_map :=
  call (EvDerive vios_wraps p_port_wwpns v_port_wwpns)
       (fun h => derive_npiv_map h vios_wraps p_port_wwpns v_port_wwpns).

Definition mgmt_get_mgmt_partition : M string :=
  call EvGetMgmt get_mgmt_partition.

Definition pvm_wwpn_add_npiv_port_mappings (lpar_uuid : string)
    (npiv_port_maps : option port_map) : M unit :=
  fun w =>
    let w1 := log (EvAdd lpar_uuid npiv_port_maps) w in
    match add_npiv_port_mappings_outcome (trace w) lpar_uuid npiv_port_maps with
    | Ok _ =>
        (with_vfc (vfc_add lpar_uuid (default [] npiv_port_maps)
                           (vfc_mappings w1)) w1, Ok tt)
    | Raise e => (w1, Raise e)
    end.

Definition pvm_wwpn_remove_npiv_port_mappings
    (npiv_port_maps : option port_map) : M unit :=
  fun w =>
    let w1 := log (EvRemove npiv_port_maps) w in
    match remove_npiv_port_mappings_outcome (trace w) npiv_port_maps with
    | Ok _ =>
        (with_vfc (vfc_remove (default [] npiv_port_maps) (vfc_mappings w1)) w1,
         Ok tt)
    | Raise e => (w1, Raise e)
    end.

(** *** Configuration *)

Definition _fabric_names : list string := (NPIV_FABRIC_WWPNS conf).*1.

Fixpoint assoc (k : string) (l : list (string * list string))
  : option (list string) :=
  match l with
  | [] => None
  | (k', v) :: rest => if String.eqb k' k then Some v else assoc k rest
  end.

Definition _fabric_ports (fabric_name : string) : M (list string) :=
  match assoc fabric_name (NPIV_FABRIC_WWPNS conf) with
  | Some ports => ret ports
  | None => raise KeyError
  end.

Definition _ports_per_fabric : Z := ports_per_fabric conf.

(** *** Fabric state store *)

Definition _sys_fabric_state_key (fabric : string) : string :=
  FABRIC_STATE_METADATA_KEY +:+ "_" +:+ fabric.

Definition _sys_meta_fabric_key (fabric : string) : string :=
  WWPN_SYSTEM_METADATA_KEY +:+ "_" +:+ fabric.

Definition _set_fabric_state (fabric state : string) : M unit :=
  let meta_key := _sys_fabric_state_key fabric in
  meta_set meta_key state.

Definition _get_fabric_state (fabric : string) : M string :=
  let meta_key := _sys_fabric_state_key fabric in
  do v <- meta_get meta_key;
  do_ (match v with
       | None => meta_set meta_key FS_UNMAPPED
       | Some _ => ret tt
       end);
  meta_index meta_key.

(** The tokens one port mapping contributes: [p_wwpn], then
    [v_wwpns.split()]. *)
Definition meta_elems_of (mapping : string * string) : list string :=
  mapping.1 :: PyStr.split_ws mapping.2.

Definition encode_port_map (port_map : port_map) : string :=
  PyStr.join "," (flat_map meta_elems_of port_map).

Definition _set_fabric_meta (fabric : string) (port_map : port_map) : M unit :=
  let meta_value := encode_port_map port_map in
  let meta_key := _sys_meta_fabric_key fabric in
  meta_set meta_key meta_value.

(** [[(p, ' '.join([v1, v2])) for p, v1, v2
      in zip(wwpns[::3], wwpns[1::3], wwpns[2::3])]] *)
Definition decode_port_map (meta_value : string) : port_map :=
  let wwpns := PyStr.split "," meta_value in
  map (fun '(p, v1, v2) => (p, PyStr.join " " [v1; v2]))
      (PyStr.zip3 (PyStr.stride3 wwpns) (PyStr.stride3 (drop 1 wwpns))
                  (PyStr.stride3 (drop 2 wwpns))).

Definition _get_fabric_meta (fabric : string) : M (option port_map) :=
  let meta_key := _sys_meta_fabric_key fabric in
  do v <- meta_get meta_key;
  match v with
  | None => ret None
  | Some _ =>
      do meta_value <- meta_index meta_key;
      ret (Some (decode_port_map meta_value))
  end.

(** *** Port pool *)

Definition _build_wwpns_for_fabric : M (list string) :=
  repeat_n
    (fun wwpns =>
       do pair <- pvm_wwpn_build_wwpn_pair;
       ret (wwpns ++ [pair.1; pair.2]))
    (Z.to_nat _ports_per_fabric) [].

(** *** Parking on the management partition *)

Definition _add_npiv_mgmt_mappings (fabric : string) (npiv_port_map : port_map)
  : M unit :=
  do fc_state <- _get_fabric_state fabric;
  if String.eqb fc_state FS_UNMAPPED then
    do mg_wrap_uuid <- mgmt_get_mgmt_partition;
    do_ pvm_wwpn_add_npiv_port_mappings mg_wrap_uuid (Some npiv_port_map);
    _set_fabric_state fabric FS_MGMT_MAPPED
  else ret tt.

Definition _remove_npiv_mgmt_mappings (fabric : string)
    (npiv_port_map : option port_map) : M unit :=
  do fc_state <- _get_fabric_state fabric;
  if String.eqb fc_state FS_MGMT_MAPPED then
    do_ pvm_wwpn_remove_npiv_port_mappings npiv_port_map;
    _set_fabric_state fabric FS_UNMAPPED
  else ret tt.

(** *** Public operations *)

(** The body of the loop of [connect_volume]. *)
Definition connect_fabric (vm_uuid : string) (_ : unit) (fabric : string)
  : M unit :=
  do npiv_port_mappings <- _get_fabric_meta fabric;
  do_ _remove_npiv_mgmt_mappings fabric npiv_port_mappings;
  do_ pvm_wwpn_add_npiv_port_mappings vm_uuid npiv_port_mappings;
  _set_fabric_state fabric FS_INST_MAPPED.

Definition connect_volume (vm_uuid : string) : M unit :=
  for_each (connect_fabric vm_uuid) _fabric_names tt.

(** [x in l] on a value that may be [None]. *)
Definition py_in (x : option string) (l : list string) : bool :=
  match x with
  | Some s => bool_decide (s ∈ l)
  | None => false
  end.

(** [npiv_port_mappings.extend(self._get_fabric_meta(instance, fabric))]:
    extending by [None] is a [TypeError]. *)
Definition gather_fabric (npiv_port_mappings : port_map) (fabric : string)
  : M port_map :=
  do metas <- _get_fabric_meta fabric;
  match metas with
  | Some ms => ret (npiv_port_mappings ++ ms)
  | None => raise TypeError
  end.

Definition disconnect_volume : M unit :=
  do ts <- get_task_state;
  if negb (py_in ts TASK_STATES_FOR_DISCONNECT) then ret tt
  else
    do npiv_port_mappings <- for_each gather_fabric _fabric_names [];
    pvm_wwpn_remove_npiv_port_mappings (Some npiv_port_mappings).

(** The first loop of [wwpns], with its [break]: the flag [bad_fabric] and
    the keys collected so far. *)
Fixpoint wwpns_scan (fabrics : list string) (wwpn_keys : list string)
  : M (bool * list string) :=
  match fabrics with
  | [] => ret (false, wwpn_keys)
  | fabric :: rest =>
      do metas <- _get_fabric_meta fabric;
      match metas with
      | None => ret (true, wwpn_keys)
      | Some ms =>
          wwpns_scan rest
            (wwpn_keys ++ flat_map (fun meta_val => PyStr.split " " meta_val.2) ms)
      end
  end.

(** The body of the second loop of [wwpns]; the loop carries [vios_wraps]
    (reversed in place every round) and [resp_wwpns]. *)
Definition rebuild_fabric (acc : list VIOS * list string) (fabric : string)
  : M (list VIOS * list string) :=
  let '(vios_wraps, resp_wwpns) := acc in
  do v_port_wwpns <- _build_wwpns_for_fabric;
  let resp_wwpns := resp_wwpns ++ v_port_wwpns in
  do p_port_wwpns <- _fabric_ports fabric;
  do port_map <- pvm_wwpn_derive_npiv_map vios_wraps p_port_wwpns v_port_wwpns;
  do_ _set_fabric_meta fabric port_map;
  let vios_wraps := rev vios_wraps in
  do_ _add_npiv_mgmt_mappings fabric port_map;
  ret (vios_wraps, resp_wwpns).

Definition wwpns_rebuild : M (list string) :=
  do vios_wraps <- adapter_read_vios;
  do acc <- for_each rebuild_fabric _fabric_names (vios_wraps, []);
  ret acc.2.

Definition wwpns : M (list string) :=
  do scan <- wwpns_scan _fabric_names [];
  let '(bad_fabric, wwpn_keys) := scan in
  if negb bad_fabric then ret wwpn_keys
  else wwpns_rebuild.

Definition host_name : M string :=
  fun w => (w, Ok (name (instance w))).

End NPIVVolumeAdapter.

(** ** A management layer to run the adapter on

    Two virtual I/O servers, WWPNs numbered by the calls made so far, every
    virtual port pair put on the fabric's first physical port, and no call
    ever failing. *)

Module Demo.

Fixpoint tally (n : nat) : string :=
  match n with
  | O => ""
  | S n' => String "i" (tally n')
  end.

Definition builds (h : list (event string)) : nat :=
  length (List.filter (λ ev, match ev with EvBuildPair => true | _ => false end) h).

Fixpoint pair_up (p : string) (v_port_wwpns : list string) : port_map :=
  match v_port_wwpns with
  | a :: b :: rest => (p, a +:+ " " +:+ b) :: pair_up p rest
  | _ => []
  end.

#[export] Instance layer : ManagementLayer string := {|
  build_wwpn_pair h := Ok ("c0a" +:+ tally (builds h), "c0b" +:+ tally (builds h));
  read_vios _ := Ok ["V1"; "V2"];
  derive_npiv_map _ _ p_port_wwpns v_port_wwpns :=
    match p_port_wwpns with
    | p :: _ => Ok (pair_up p v_port_wwpns)
    | [] => Raise (ManagementError "no physical port")
    end;
  get_mgmt_partition _ := Ok "mgmt";
  add_npiv_port_mappings_outcome _ _ _ := Ok tt;
  remove_npiv_port_mappings_outcome _ _ := Ok tt
|}.

Definition conf : Config := {|
  NPIV_FABRIC_WWPNS := [("A", ["21a"; "21b"]); ("B", ["21c"])];
  ports_per_fabric := 1
|}.

Definition fresh (ts : option string) (md : gmap string string) : World string := {|
  instance := {| name := "vm1"; task_state := ts; system_metadata := md |};
  trace := [];
  vfc_mappings := []
|}.

End Demo.

(** ** Python sequences and paths *)

Module PySeq.

Fixpoint str_take (k : nat) (s : string) : string :=
  match k, s with
  | S k', String a s' => String a (str_take k' s')
  | _, _ => ""
  end.

Fixpoint str_drop (k : nat) (s : string) : string :=
  match k, s with
  | S k', String _ s' => str_drop k' s'
  | _, _ => s
  end.

(** A slice bound [i] on a sequence of length [len]: a negative bound
    counts from the end, and the bound is clamped to [0, len]. *)
Definition slice_index (i : Z) (len : nat) : nat :=
  Z.to_nat (Z.min (Z.max 0 (if (i <? 0)%Z then i + Z.of_nat len else i))
                  (Z.of_nat len)).

(** [s[0:i]] and [s[:i]] *)
Definition slice_to (s : string) (i : Z) : string :=
  str_take (slice_index i (String.length s)) s.

(** [s[i:]] *)
Definition slice_from (s : string) (i : Z) : string :=
  str_drop (slice_index i (String.length s)) s.

(** [s.replace(old, new)] for one-character [old] and [new]. *)
Fixpoint replace_char (old new : ascii) (s : string) : string :=
  match s with
  | EmptyString => ""
  | String a s' =>
      String (if Ascii.eqb a old then new else a) (replace_char old new s')
  end.

Definition startswith_slash (s : string) : bool :=
  match s with
  | String a _ => Ascii.eqb a "/"
  | EmptyString => false
  end.

Fixpoint endswith_slash (s : string) : bool :=
  match s with
  | EmptyString => false
  | String a EmptyString => Ascii.eqb a "/"
  | String _ s' => endswith_slash s'
  end.

(** [os.path.join(a, b)] of [posixpath]. *)
Definition path_join (a b : string) : string :=
  if startswith_slash b then b
  else if (String.eqb a "" || endswith_slash a)%bool then a +:+ b
  else a +:+ "/" +:+ b.

(** [l.remove(x)]: the list without its first element equal to [x], or
    [None] for the [ValueError] when there is none. *)
Fixpoint list_remove {A} `{EqDecision A} (x : A) (l : list A)
  : option (list A) :=
  match l with
  | [] => None
  | y :: l' =>
      if decide (y = x) then Some l'
      else match list_remove x l' with
           | Some r => Some (y :: r)
           | None => None
           end
  end.

End PySeq.

(** What a call gives: a value, or an exception of type [E]. *)
Inductive outcome (E A : Type) : Type :=
| Returned (a : A)
| Raised (e : E).
Arguments Returned {E A} a.
Arguments Raised {E A} e.

(** ** localdisk.py *)

Module LocalDisk.

(** *** [IterableToFileAdapter] *)

Record IterableToFileAdapter : Type := {
  iterator : list string;
  remaining_data : string
}.

(** [__init__]: the iterator over the chunks still to come. *)
Definition init (iterable : list string) : IterableToFileAdapter :=
  {| iterator := iterable; remaining_data := "" |}.

(** [while not chunk: chunk = self.iterator.next()]: the first non-empty
    chunk and the iterator after it, or [None] for [StopIteration]. *)
Fixpoint next_chunk (chunk : string) (it : list string)
  : option (string * list string) :=
  match chunk with
  | String _ _ => Some (chunk, it)
  | EmptyString =>
      match it with
      | [] => None
      | c :: it' => next_chunk c it'
      end
  end.

Definition read (size : Z) (self : IterableToFileAdapter)
  : string * IterableToFileAdapter :=
  let chunk := remaining_data self in
  match next_chunk chunk (iterator self) with
  | None => ("", {| iterator := []; remaining_data := remaining_data self |})
  | Some (chunk, it) =>
      let return_value := PySeq.slice_to chunk size in
      (return_value,
       {| iterator := it; remaining_data := PySeq.slice_from chunk size |})
  end.

(** [k] calls of [read(size)] in a row: what they returned, and the adapter
    after them. *)
Fixpoint reads (size : Z) (k : nat) (self : IterableToFileAdapter)
  : list string * IterableToFileAdapter :=
  match k with
  | O => ([], self)
  | S k' =>
      let '(data, self1) := read size self in
      let '(rest, self2) := reads size k' self1 in
      (data :: rest, self2)
  end.

(** *** [LocalStorage] *)

Definition _get_disk_name (type_ : string) (instance_uuid : string) : string :=
  PySeq.slice_to type_ 6 +:+ "_" +:+ PySeq.slice_to instance_uuid 8.

Inductive error : Type :=
| VGNotFound (vg_name : string)
| KeyError (key : string)
| AdapterError (msg : string).

(** An entry of the volume group feed: the name its wrapper gives, and its
    [properties]. *)
Record FeedEntry : Type := {
  wrap_vg_name : string;
  properties : gmap string string
}.

(** The loop of [_get_vg_uuid] over [resp.feed.entries]. *)
Fixpoint search_feed (name : string) (entries : list FeedEntry)
  : outcome error string :=
  match entries with
  | [] => Raised (VGNotFound name)
  | entry :: rest =>
      if String.eqb name (wrap_vg_name entry) then
        match properties entry !! "id" with
        | Some uuid => Returned uuid
        | None => Raised (KeyError "id")
        end
      else search_feed name rest
  end.

(** [_get_vg_uuid], given what [adapter.read] did. *)
Definition _get_vg_uuid (resp : outcome error (list FeedEntry)) (name : string)
  : outcome error string :=
  match resp with
  | Raised e => Raised e
  | Returned entries => search_feed name entries
  end.

End LocalDisk.

(** ** media.py *)

Module Media.

Inductive error : Type :=
| NoMediaRepoVolumeGroupFound (vol_grp : string)
| KeyError (key : string)
| ValueError
| AdapterError (msg : string).

(** A volume group of the feed: its name, its UUID, and how many virtual
    media repositories [get_vmedia_repos] gives. *)
Record VolumeGroup : Type := {
  vg_name : string;
  vg_uuid : string;
  vmedia_repos : nat
}.

Record Response : Type := {
  feed_entries : list VolumeGroup;
  headers : gmap string string
}.

Inductive event : Type :=
| EvReadVolumeGroups
| EvCrtVmediaRepo (name : string) (size : Z)
| EvUpdateVolumeGroup (etag uuid : string).

(** The first loop of [_validate_vopt_vg], with its [break]. *)
Fixpoint find_vg (name : string) (entries : list VolumeGroup)
  : option VolumeGroup :=
  match entries with
  | [] => None
  | vol_grp :: rest =>
      if String.eqb (vg_name vol_grp) name then Some vol_grp
      else find_vg name rest
  end.

(** [_validate_vopt_vg], given [CONF.vopt_media_volume_group],
    [CONF.vopt_media_rep_size] and what [adapter.read] and
    [adapter.update] do: the calls made and the outcome. *)
Definition _validate_vopt_vg (vopt_media_volume_group : string)
    (vopt_media_rep_size : Z)
    (read : outcome error Response) (update : outcome error unit)
  : list event * outcome error string :=
  match read with
  | Raised e => ([EvReadVolumeGroups], Raised e)
  | Returned resp =>
      match find_vg vopt_media_volume_group (feed_entries resp) with
      | None =>
          if String.eqb vopt_media_volume_group "rootvg" then
            ([EvReadVolumeGroups],
             Raised (NoMediaRepoVolumeGroupFound vopt_media_volume_group))
          else
            ([EvReadVolumeGroups],
             Raised (NoMediaRepoVolumeGroupFound vopt_media_volume_group))
      | Some found_vg =>
          if Nat.eqb (vmedia_repos found_vg) 0 then
            let made := [EvReadVolumeGroups;
                         EvCrtVmediaRepo "vopt" vopt_media_rep_size] in
            match headers resp !! "etag" with
            | None => (made, Raised (KeyError "etag"))
            | Some etag =>
                let calls := made ++ [EvUpdateVolumeGroup etag (vg_uuid found_vg)] in
                match update with
                | Raised e => (calls, Raised e)
                | Returned _ => (calls, Returned (vg_uuid found_vg))
                end
            end
          else ([EvReadVolumeGroups], Returned (vg_uuid found_vg))
      end
  end.

(** [instance.name.replace('-', '_')] into ['%s_config.iso']. *)
Definition cfg_drv_file_name (instance_name : string) : string :=
  PySeq.replace_char "-" "_" instance_name +:+ "_config.iso".

(** *** The config drive ISO *)

Inductive iso_event : Type :=
| EvInstanceMetadata (extra_md : list (string * string))
| EvPathExists (path : string)
| EvMkdir (path : string)
| EvMakeDrive (iso_path : string)
| EvGetSize (path : string)
| EvUploadVopt (iso_path file_name : string) (file_size : Z)
| EvRemoveFile (path : string)
| EvCrtScsiMapToVopt (lpar_uuid file_name : string).

(** What the calls [_create_cfg_dr_iso] and [create_cfg_drv_vopt] make do:
    building the instance metadata, [os.path.exists], [os.mkdir],
    [make_drive], [os.path.getsize], the upload, [os.remove] and
    [crt_scsi_map_to_vopt]. *)
Record Calls : Type := {
  instance_metadata : outcome error unit;
  path_exists : bool;
  mkdir : outcome error unit;
  make_drive : outcome error unit;
  getsize : outcome error Z;
  upload_vopt : outcome error unit;
  remove : outcome error unit;
  crt_scsi_map_to_vopt : outcome error unit
}.

Definition _create_cfg_dr_iso (image_meta_local_path instance_name : string)
    (admin_pass : option string) (c : Calls)
  : list iso_event * outcome error (string * string) :=
  let extra_md :=
    match admin_pass with
    | Some p => [("admin_pass", p)]
    | None => []
    end in
  let ev1 := [EvInstanceMetadata extra_md] in
  match instance_metadata c with
  | Raised e => (ev1, Raised e)
  | Returned _ =>
      let ev2 := ev1 ++ [EvPathExists image_meta_local_path] in
      let made :=
        if path_exists c then (ev2, Returned tt)
        else (ev2 ++ [EvMkdir image_meta_local_path], mkdir c) in
      match made with
      | (ev3, Raised e) => (ev3, Raised e)
      | (ev3, Returned _) =>
          let file_name := cfg_drv_file_name instance_name in
          let iso_path := PySeq.path_join image_meta_local_path file_name in
          match make_drive c with
          | Raised e => (ev3 ++ [EvMakeDrive iso_path], Raised e)
          | Returned _ =>
              (ev3 ++ [EvMakeDrive iso_path], Returned (iso_path, file_name))
          end
      end
  end.

(** [create_cfg_drv_vopt]; the value returned is the file name the mapping
    was made for. *)
Definition create_cfg_drv_vopt (image_meta_local_path instance_name : string)
    (lpar_uuid : string) (admin_pass : option string) (c : Calls)
  : list iso_event * outcome error string :=
  match _create_cfg_dr_iso image_meta_local_path instance_name admin_pass c with
  | (evs, Raised e) => (evs, Raised e)
  | (evs, Returned (iso_path, file_name)) =>
      match getsize c with
      | Raised e => (evs ++ [EvGetSize iso_path], Raised e)
      | Returned file_size =>
          let evs1 := evs ++ [EvGetSize iso_path;
                              EvUploadVopt iso_path file_name file_size] in
          match upload_vopt c with
          | Raised e => (evs1, Raised e)
          | Returned _ =>
              let evs2 := evs1 ++ [EvRemoveFile iso_path] in
              match remove c with
              | Raised e => (evs2, Raised e)
              | Returned _ =>
                  let evs3 := evs2 ++ [EvCrtScsiMapToVopt lpar_uuid file_name] in
                  match crt_scsi_map_to_vopt c with
                  | Raised e => (evs3, Raised e)
                  | Returned _ => (evs3, Returned file_name)
                  end
              end
          end
      end
  end.

(** *** [dlt_cfg_drv_vopt] *)

Section Delete.

(** The optical media wrappers, compared by [==], with their
    [media_name]. *)
Context {VOpt : Type} `{EqDecision VOpt}.
Variable media_name : VOpt → string.

Record File : Type := {
  file_name : string;
  file_uuid : string
}.

Inductive dlt_event : Type :=
| EvReadVolumeGroup
| EvUpdate (vmedia_repos : list (list VOpt))
| EvReadFiles
| EvDeleteFile (uuid : string).

(** [for vopt in optical_media: if vopt.media_name == file_name: ... break] *)
Fixpoint first_named (name : string) (optical_media : list VOpt)
  : option VOpt :=
  match optical_media with
  | [] => None
  | vopt :: rest =>
      if String.eqb (media_name vopt) name then Some vopt
      else first_named name rest
  end.

(** The variables the search loop leaves: [vmedia_repo] (by its position in
    the volume group), [optical_media] and [vopt_media]. *)
Record Found : Type := {
  vmedia_repo : option nat;
  optical_media : option (list VOpt);
  vopt_media : option VOpt
}.

(** The outer loop, at the repository of position [i]. *)
Fixpoint search_repos (name : string) (i : nat) (repos : list (list VOpt))
    (acc : Found) : Found :=
  match repos with
  | [] => acc
  | media :: rest =>
      let acc1 :=
        match first_named name media with
        | Some vopt => {| vmedia_repo := Some i;
                          optical_media := Some media;
                          vopt_media := Some vopt |}
        | None => {| vmedia_repo := vmedia_repo acc;
                     optical_media := Some media;
                     vopt_media := vopt_media acc |}
        end in
      search_repos name (S i) rest acc1
  end.

(** The loop over the file feed. *)
Fixpoint find_file (name : string) (files : list File) : option File :=
  match files with
  | [] => None
  | v_file :: rest =>
      if String.eqb (file_name v_file) name then Some v_file
      else find_file name rest
  end.

(** [dlt_cfg_drv_vopt], given the media of the repositories of the volume
    group read ([get_optical_media] giving a list of its own each time)
    and what the later adapter calls do. *)
Definition dlt_cfg_drv_vopt (name : string)
    (vol_grp : outcome error (list (list VOpt)))
    (update : outcome error unit)
    (file_feed : outcome error (list File))
    (delete : outcome error unit)
  : list dlt_event * outcome error unit :=
  match vol_grp with
  | Raised e => ([EvReadVolumeGroup], Raised e)
  | Returned repos =>
      let found := search_repos name 0 repos
                     {| vmedia_repo := None; optical_media := None;
                        vopt_media := None |} in
      match vopt_media found, optical_media found, vmedia_repo found with
      | Some vopt, Some media, Some i =>
          match PySeq.list_remove vopt media with
          | None => ([EvReadVolumeGroup], Raised ValueError)
          | Some media' =>
              let calls := [EvReadVolumeGroup; EvUpdate (<[i := media']> repos)] in
              match update with
              | Raised e => (calls, Raised e)
              | Returned _ =>
                  match file_feed with
                  | Raised e => (calls ++ [EvReadFiles], Raised e)
                  | Returned files =>
                      match find_file name files with
                      | Some v_file =>
                          (calls ++ [EvReadFiles; EvDeleteFile (file_uuid v_file)],
                           match delete with
                           | Raised e => Raised e
                           | Returned _ => Returned tt
                           end)
                      | None => (calls ++ [EvReadFiles], Returned tt)
                      end
                  end
              end
          end
      | _, _, _ => ([EvReadVolumeGroup], Returned tt)
      end
  end.

End Delete.

End Media.

(** ** Vocabulary of the properties *)

(** The complete groups of three at the front of a list, in order. *)
Fixpoint chunk3 {A} (l : list A) : list (A * A * A) :=
  match l with
  | a :: b :: c :: rest => (a, b, c) :: chunk3 rest
  | _ => []
  end.

(** A virtual WWPN as the store can hold it: a non-empty token without
    whitespace or comma. *)
Definition is_virtual_wwpn (s : string) : Prop :=
  s ≠ "" ∧ PyStr.has_space s = false ∧ PyStr.contains "," s = false.

(** A port mapping [(p, "vA vB")]: a physical WWPN without comma and two
    virtual WWPNs separated by one space. *)
Definition well_formed_mapping (m : string * string) : Prop :=
  PyStr.contains "," m.1 = false ∧
  ∃ a b, m.2 = a +:+ " " +:+ b ∧ is_virtual_wwpn a ∧ is_virtual_wwpn b.

(** The state [_get_fabric_state] returns on metadata [md]: the stored one,
    [unmapped] when none is stored. *)
Definition fabric_state_of (md : gmap string string) (fabric : string) : string :=
  default FS_UNMAPPED (md !! _sys_fabric_state_key fabric).

(** The port map [_get_fabric_meta] returns on metadata [md]. *)
Definition stored_port_map (md : gmap string string) (fabric : string)
  : option port_map :=
  decode_port_map <$> md !! _sys_meta_fabric_key fabric.

(** The calls into the management layer among some effects. *)
Definition is_call {VIOS} (ev : event VIOS) : bool :=
  match ev with
  | EvMetaSet _ _ => false
  | _ => true
  end.

Definition calls {VIOS} (evs : list (event VIOS)) : list (event VIOS) :=
  List.filter is_call evs.

Definition is_remove {VIOS} (ev : event VIOS) : bool :=
  match ev with
  | EvRemove _ => true
  | _ => false
  end.

Definition is_build {VIOS} (ev : event VIOS) : bool :=
  match ev with
  | EvBuildPair => true
  | _ => false
  end.

(** The [vios_wraps] arguments of the [derive_npiv_map] calls, in order. *)
Definition derive_orders {VIOS} (evs : list (event VIOS)) : list (list VIOS) :=
  flat_map (λ ev, match ev with
                  | EvDerive vios_wraps _ _ => [vios_wraps]
                  | _ => []
                  end) evs.

(** The values assigned to one metadata key, in order. *)
Definition writes_to {VIOS} (key : string) (evs : list (event VIOS))
  : list string :=
  flat_map (λ ev, match ev with
                  | EvMetaSet k v => if String.eqb k key then [v] else []
                  | _ => []
                  end) evs.

(** The world [_get_fabric_state] leaves behind: the state is stored. *)
Definition state_read {VIOS} (fabric : string) (w : World VIOS) : World VIOS :=
  match metadata w !! _sys_fabric_state_key fabric with
  | Some _ => w
  | None => put (_sys_fabric_state_key fabric) FS_UNMAPPED w
  end.

(** The comma-separated tokens stored for a fabric. *)
Definition stored_tokens (md : gmap string string) (fabric : string)
  : list string :=
  PyStr.split "," (default "" (md !! _sys_meta_fabric_key fabric)).

(** The pool [n] calls of [build_wwpn_pair] yield when the first is made
    after the effects [h]. *)
Definition pool_from {VIOS} {ML : ManagementLayer VIOS}
    (h : list (event VIOS)) (n : nat) : list string :=
  flat_map (λ k, match build_wwpn_pair (h ++ replicate k EvBuildPair) with
                 | Ok wwpn_pair => [wwpn_pair.1; wwpn_pair.2]
                 | Raise _ => []
                 end) (seq 0 n).

(** The state of a fabric after [_add_npiv_mgmt_mappings] returned. *)
Definition parked (state : string) : string :=
  if String.eqb state FS_UNMAPPED then FS_MGMT_MAPPED else state.

(** The invariant of the data model for one fabric: the stored state is one
    of the three, and a port map is stored exactly when the state is
    [mgmt_mapped] or [inst_mapped]. *)
Definition fabric_consistent (md : gmap string string) (fabric : string) : Prop :=
  fabric_state_of md fabric ∈ [FS_UNMAPPED; FS_MGMT_MAPPED; FS_INST_MAPPED]
  ∧ (is_Some (md !! _sys_meta_fabric_key fabric)
     ↔ fabric_state_of md fabric = FS_MGMT_MAPPED
       ∨ fabric_state_of md fabric = FS_INST_MAPPED).

(** The keys the first loop of [wwpns] collects for one fabric:
    [meta_val[1].split(' ')] for every mapping of its stored port map. *)
Definition fabric_keys (md : gmap string string) (fabric : string)
  : list string :=
  flat_map (λ meta_val : string * string, PyStr.split " " meta_val.2)
           (default [] (stored_port_map md fabric)).

(** The orders of the virtual I/O servers over [n] rounds that start with
    [v] and reverse it after every round. *)
Fixpoint alternating {A} (v : list A) (n : nat) : list (list A) :=
  match n with
  | O => []
  | S n' => v :: alternating (rev v) n'
  end.

Definition is_add {VIOS} (ev : event VIOS) : bool :=
  match ev with
  | EvAdd _ _ => true
  | _ => false
  end.

(** What the [build_wwpn_pair] calls among the effects [evs] returned, in
    call order, when [evs] follow the effects [h]. *)
Fixpoint build_results {VIOS} {ML : ManagementLayer VIOS}
    (h evs : list (event VIOS)) : list string :=
  match evs with
  | [] => []
  | ev :: evs' =>
      (if is_build ev then
         match build_wwpn_pair h with
         | Ok wwpn_pair => [wwpn_pair.1; wwpn_pair.2]
         | Raise _ => []
         end
       else [])
      ++ build_results (h ++ [ev]) evs'
  end.

(** What [_get_fabric_state] writes on metadata [md] for [fabric]: the
    default state, when none is stored. *)
Definition state_default {VIOS} (md : gmap string string) (fabric : string)
  : list (event VIOS) :=
  match md !! _sys_fabric_state_key fabric with
  | None => [EvMetaSet (_sys_fabric_state_key fabric) FS_UNMAPPED]
  | Some _ => []
  end.

(** The port maps the [derive_npiv_map] calls among the effects [evs]
    returned, in call order, when [evs] follow the effects [h]. *)
Fixpoint derive_results {VIOS} {ML : ManagementLayer VIOS}
    (h evs : list (event VIOS)) : list port_map :=
  match evs with
  | [] => []
  | ev :: evs' =>
      match ev with
      | EvDerive vios_wraps p_port_wwpns v_port_wwpns =>
          match derive_npiv_map h vios_wraps p_port_wwpns v_port_wwpns with
          | Ok pm => [pm]
          | Raise _ => []
          end
      | _ => []
      end
      ++ derive_results (h ++ [ev]) evs'
  end.

(** The partition UUIDs the [get_mgmt_partition] calls among [evs]
    returned, in call order. *)
Fixpoint mgmt_results {VIOS} {ML : ManagementLayer VIOS}
    (h evs : list (event VIOS)) : list string :=
  match evs with
  | [] => []
  | ev :: evs' =>
      match ev with
      | EvGetMgmt =>
          match get_mgmt_partition h with
          | Ok uuid => [uuid]
          | Raise _ => []
          end
      | _ => []
      end
      ++ mgmt_results (h ++ [ev]) evs'
  end.

(** Of the port maps [pms] derived for [fabrics], one each, those of the
    fabrics whose state on metadata [md] is [unmapped]. *)
Fixpoint unmapped_maps (md : gmap string string) (fabrics : list string)
    (pms : list port_map) : list port_map :=
  match fabrics, pms with
  | fabric :: fabrics', pm :: pms' =>
      (if String.eqb (fabric_state_of md fabric) FS_UNMAPPED then [pm] else [])
      ++ unmapped_maps md fabrics' pms'
  | _, _ => []
  end.

(** The call [ev], made after the effects [h], raises [e]. *)
Definition raised_by {VIOS} {ML : ManagementLayer VIOS}
    (h : list (event VIOS)) (ev : event VIOS) (e : exn) : Prop :=
  match ev with
  | EvMetaSet _ _ => False
  | EvBuildPair => build_wwpn_pair h = Raise e
  | EvReadVIOS => read_vios h = Raise e
  | EvDerive vios_wraps p_port_wwpns v_port_wwpns =>
      derive_npiv_map h vios_wraps p_port_wwpns v_port_wwpns = Raise e
  | EvGetMgmt => get_mgmt_partition h = Raise e
  | EvAdd lpar_uuid npiv_port_maps =>
      add_npiv_port_mappings_outcome h lpar_uuid npiv_port_maps = Raise e
  | EvRemove npiv_port_maps =>
      remove_npiv_port_mappings_outcome h npiv_port_maps = Raise e
  end.

(** The calls of parking: asking for the management partition and adding
    the mappings. *)
Definition is_parking_call {VIOS} (ev : event VIOS) : bool :=
  match ev with
  | EvGetMgmt | EvAdd _ _ => true
  | _ => false
  end.

(** The data an [IterableToFileAdapter] has still to give: what is left of
    the current chunk, then the chunks to come. *)
Fixpoint join_all (chunks : list string) : string :=
  match chunks with
  | [] => ""
  | c :: rest => c +:+ join_all rest
  end.

Definition pending (self : LocalDisk.IterableToFileAdapter) : string :=
  LocalDisk.remaining_data self +:+ join_all (LocalDisk.iterator self).

Definition is_remove_file (ev : Media.iso_event) : bool :=
  match ev with
  | Media.EvRemoveFile _ => true
  | _ => false
  end.

(** * Properties *)

#[local] Arguments String.append !_ _ / : simpl nomatch.

(** ** Python string primitives *)

Example split_empty : PyStr.split "," "" = [""].
Proof. reflexivity. Qed.

Example split_trailing : PyStr.split "," "a,b," = ["a"; "b"; ""].
Proof. reflexivity. Qed.

Example split_ws_runs : PyStr.split_ws "  c0  c1 " = ["c0"; "c1"].
Proof. reflexivity. Qed.

Example stride3_five : PyStr.stride3 [1; 2; 3; 4; 5]%nat = [1; 4]%nat.
Proof. reflexivity. Qed.

Section StringFacts.

Import PyStr.

Lemma append_empty_r (s : string) : s +:+ "" = s.
Proof. induction s as [|a s IH]; simpl; [reflexivity | now rewrite IH]. Qed.

Lemma split_not_nil (c : ascii) (s : string) : split c s ≠ [].
Proof.
  induction s as [|a s IH]; simpl; [discriminate |].
  destruct (Ascii.eqb a c); [discriminate |].
  destruct (split c s); discriminate.
Qed.

Lemma split_no_sep (c : ascii) (s : string) :
  contains c s = false → split c s = [s].
Proof.
  induction s as [|a s IH]; simpl; [reflexivity |].
  intros H. apply orb_false_iff in H as [Ha Hs].
  rewrite Ha, (IH Hs). reflexivity.
Qed.

Lemma split_field (c : ascii) (a s : string) :
  contains c a = false → split c (a +:+ String c s) = a :: split c s.
Proof.
  induction a as [|x a IH]; simpl; intros H.
  - now rewrite Ascii.eqb_refl.
  - apply orb_false_iff in H as [Hx Ha].
    rewrite Hx, (IH Ha). reflexivity.
Qed.

Lemma split_join (c : ascii) (l : list string) :
  l ≠ [] → Forall (λ s, contains c s = false) l →
  split c (join (String c "") l) = l.
Proof.
  induction l as [|x l IH]; [congruence |].
  intros _ Hall. inversion Hall as [|? ? Hx Hl]; subst.
  destruct l as [|y l].
  - simpl. now apply split_no_sep.
  - change (join (String c "") (x :: y :: l))
      with (x +:+ String c (join (String c "") (y :: l))).
    rewrite split_field by assumption.
    f_equal. apply IH; [discriminate | assumption].
Qed.

Lemma scan_token (a s : string) :
  has_space a = false →
  split_ws_scan (a +:+ s) = ((a +:+ (split_ws_scan s).1), (split_ws_scan s).2).
Proof.
  induction a as [|x a IH]; simpl; intros H.
  - now destruct (split_ws_scan s).
  - apply orb_false_iff in H as [Hx Ha].
    rewrite (IH Ha), Hx. reflexivity.
Qed.

Lemma scan_one_token (a : string) :
  has_space a = false → split_ws_scan a = (a, []).
Proof.
  intros H. rewrite <- (append_empty_r a) at 1.
  rewrite scan_token by assumption. simpl. now rewrite append_empty_r.
Qed.

(** [(a + ' ' + b).split() == [a, b]] for two tokens without whitespace. *)
Lemma split_ws_pair (a b : string) :
  a ≠ "" → b ≠ "" → has_space a = false → has_space b = false →
  split_ws (a +:+ " " +:+ b) = [a; b].
Proof.
  intros Ha Hb Hsa Hsb. unfold split_ws.
  rewrite scan_token by assumption.
  change (" " +:+ b) with (String " " b). simpl.
  rewrite (scan_one_token b Hsb). simpl.
  rewrite append_empty_r.
  destruct a; [congruence |]. destruct b; [congruence |]. reflexivity.
Qed.

(** [(a + ' ' + b).split(' ') == [a, b]] for two tokens without a space. *)
Lemma split_space_pair (a b : string) :
  contains " " a = false → contains " " b = false →
  split " " (a +:+ " " +:+ b) = [a; b].
Proof.
  intros Ha Hb. change (" " +:+ b) with (String " " b).
  rewrite split_field by assumption. now rewrite split_no_sep.
Qed.

Lemma isspace_contains (s : string) :
  has_space s = false → contains " " s = false.
Proof.
  induction s as [|x s IH]; simpl; [reflexivity |].
  intros H. apply orb_false_iff in H as [Hx Hs].
  rewrite (IH Hs), orb_false_r.
  destruct (Ascii.eqb_spec x " ") as [->|]; [discriminate Hx | reflexivity].
Qed.

Lemma zip3_strides {A} (l : list A) :
  zip3 (stride3 l) (stride3 (drop 1 l)) (stride3 (drop 2 l)) = chunk3 l.
Proof.
  remember (length l) as n eqn:Hn.
  revert l Hn. induction n as [n IH] using lt_wf_ind. intros l Hn.
  destruct l as [|a [|b [|c rest]]]; try reflexivity.
  transitivity
    ((a, b, c)
       :: zip3 (stride3 rest) (stride3 (drop 1 rest)) (stride3 (drop 2 rest))).
  { destruct rest as [|d [|e rest']]; reflexivity. }
  rewrite (IH (length rest)) with (l := rest);
    [reflexivity | simpl in Hn; lia | reflexivity].
Qed.

Lemma chunk3_length {A} (l : list A) : length (chunk3 l) = (length l / 3)%nat.
Proof.
  remember (length l) as n eqn:Hn.
  revert l Hn. induction n as [n IH] using lt_wf_ind. intros l Hn.
  destruct l as [|a [|b [|c rest]]]; subst n; try reflexivity.
  simpl length.
  rewrite (IH (length rest)) with (l := rest); [| simpl; lia | reflexivity].
  change (S (S (S (length rest)))) with (1 * 3 + length rest)%nat.
  rewrite Nat.div_add_l by lia. reflexivity.
Qed.

Lemma chunk3_triples {A} (ts : list (A * A * A)) :
  chunk3 (flat_map (λ '(p, a, b), [p; a; b]) ts) = ts.
Proof.
  induction ts as [|[[p a] b] ts IH]; simpl; [reflexivity | now rewrite IH].
Qed.

End StringFacts.

(** ** The port-map encoding *)

Section Encoding.

Import PyStr.

Lemma meta_elems_well_formed (m : string * string) :
  well_formed_mapping m →
  ∃ a b, meta_elems_of m = [m.1; a; b] ∧ m.2 = a +:+ " " +:+ b
         ∧ Forall (λ s, contains "," s = false) [m.1; a; b].
Proof.
  intros (Hp & a & b & Hv & (Ha & Hsa & Hca) & (Hb & Hsb & Hcb)).
  exists a, b. unfold meta_elems_of. rewrite Hv at 1.
  rewrite split_ws_pair by assumption.
  repeat split; [assumption |]. repeat constructor; assumption.
Qed.

Lemma encode_tokens_no_comma (x : port_map) :
  Forall well_formed_mapping x →
  Forall (λ s, contains "," s = false) (flat_map meta_elems_of x).
Proof.
  induction 1 as [|m x Hm _ IH]; cbn [flat_map]; [constructor |].
  destruct (meta_elems_well_formed m Hm) as (a & b & -> & _ & Hall).
  apply Forall_app. split; assumption.
Qed.

Lemma regroup_tokens (x : port_map) :
  Forall well_formed_mapping x →
  map (λ '(p, v1, v2), (p, join " " [v1; v2]))
      (chunk3 (flat_map meta_elems_of x)) = x.
Proof.
  induction 1 as [|[p v] x Hm _ IH]; cbn [flat_map]; [reflexivity |].
  destruct (meta_elems_well_formed (p, v) Hm) as (a & b & -> & Hv & _).
  simpl in *. rewrite IH, Hv. reflexivity.
Qed.

Lemma decode_encode (x : port_map) :
  Forall well_formed_mapping x → decode_port_map (encode_port_map x) = x.
Proof.
  intros Hx. unfold decode_port_map, encode_port_map.
  rewrite zip3_strides.
  destruct x as [|m x]; [reflexivity |].
  rewrite split_join.
  - now apply regroup_tokens.
  - simpl. unfold meta_elems_of at 1. discriminate.
  - now apply encode_tokens_no_comma.
Qed.

(** What decoding makes of any stored string: the complete groups of three
    of its comma-separated tokens, one mapping each. *)
Lemma decode_port_map_chunks (s : string) :
  decode_port_map s
  = map (λ '(p, v1, v2), (p, v1 +:+ " " +:+ v2)) (chunk3 (split "," s)).
Proof. unfold decode_port_map. now rewrite zip3_strides. Qed.

Lemma decode_port_map_length (s : string) :
  length (decode_port_map s) = (length (split "," s) / 3)%nat.
Proof. now rewrite decode_port_map_chunks, length_map, chunk3_length. Qed.

End Encoding.

(** ** The fabric state store *)

Section Store.

Context {VIOS : Type}.
Implicit Types (w : World VIOS) (fabric : string).

Lemma metadata_with_metadata md w : metadata (with_metadata md w) = md.
Proof. reflexivity. Qed.

Lemma metadata_log ev w : metadata (log ev w) = metadata w.
Proof. reflexivity. Qed.

Lemma _get_fabric_meta_eq fabric w :
  _get_fabric_meta fabric w
  = (w, Ok (decode_port_map <$> metadata w !! _sys_meta_fabric_key fabric)).
Proof.
  unfold _get_fabric_meta, bind, meta_get, meta_index, ret.
  destruct (metadata w !! _sys_meta_fabric_key fabric) eqn:E;
    [rewrite E |]; reflexivity.
Qed.

Lemma _set_fabric_meta_eq fabric (x : port_map) w :
  _set_fabric_meta fabric x w
  = (put (_sys_meta_fabric_key fabric) (encode_port_map x) w, Ok tt).
Proof. reflexivity. Qed.

(** C3. Round trip of the port-map encoding: for every sequence [x] of
    port mappings [(p, "vA vB")] (a physical WWPN and two virtual WWPNs
    separated by a space, no comma anywhere), [_get_fabric_meta] right after
    [_set_fabric_meta] on the same fabric returns [x], in order. *)
Theorem set_get_fabric_meta_roundtrip fabric (x : port_map) w :
  Forall well_formed_mapping x →
  (do_ _set_fabric_meta fabric x; _get_fabric_meta fabric) w
  = ((_set_fabric_meta fabric x w).1, Ok (Some x)).
Proof.
  intros Hx. unfold bind. rewrite _set_fabric_meta_eq.
  rewrite _get_fabric_meta_eq. cbn [fst].
  unfold put. rewrite metadata_log, metadata_with_metadata, lookup_insert_eq.
  cbn [fmap option_fmap option_map]. now rewrite decode_encode.
Qed.

(** C8, as the code has it. A stored string is never rejected: decoding
    returns normally, with one mapping per complete group of three tokens;
    one or two tokens left over at the end are dropped. *)
Theorem get_fabric_meta_truncates fabric (s : string) w :
  metadata w !! _sys_meta_fabric_key fabric = Some s →
  _get_fabric_meta fabric w
  = (w, Ok (Some (map (λ '(p, v1, v2), (p, v1 +:+ " " +:+ v2))
                      (chunk3 (PyStr.split "," s)))))
  ∧ length (chunk3 (PyStr.split "," s)) = (length (PyStr.split "," s) / 3)%nat.
Proof.
  intros Hs. rewrite _get_fabric_meta_eq, Hs. cbn [fmap option_fmap option_map].
  rewrite decode_port_map_chunks. split; [reflexivity | apply chunk3_length].
Qed.

End Store.

(** ** Worlds and keys *)

Section Worlds.

Context {VIOS : Type}.
Implicit Types (w : World VIOS) (fabric key : string).

Lemma world_eq w w' :
  name (instance w) = name (instance w') →
  task_state (instance w) = task_state (instance w') →
  metadata w = metadata w' →
  trace w = trace w' →
  vfc_mappings w = vfc_mappings w' →
  w = w'.
Proof.
  destruct w as [[n t m] tr v], w' as [[n' t' m'] tr' v'].
  unfold metadata. simpl. intros. congruence.
Qed.

Lemma metadata_put key v w : metadata (put key v w) = <[key := v]> (metadata w).
Proof. reflexivity. Qed.

Lemma trace_put key v w : trace (put key v w) = trace w ++ [EvMetaSet key v].
Proof. reflexivity. Qed.

Lemma vfc_put key v w : vfc_mappings (put key v w) = vfc_mappings w.
Proof. reflexivity. Qed.

Lemma metadata_with_vfc tbl w : metadata (with_vfc tbl w) = metadata w.
Proof. reflexivity. Qed.

Lemma trace_with_vfc tbl w : trace (with_vfc tbl w) = trace w.
Proof. reflexivity. Qed.

Lemma trace_log ev w : trace (log ev w) = trace w ++ [ev].
Proof. reflexivity. Qed.

Lemma vfc_log ev w : vfc_mappings (log ev w) = vfc_mappings w.
Proof. reflexivity. Qed.

(** Assigning a key the value it already has changes the metadata not. *)
Lemma metadata_put_same key v w :
  metadata w !! key = Some v → metadata (put key v w) = metadata w.
Proof. intros H. rewrite metadata_put. now apply insert_id. Qed.

Lemma state_key_inj fabric fabric' :
  _sys_fabric_state_key fabric = _sys_fabric_state_key fabric' →
  fabric = fabric'.
Proof. unfold _sys_fabric_state_key. simpl. congruence. Qed.

Lemma meta_key_inj fabric fabric' :
  _sys_meta_fabric_key fabric = _sys_meta_fabric_key fabric' →
  fabric = fabric'.
Proof. unfold _sys_meta_fabric_key. simpl. congruence. Qed.

Lemma state_key_not_meta_key fabric fabric' :
  _sys_fabric_state_key fabric ≠ _sys_meta_fabric_key fabric'.
Proof. unfold _sys_fabric_state_key, _sys_meta_fabric_key. simpl. congruence. Qed.

Lemma _get_fabric_state_eq fabric w :
  _get_fabric_state fabric w
  = match metadata w !! _sys_fabric_state_key fabric with
    | Some v => (w, Ok v)
    | None => (put (_sys_fabric_state_key fabric) FS_UNMAPPED w, Ok FS_UNMAPPED)
    end.
Proof.
  unfold _get_fabric_state, bind, meta_get, meta_set, meta_index, ret.
  destruct (metadata w !! _sys_fabric_state_key fabric) eqn:E.
  - now rewrite E.
  - now rewrite metadata_put, lookup_insert_eq.
Qed.

Lemma _get_fabric_state_read fabric w :
  _get_fabric_state fabric w
  = (state_read fabric w, Ok (fabric_state_of (metadata w) fabric)).
Proof.
  rewrite _get_fabric_state_eq. unfold state_read, fabric_state_of.
  now destruct (metadata w !! _sys_fabric_state_key fabric).
Qed.

Lemma state_read_stored fabric w :
  metadata (state_read fabric w) !! _sys_fabric_state_key fabric
  = Some (fabric_state_of (metadata w) fabric).
Proof.
  unfold state_read, fabric_state_of.
  destruct (metadata w !! _sys_fabric_state_key fabric) eqn:E; simpl.
  - assumption.
  - now rewrite metadata_put, lookup_insert_eq.
Qed.

Lemma state_read_other fabric key w :
  key ≠ _sys_fabric_state_key fabric →
  metadata (state_read fabric w) !! key = metadata w !! key.
Proof.
  intros Hk. unfold state_read.
  destruct (metadata w !! _sys_fabric_state_key fabric); [reflexivity |].
  now rewrite metadata_put, lookup_insert_ne.
Qed.

Lemma state_read_state fabric fabric' w :
  fabric_state_of (metadata (state_read fabric w)) fabric'
  = fabric_state_of (metadata w) fabric'.
Proof.
  unfold fabric_state_of at 1.
  destruct (decide (fabric' = fabric)) as [->|Hne].
  - now rewrite state_read_stored.
  - rewrite state_read_other; [reflexivity |].
    intros H. now apply state_key_inj in H.
Qed.


Lemma state_read_vfc fabric w :
  vfc_mappings (state_read fabric w) = vfc_mappings w.
Proof.
  unfold state_read. now destruct (metadata w !! _sys_fabric_state_key fabric).
Qed.

Lemma state_read_idem fabric w :
  state_read fabric (state_read fabric w) = state_read fabric w.
Proof.
  unfold state_read at 1. now rewrite state_read_stored.
Qed.

End Worlds.

(** ** Parking on the management partition *)

Section Parking.

Context {VIOS : Type} {ML : ManagementLayer VIOS}.
Implicit Types (w : World VIOS) (fabric key : string) (pm : port_map).

Lemma fabric_state_stored fabric w :
  fabric_state_of (metadata w) fabric ≠ FS_UNMAPPED →
  state_read fabric w = w.
Proof.
  unfold fabric_state_of, state_read.
  destruct (metadata w !! _sys_fabric_state_key fabric); simpl; congruence.
Qed.

Lemma _add_npiv_mgmt_mappings_eq fabric pm w :
  _add_npiv_mgmt_mappings fabric pm w
  = if String.eqb (fabric_state_of (metadata w) fabric) FS_UNMAPPED then
      (do mg_wrap_uuid <- mgmt_get_mgmt_partition;
       do_ pvm_wwpn_add_npiv_port_mappings mg_wrap_uuid (Some pm);
       _set_fabric_state fabric FS_MGMT_MAPPED) (state_read fabric w)
    else (w, Ok tt).
Proof.
  unfold _add_npiv_mgmt_mappings at 1, bind at 1.
  rewrite _get_fabric_state_read.
  destruct (String.eqb_spec (fabric_state_of (metadata w) fabric) FS_UNMAPPED);
    [reflexivity |].
  now rewrite fabric_state_stored.
Qed.

Lemma _add_npiv_mgmt_mappings_noop fabric pm w :
  fabric_state_of (metadata w) fabric ≠ FS_UNMAPPED →
  _add_npiv_mgmt_mappings fabric pm w = (w, Ok tt).
Proof.
  intros H. rewrite _add_npiv_mgmt_mappings_eq.
  now destruct (String.eqb_spec (fabric_state_of (metadata w) fabric) FS_UNMAPPED).
Qed.

Lemma fabric_state_put fabric v w :
  fabric_state_of (metadata (put (_sys_fabric_state_key fabric) v w)) fabric = v.
Proof. unfold fabric_state_of. now rewrite metadata_put, lookup_insert_eq. Qed.

Lemma state_read_trace_eq fabric w :
  trace (state_read fabric w) = trace w ++ state_default (metadata w) fabric.
Proof.
  unfold state_read, state_default.
  destruct (metadata w !! _sys_fabric_state_key fabric).
  - now rewrite app_nil_r.
  - apply trace_put.
Qed.

Lemma state_read_metadata fabric w :
  metadata (state_read fabric w)
  = <[_sys_fabric_state_key fabric := fabric_state_of (metadata w) fabric]>
      (metadata w).
Proof.
  unfold state_read, fabric_state_of.
  destruct (metadata w !! _sys_fabric_state_key fabric) as [v|] eqn:E; simpl.
  - symmetry. now apply insert_id.
  - apply metadata_put.
Qed.

(** What parking does, by the state read and by what the two calls do. *)
Lemma _add_npiv_mgmt_mappings_run fabric pm w :
  let '(w', r) := _add_npiv_mgmt_mappings fabric pm w in
  let key := _sys_fabric_state_key fabric in
  let h := trace w ++ state_default (metadata w) fabric in
  if String.eqb (fabric_state_of (metadata w) fabric) FS_UNMAPPED then
    match get_mgmt_partition h with
    | Ok uuid =>
        match add_npiv_port_mappings_outcome (h ++ [EvGetMgmt]) uuid (Some pm) with
        | Ok _ =>
            r = Ok tt
            ∧ trace w' = h ++ [EvGetMgmt; EvAdd uuid (Some pm);
                               EvMetaSet key FS_MGMT_MAPPED]
            ∧ metadata w' = <[key := FS_MGMT_MAPPED]> (metadata w)
            ∧ vfc_mappings w' = vfc_add uuid pm (vfc_mappings w)
        | Raise e =>
            r = Raise e
            ∧ trace w' = h ++ [EvGetMgmt; EvAdd uuid (Some pm)]
            ∧ metadata w' = <[key := FS_UNMAPPED]> (metadata w)
            ∧ vfc_mappings w' = vfc_mappings w
        end
    | Raise e =>
        r = Raise e
        ∧ trace w' = h ++ [EvGetMgmt]
        ∧ metadata w' = <[key := FS_UNMAPPED]> (metadata w)
        ∧ vfc_mappings w' = vfc_mappings w
    end
  else w' = w ∧ r = Ok tt.
Proof.
  rewrite _add_npiv_mgmt_mappings_eq.
  destruct (String.eqb_spec (fabric_state_of (metadata w) fabric) FS_UNMAPPED)
    as [Hst|Hst]; [| now split].
  unfold bind, mgmt_get_mgmt_partition, call, pvm_wwpn_add_npiv_port_mappings,
    _set_fabric_state, meta_set.
  rewrite trace_log, state_read_trace_eq.
  pose proof (state_read_metadata fabric w) as Hmd. rewrite Hst in Hmd.
  destruct (get_mgmt_partition _) as [uuid|e].
  - destruct (add_npiv_port_mappings_outcome _ uuid (Some pm)) as [[]|e].
    + split; [reflexivity |]. split; [| split].
      * rewrite trace_put, trace_with_vfc, !trace_log, state_read_trace_eq.
        now rewrite <- !app_assoc.
      * rewrite metadata_put, metadata_with_vfc, !metadata_log, Hmd.
        apply insert_insert_eq.
      * rewrite vfc_put. cbn [vfc_mappings with_vfc default].
        now rewrite !vfc_log, state_read_vfc.
    + split; [reflexivity |]. split; [| split].
      * rewrite !trace_log, state_read_trace_eq. now rewrite <- !app_assoc.
      * now rewrite !metadata_log.
      * now rewrite !vfc_log, state_read_vfc.
  - split; [reflexivity |]. split; [| split].
    + now rewrite trace_log, state_read_trace_eq.
    + now rewrite metadata_log.
    + now rewrite vfc_log, state_read_vfc.
Qed.

(** C6. Parking is guarded by the fabric state and does what its calls
    allow.  When the state read is [unmapped] (stored, or set on this
    read), the management partition is asked for; if that returns, one
    add-mapping call is made for the partition returned, with the given
    port map; if that returns too, the run returns, the state is
    [mgmt_mapped] and the table has the mappings for that partition.  If
    either call raises, the run raises the same, no call follows, and the
    state stays [unmapped].  In any other state ([mgmt_mapped],
    [inst_mapped]) nothing is called and the world is unchanged.  Running
    it twice is running it once. *)
Theorem add_npiv_mgmt_mappings_guarded fabric pm w :
  let '(w', r) := _add_npiv_mgmt_mappings fabric pm w in
  let key := _sys_fabric_state_key fabric in
  let h := trace w ++ state_default (metadata w) fabric in
  (if String.eqb (fabric_state_of (metadata w) fabric) FS_UNMAPPED then
     match get_mgmt_partition h with
     | Ok uuid =>
         match add_npiv_port_mappings_outcome (h ++ [EvGetMgmt]) uuid (Some pm) with
         | Ok _ =>
             r = Ok tt
             ∧ trace w' = h ++ [EvGetMgmt; EvAdd uuid (Some pm);
                                EvMetaSet key FS_MGMT_MAPPED]
             ∧ metadata w' = <[key := FS_MGMT_MAPPED]> (metadata w)
             ∧ vfc_mappings w' = vfc_add uuid pm (vfc_mappings w)
         | Raise e =>
             r = Raise e
             ∧ trace w' = h ++ [EvGetMgmt; EvAdd uuid (Some pm)]
             ∧ metadata w' = <[key := FS_UNMAPPED]> (metadata w)
             ∧ vfc_mappings w' = vfc_mappings w
         end
     | Raise e =>
         r = Raise e
         ∧ trace w' = h ++ [EvGetMgmt]
         ∧ metadata w' = <[key := FS_UNMAPPED]> (metadata w)
         ∧ vfc_mappings w' = vfc_mappings w
     end
   else w' = w ∧ r = Ok tt)
  ∧ (do_ _add_npiv_mgmt_mappings fabric pm; _add_npiv_mgmt_mappings fabric pm) w
    = (w', r).
Proof.
  pose proof (_add_npiv_mgmt_mappings_run fabric pm w) as Hrun.
  unfold bind at 1.
  destruct (_add_npiv_mgmt_mappings fabric pm w) as [w' r].
  cbv zeta in Hrun |- *. split; [exact Hrun |].
  destruct (String.eqb (fabric_state_of (metadata w) fabric) FS_UNMAPPED)
    eqn:Hst.
  - destruct (get_mgmt_partition _) as [uuid|e].
    + destruct (add_npiv_port_mappings_outcome _ uuid (Some pm)) as [[]|e].
      * destruct Hrun as (-> & _ & Hmd & _).
        apply _add_npiv_mgmt_mappings_noop.
        unfold fabric_state_of. rewrite Hmd, lookup_insert_eq. discriminate.
      * now destruct Hrun as (-> & _).
    + now destruct Hrun as (-> & _).
  - destruct Hrun as [-> ->].
    now rewrite _add_npiv_mgmt_mappings_eq, Hst.
Qed.

End Parking.

(** ** Teardown *)

Section Disconnect.

Context {VIOS : Type} {ML : ManagementLayer VIOS}.
Variable conf : Config.
Implicit Types (w : World VIOS) (fabric key : string) (pm : port_map).

Lemma gather_fabric_eq pm fabric w :
  gather_fabric pm fabric w
  = (w, match stored_port_map (metadata w) fabric with
        | Some ms => Ok (pm ++ ms)
        | None => Raise TypeError
        end).
Proof.
  unfold gather_fabric, bind. rewrite _get_fabric_meta_eq.
  fold (stored_port_map (metadata w) fabric).
  now destruct (stored_port_map (metadata w) fabric).
Qed.

Lemma gather_all (fabrics : list string) pm w :
  Forall (λ fabric, is_Some (metadata w !! _sys_meta_fabric_key fabric)) fabrics →
  for_each gather_fabric fabrics pm w
  = (w, Ok (pm ++ flat_map
                    (λ fabric, default [] (stored_port_map (metadata w) fabric))
                    fabrics)).
Proof.
  intros Hall. revert pm.
  induction Hall as [|fabric fabrics [s Hs] _ IH]; intros pm; simpl.
  - unfold ret. now rewrite app_nil_r.
  - unfold bind. rewrite gather_fabric_eq.
    assert (Hpm : stored_port_map (metadata w) fabric = Some (decode_port_map s))
      by (unfold stored_port_map; now rewrite Hs).
    rewrite Hpm, IH. cbn [default]. now rewrite <- app_assoc.
Qed.

Lemma gather_missing (fabrics : list string) pm w :
  Exists (λ fabric, metadata w !! _sys_meta_fabric_key fabric = None) fabrics →
  for_each gather_fabric fabrics pm w = (w, Raise TypeError).
Proof.
  intros Hex. revert pm.
  induction fabrics as [|fabric fabrics IH]; intros pm; [inversion Hex |].
  simpl. unfold bind. rewrite gather_fabric_eq. unfold stored_port_map.
  destruct (metadata w !! _sys_meta_fabric_key fabric) eqn:E; simpl.
  - apply IH. inversion Hex; subst; [congruence | assumption].
  - reflexivity.
Qed.

(** With any task state outside the teardown set, [disconnect_volume]
    returns at once: nothing is called, nothing is written. *)
Lemma disconnect_volume_not_teardown w :
  py_in (task_state (instance w)) TASK_STATES_FOR_DISCONNECT = false →
  disconnect_volume conf w = (w, Ok tt).
Proof.
  intros H. unfold disconnect_volume, bind, get_task_state. now rewrite H.
Qed.

(** With a teardown task state and a stored port map for every configured
    fabric, [disconnect_volume] makes one removal call, for the port maps of
    all fabrics together, and writes no metadata. *)
Lemma disconnect_volume_teardown w :
  py_in (task_state (instance w)) TASK_STATES_FOR_DISCONNECT = true →
  Forall (λ fabric, is_Some (metadata w !! _sys_meta_fabric_key fabric))
         (_fabric_names conf) →
  let batch := flat_map (λ fabric, default [] (stored_port_map (metadata w) fabric))
                        (_fabric_names conf) in
  let '(w', _) := disconnect_volume conf w in
  trace w' = trace w ++ [EvRemove (Some batch)] ∧ metadata w' = metadata w.
Proof.
  intros Hts Hall. unfold disconnect_volume, bind, get_task_state.
  rewrite Hts. cbn [negb]. cbv beta iota.
  rewrite (gather_all _ [] w Hall). simpl app.
  unfold pvm_wwpn_remove_npiv_port_mappings.
  destruct (remove_npiv_port_mappings_outcome _ _) as [[]|e]; split; reflexivity.
Qed.

(** With a teardown task state and a configured fabric without a stored
    port map, [disconnect_volume] raises before it calls anything. *)
Lemma disconnect_volume_raises w :
  py_in (task_state (instance w)) TASK_STATES_FOR_DISCONNECT = true →
  Exists (λ fabric, metadata w !! _sys_meta_fabric_key fabric = None)
         (_fabric_names conf) →
  disconnect_volume conf w = (w, Raise TypeError).
Proof.
  intros Hts Hex. unfold disconnect_volume, bind, get_task_state.
  rewrite Hts. cbn [negb]. cbv beta iota.
  now rewrite (gather_missing _ [] w Hex).
Qed.

End Disconnect.

(** C4, at an input where the code departs from it.  Fabric [B] is
    configured but the instance being deleted has a port map for fabric [A]
    only (the case [wwpns] provides for: a fabric added later).  The call
    raises [TypeError] out of [list.extend(None)]; no removal call is made
    and the world is as before, fabric [A]'s mappings still in place. *)
Theorem disconnect_volume_deleting_missing_fabric :
  let md : gmap string string :=
    {[ "npiv_adpt_wwpns_A" := "21a,c0a,c0b"; "fabric_state_A" := "inst_mapped" ]} in
  let w := Demo.fresh (Some "deleting") md in
  py_in (task_state (instance w)) TASK_STATES_FOR_DISCONNECT = true
  ∧ disconnect_volume (ML := Demo.layer) Demo.conf w = (w, Raise TypeError)
  ∧ List.filter is_remove
      (trace (disconnect_volume (ML := Demo.layer) Demo.conf w).1) = [].
Proof. vm_compute. repeat split. Qed.

(** ** The mapping table *)

Section MappingTable.

Implicit Types (tbl : list vfc_row) (pm : port_map) (row : vfc_row).

Lemma vfc_add_row_incl lpar_uuid tbl m row :
  row ∈ tbl → row ∈ vfc_add_row lpar_uuid tbl m.
Proof.
  intros H. unfold vfc_add_row. case_bool_decide; [assumption |].
  apply elem_of_app. now left.
Qed.

Lemma vfc_add_row_in lpar_uuid tbl m :
  (lpar_uuid, m) ∈ vfc_add_row lpar_uuid tbl m.
Proof.
  unfold vfc_add_row. case_bool_decide; [assumption |].
  apply elem_of_app. right. now apply list_elem_of_singleton.
Qed.

Lemma vfc_add_incl lpar_uuid pm tbl row :
  row ∈ tbl → row ∈ vfc_add lpar_uuid pm tbl.
Proof.
  unfold vfc_add. revert tbl.
  induction pm as [|m pm IH]; intros tbl H; simpl; [assumption |].
  apply IH. now apply vfc_add_row_incl.
Qed.

Lemma vfc_add_all lpar_uuid pm tbl m :
  m ∈ pm → (lpar_uuid, m) ∈ vfc_add lpar_uuid pm tbl.
Proof.
  unfold vfc_add. revert tbl.
  induction pm as [|m' pm IH]; intros tbl H; [inversion H |].
  simpl. apply elem_of_cons in H as [->|H].
  - apply (vfc_add_incl lpar_uuid pm). apply vfc_add_row_in.
  - now apply IH.
Qed.

(** Adding mappings that are all there already changes nothing. *)
Lemma vfc_add_present lpar_uuid pm tbl :
  (∀ m, m ∈ pm → (lpar_uuid, m) ∈ tbl) → vfc_add lpar_uuid pm tbl = tbl.
Proof.
  unfold vfc_add. induction pm as [|m pm IH]; intros H; simpl; [reflexivity |].
  assert (Hm : vfc_add_row lpar_uuid tbl m = tbl).
  { unfold vfc_add_row. rewrite bool_decide_eq_true_2; [reflexivity |].
    apply H. now left. }
  rewrite Hm. apply IH. intros m' Hm'. apply H. now right.
Qed.

Lemma vfc_remove_keep pm tbl row :
  row ∈ tbl → row.2 ∉ pm → row ∈ vfc_remove pm tbl.
Proof. intros H Hn. unfold vfc_remove. apply list_elem_of_filter. now split. Qed.

(** Removing a port map and adding it for [lpar_uuid] never loses a row of
    [lpar_uuid]. *)
Lemma vfc_readd lpar_uuid pm tbl m :
  (lpar_uuid, m) ∈ tbl →
  (lpar_uuid, m) ∈ vfc_add lpar_uuid pm (vfc_remove pm tbl).
Proof.
  intros H. destruct (decide (m ∈ pm)) as [Hin|Hout].
  - now apply vfc_add_all.
  - apply vfc_add_incl. now apply vfc_remove_keep.
Qed.

End MappingTable.

(** ** Connecting *)

Section Connect.

Context {VIOS : Type} {ML : ManagementLayer VIOS}.
Implicit Types (w : World VIOS) (fabric key vm_uuid : string).
Implicit Types (pm : option port_map).

Lemma vfc_with_vfc tbl w : vfc_mappings (with_vfc tbl w) = tbl.
Proof. reflexivity. Qed.

Lemma _remove_npiv_mgmt_mappings_eq fabric pm w :
  _remove_npiv_mgmt_mappings fabric pm w
  = if String.eqb (fabric_state_of (metadata w) fabric) FS_MGMT_MAPPED then
      (do_ pvm_wwpn_remove_npiv_port_mappings pm;
       _set_fabric_state fabric FS_UNMAPPED) w
    else (state_read fabric w, Ok tt).
Proof.
  unfold _remove_npiv_mgmt_mappings at 1, bind at 1.
  rewrite _get_fabric_state_read.
  destruct (String.eqb_spec (fabric_state_of (metadata w) fabric) FS_MGMT_MAPPED)
    as [Hst|]; [| reflexivity].
  rewrite fabric_state_stored; [reflexivity |]. rewrite Hst. discriminate.
Qed.

Lemma connect_fabric_eq vm_uuid fabric w :
  connect_fabric vm_uuid tt fabric w
  = (do_ _remove_npiv_mgmt_mappings fabric (stored_port_map (metadata w) fabric);
     do_ pvm_wwpn_add_npiv_port_mappings vm_uuid
           (stored_port_map (metadata w) fabric);
     _set_fabric_state fabric FS_INST_MAPPED) w.
Proof.
  unfold connect_fabric, bind at 1. now rewrite _get_fabric_meta_eq.
Qed.

Lemma writes_to_app key (evs evs' : list (event VIOS)) :
  writes_to key (evs ++ evs') = writes_to key evs ++ writes_to key evs'.
Proof. unfold writes_to. now rewrite flat_map_app. Qed.

Lemma writes_to_set key v :
  writes_to key [EvMetaSet (VIOS := VIOS) key v] = [v].
Proof. unfold writes_to. simpl. now rewrite String.eqb_refl. Qed.

Lemma state_read_cases fabric w :
  (state_read fabric w = w
   ∧ metadata w !! _sys_fabric_state_key fabric
     = Some (fabric_state_of (metadata w) fabric))
  ∨ (state_read fabric w = put (_sys_fabric_state_key fabric) FS_UNMAPPED w
     ∧ metadata w !! _sys_fabric_state_key fabric = None
     ∧ fabric_state_of (metadata w) fabric = FS_UNMAPPED).
Proof.
  unfold state_read, fabric_state_of.
  destruct (metadata w !! _sys_fabric_state_key fabric); [left | right]; auto.
Qed.

End Connect.

Create Rewrite HintDb world.
#[local] Hint Rewrite @metadata_put @metadata_log @metadata_with_vfc
  @trace_put @trace_log @trace_with_vfc @vfc_put @vfc_log @vfc_with_vfc
  : world.

Ltac five_parts := split; [| split; [| split; [| split]]].

Ltac unfold_locals := repeat match goal with x := _ |- _ => subst x end.

Ltac frame_part :=
  let key := fresh "key" in
  let Hk := fresh "Hk" in
  unfold_locals; intros key Hk; autorewrite with world;
  rewrite ?lookup_insert_ne by congruence; reflexivity.

Ltac state_part :=
  let H := fresh "H" in
  unfold_locals; intros H; try discriminate H; autorewrite with world;
  apply lookup_insert_eq.

Ltac not_in_list :=
  let H := fresh "H" in
  intros H; repeat (apply elem_of_cons in H as [H|H]; [discriminate |]);
  inversion H.

Ltac trace_part :=
  split; [autorewrite with world; rewrite <- ?app_assoc; reflexivity |];
  split;
  [unfold writes_to; cbn [flat_map app]; rewrite ?String.eqb_refl;
   cbn [flat_map app]; not_in_list
  | let H := fresh "H" in intros H; first [congruence | split; reflexivity]].

Section ConnectEffect.

Context {VIOS : Type} {ML : ManagementLayer VIOS}.
Implicit Types (w : World VIOS) (fabric key vm_uuid : string).
Implicit Types (pm : option port_map).

(** What one round of the loop of [connect_volume] does to the world. *)
Lemma connect_fabric_effect vm_uuid fabric w w' r :
  connect_fabric vm_uuid tt fabric w = (w', r) →
  (∀ key, key ≠ _sys_fabric_state_key fabric →
          metadata w' !! key = metadata w !! key)
  ∧ (r = Ok tt →
     metadata w' !! _sys_fabric_state_key fabric = Some FS_INST_MAPPED)
  ∧ (∃ evs, trace w' = trace w ++ evs
       ∧ (FS_MGMT_MAPPED ∉ writes_to (_sys_fabric_state_key fabric) evs)
       ∧ (fabric_state_of (metadata w) fabric ≠ FS_MGMT_MAPPED →
          List.filter is_remove evs = []
          ∧ calls evs = [EvAdd vm_uuid (stored_port_map (metadata w) fabric)]))
  ∧ (r = Ok tt →
     (∀ m, m ∈ default [] (stored_port_map (metadata w) fabric) →
           (vm_uuid, m) ∈ vfc_mappings w')
     ∧ (∀ m, (vm_uuid, m) ∈ vfc_mappings w → (vm_uuid, m) ∈ vfc_mappings w'))
  ∧ (fabric_state_of (metadata w) fabric = FS_INST_MAPPED →
     (∀ m, m ∈ default [] (stored_port_map (metadata w) fabric) →
           (vm_uuid, m) ∈ vfc_mappings w) →
     metadata w' = metadata w ∧ vfc_mappings w' = vfc_mappings w).
Proof.
  rewrite connect_fabric_eq. unfold bind at 1.
  rewrite _remove_npiv_mgmt_mappings_eq.
  set (pm := stored_port_map (metadata w) fabric).
  set (skey := _sys_fabric_state_key fabric).
  destruct (String.eqb_spec (fabric_state_of (metadata w) fabric) FS_MGMT_MAPPED)
    as [Hst|Hst].
  - (* parked: un-park, then attach *)
    unfold bind, pvm_wwpn_remove_npiv_port_mappings,
      pvm_wwpn_add_npiv_port_mappings, _set_fabric_state, meta_set.
    fold skey.
    destruct (remove_npiv_port_mappings_outcome (trace w) pm) as [[]|e];
      [destruct (add_npiv_port_mappings_outcome _ vm_uuid pm) as [[]|e] |];
      intros [= <- <-]; five_parts.
    + frame_part.
    + state_part.
    + exists [EvRemove pm; EvMetaSet skey FS_UNMAPPED; EvAdd vm_uuid pm;
              EvMetaSet skey FS_INST_MAPPED]. trace_part.
    + intros _. split; intros m Hm; autorewrite with world;
        [now apply vfc_add_all | now apply vfc_readd].
    + intros H. rewrite Hst in H. discriminate.
    + frame_part.
    + state_part.
    + exists [EvRemove pm; EvMetaSet skey FS_UNMAPPED; EvAdd vm_uuid pm].
      trace_part.
    + discriminate.
    + intros H. rewrite Hst in H. discriminate.
    + frame_part.
    + state_part.
    + exists [EvRemove pm]. trace_part.
    + discriminate.
    + intros H. rewrite Hst in H. discriminate.
  - (* not parked: attach *)
    unfold bind, pvm_wwpn_add_npiv_port_mappings, _set_fabric_state, meta_set.
    fold skey.
    destruct (state_read_cases fabric w) as [[-> Hstored]|(-> & Hnone & Hun)];
      destruct (add_npiv_port_mappings_outcome _ vm_uuid pm) as [[]|e];
      intros [= <- <-]; five_parts.
    + frame_part.
    + state_part.
    + exists [EvAdd vm_uuid pm; EvMetaSet skey FS_INST_MAPPED]. trace_part.
    + intros _. split; intros m Hm; autorewrite with world;
        [now apply vfc_add_all | now apply vfc_add_incl].
    + intros H Hrows. autorewrite with world. split.
      * apply insert_id. fold skey in Hstored. now rewrite Hstored, H.
      * now apply vfc_add_present.
    + frame_part.
    + state_part.
    + exists [EvAdd vm_uuid pm]. trace_part.
    + discriminate.
    + intros _ _. now autorewrite with world.
    + frame_part.
    + state_part.
    + exists [EvMetaSet skey FS_UNMAPPED; EvAdd vm_uuid pm;
              EvMetaSet skey FS_INST_MAPPED]. trace_part.
    + intros _. split; intros m Hm; autorewrite with world;
        [now apply vfc_add_all | now apply vfc_add_incl].
    + intros H. rewrite Hun in H. discriminate.
    + frame_part.
    + state_part.
    + exists [EvMetaSet skey FS_UNMAPPED; EvAdd vm_uuid pm]. trace_part.
    + discriminate.
    + intros H. rewrite Hun in H. discriminate.
Qed.

End ConnectEffect.

Section ConnectLoop.

Context {VIOS : Type} {ML : ManagementLayer VIOS}.
Implicit Types (w : World VIOS) (fabric key vm_uuid : string).
Implicit Types (fabrics : list string).

Lemma vfc_add_row_nodup lpar_uuid (tbl : list vfc_row) m :
  NoDup tbl → NoDup (vfc_add_row lpar_uuid tbl m).
Proof.
  intros H. unfold vfc_add_row. case_bool_decide as Hin; [assumption |].
  apply NoDup_app. repeat split; [assumption | | apply NoDup_singleton].
  intros row Hrow Hrow'. apply list_elem_of_singleton in Hrow'. now subst.
Qed.

Lemma vfc_add_nodup lpar_uuid (pm : port_map) (tbl : list vfc_row) :
  NoDup tbl → NoDup (vfc_add lpar_uuid pm tbl).
Proof.
  unfold vfc_add. revert tbl.
  induction pm as [|m pm IH]; intros tbl H; simpl; [assumption |].
  apply IH. now apply vfc_add_row_nodup.
Qed.

Lemma vfc_remove_nodup (pm : port_map) (tbl : list vfc_row) :
  NoDup tbl → NoDup (vfc_remove pm tbl).
Proof. apply NoDup_filter. Qed.

(** No round of [connect_volume] puts a row in the table twice. *)
Lemma connect_fabric_nodup vm_uuid fabric w w' r :
  connect_fabric vm_uuid tt fabric w = (w', r) →
  NoDup (vfc_mappings w) → NoDup (vfc_mappings w').
Proof.
  rewrite connect_fabric_eq. unfold bind at 1.
  rewrite _remove_npiv_mgmt_mappings_eq.
  destruct (String.eqb (fabric_state_of (metadata w) fabric) FS_MGMT_MAPPED).
  - unfold bind, pvm_wwpn_remove_npiv_port_mappings,
      pvm_wwpn_add_npiv_port_mappings, _set_fabric_state, meta_set.
    destruct (remove_npiv_port_mappings_outcome _ _) as [[]|e];
      [destruct (add_npiv_port_mappings_outcome _ _ _) as [[]|e] |];
      intros [= <- <-] Hnd; autorewrite with world;
      auto using vfc_add_nodup, vfc_remove_nodup.
  - unfold bind, pvm_wwpn_add_npiv_port_mappings, _set_fabric_state, meta_set.
    destruct (add_npiv_port_mappings_outcome _ _ _) as [[]|e];
      intros [= <- <-] Hnd; autorewrite with world;
      rewrite ?state_read_vfc; auto using vfc_add_nodup.
Qed.

Lemma for_each_cons_ok {A S} (body : S → A → M VIOS S) x (l : list A) acc w w' acc' :
  for_each body (x :: l) acc w = (w', Ok acc') →
  ∃ w1 acc1, body acc x w = (w1, Ok acc1) ∧ for_each body l acc1 w1 = (w', Ok acc').
Proof.
  simpl. unfold bind. destruct (body acc x w) as [w1 [acc1|e]]; [eauto | discriminate].
Qed.

Lemma stored_port_map_frame fabric w w' :
  metadata w' !! _sys_meta_fabric_key fabric
  = metadata w !! _sys_meta_fabric_key fabric →
  stored_port_map (metadata w') fabric = stored_port_map (metadata w) fabric.
Proof. unfold stored_port_map. now intros ->. Qed.

(** A run of the loop of [connect_volume] that returns. *)
Lemma connect_loop_ok vm_uuid fabrics w w' u u' :
  for_each (connect_fabric vm_uuid) fabrics u w = (w', Ok u') →
  (∀ fabric, metadata w' !! _sys_meta_fabric_key fabric
             = metadata w !! _sys_meta_fabric_key fabric)
  ∧ (∀ fabric, fabric ∉ fabrics →
               metadata w' !! _sys_fabric_state_key fabric
               = metadata w !! _sys_fabric_state_key fabric)
  ∧ (∀ fabric, fabric ∈ fabrics →
               metadata w' !! _sys_fabric_state_key fabric = Some FS_INST_MAPPED)
  ∧ (∀ fabric m, fabric ∈ fabrics →
                 m ∈ default [] (stored_port_map (metadata w) fabric) →
                 (vm_uuid, m) ∈ vfc_mappings w')
  ∧ (∀ m, (vm_uuid, m) ∈ vfc_mappings w → (vm_uuid, m) ∈ vfc_mappings w').
Proof.
  revert w u. induction fabrics as [|f fabrics IH]; intros w u Hrun.
  - injection Hrun as <- <-. repeat split; auto.
    all: intros; match goal with H : _ ∈ [] |- _ => inversion H end.
  - apply for_each_cons_ok in Hrun as (w1 & u1 & Hbody & Hrest).
    destruct u, u1.
    apply connect_fabric_effect in Hbody as (Hframe & Hstate & _ & Hrows & _).
    destruct (Hrows eq_refl) as [Hnew Hkeep].
    apply IH in Hrest as (IHmeta & IHother & IHstate & IHrows & IHkeep).
    assert (Hmeta1 : ∀ fabric, metadata w1 !! _sys_meta_fabric_key fabric
                               = metadata w !! _sys_meta_fabric_key fabric).
    { intros fabric. apply Hframe. intros H. symmetry in H.
      now apply state_key_not_meta_key in H. }
    five_parts.
    + intros fabric. now rewrite IHmeta.
    + intros fabric Hnot. apply not_elem_of_cons in Hnot as [Hne Hnot].
      rewrite IHother by assumption. apply Hframe.
      intros H. now apply state_key_inj in H.
    + intros fabric Hin. destruct (decide (fabric ∈ fabrics)) as [Hin'|Hout].
      * now apply IHstate.
      * apply elem_of_cons in Hin as [->|Hin]; [| contradiction].
        rewrite IHother by assumption. now apply Hstate.
    + intros fabric m Hin Hm. apply elem_of_cons in Hin as [->|Hin].
      * apply IHkeep, Hnew, Hm.
      * apply (IHrows fabric m Hin).
        now rewrite (stored_port_map_frame fabric w w1).
    + intros m Hm. now apply IHkeep, Hkeep.
Qed.

(** A run of the loop over fabrics that are all attached already, with
    their rows in the table. *)
Lemma connect_loop_again vm_uuid fabrics w w' u r :
  (∀ fabric, fabric ∈ fabrics →
             fabric_state_of (metadata w) fabric = FS_INST_MAPPED) →
  (∀ fabric m, fabric ∈ fabrics →
               m ∈ default [] (stored_port_map (metadata w) fabric) →
               (vm_uuid, m) ∈ vfc_mappings w) →
  for_each (connect_fabric vm_uuid) fabrics u w = (w', r) →
  metadata w' = metadata w
  ∧ vfc_mappings w' = vfc_mappings w
  ∧ ∃ evs, trace w' = trace w ++ evs ∧ List.filter is_remove evs = [].
Proof.
  revert w u. induction fabrics as [|f fabrics IH]; intros w u Hst Hrows Hrun.
  - injection Hrun as <- <-. repeat split. exists []. now rewrite app_nil_r.
  - simpl in Hrun. unfold bind in Hrun. destruct u.
    destruct (connect_fabric vm_uuid tt f w) as [w1 r1] eqn:Hbody.
    apply connect_fabric_effect in Hbody as (_ & _ & Htrace & _ & Hagain).
    destruct Hagain as [Hmd Hvfc].
    { apply Hst. now left. }
    { intros m. apply Hrows. now left. }
    destruct Htrace as (evs1 & Htr1 & _ & Hcalls).
    destruct Hcalls as [Hrm _].
    { rewrite Hst by now left. discriminate. }
    destruct r1 as [u1|e].
    + apply IH in Hrun as (IHmd & IHvfc & evs2 & Htr2 & Hrm2).
      * repeat split; [congruence | congruence |].
        exists (evs1 ++ evs2). rewrite Htr2, Htr1, <- app_assoc.
        split; [reflexivity |]. now rewrite List.filter_app, Hrm, Hrm2.
      * intros fabric Hin. rewrite Hmd. apply Hst. now right.
      * intros fabric m Hin. rewrite Hmd, Hvfc. apply Hrows. now right.
    + injection Hrun as <- <-. repeat split; [assumption | assumption |].
      now exists evs1.
Qed.

End ConnectLoop.

Section ConnectClaims.

Context {VIOS : Type} {ML : ManagementLayer VIOS}.
Variable conf : Config.
Implicit Types (w : World VIOS) (fabric key vm_uuid : string).

(** C10. [connect_volume] ends every round of its loop by storing
    [inst_mapped], whatever the fabric's state was: after a call that
    returns, every configured fabric is [inst_mapped].  A round never
    stores [mgmt_mapped]; on a fabric that is [unmapped] its only call is
    the add-mapping call for the VM, made with whatever [_get_fabric_meta]
    returned, [None] included (nothing checks that a port map was stored). *)
Theorem connect_volume_marks_inst_mapped vm_uuid :
  (∀ w w', connect_volume conf vm_uuid w = (w', Ok tt) →
     ∀ fabric, fabric ∈ _fabric_names conf →
       metadata w' !! _sys_fabric_state_key fabric = Some FS_INST_MAPPED)
  ∧ (∀ fabric w w', connect_fabric vm_uuid tt fabric w = (w', Ok tt) →
       metadata w' !! _sys_fabric_state_key fabric = Some FS_INST_MAPPED
       ∧ ∃ evs, trace w' = trace w ++ evs
           ∧ (FS_MGMT_MAPPED ∉ writes_to (_sys_fabric_state_key fabric) evs)
           ∧ (fabric_state_of (metadata w) fabric = FS_UNMAPPED →
              calls evs
              = [EvAdd vm_uuid (stored_port_map (metadata w) fabric)])).
Proof.
  split.
  - intros w w' Hrun fabric Hin. unfold connect_volume in Hrun.
    apply connect_loop_ok in Hrun as (_ & _ & Hstate & _). now apply Hstate.
  - intros fabric w w' Hrun.
    apply connect_fabric_effect in Hrun as (_ & Hstate & Htrace & _).
    split; [now apply Hstate |].
    destruct Htrace as (evs & Htr & Hwrites & Hcalls).
    exists evs. repeat split; try assumption.
    intros Hun. apply Hcalls. rewrite Hun. discriminate.
Qed.

(** C5. On a fabric whose stored state is [inst_mapped], a round of
    [connect_volume] makes no removal call: its one call is the add-mapping
    call for the VM, and the mapping table, which takes no row twice, gets
    no duplicate.  A second [connect_volume] right after one that returned
    leaves the metadata (fabric states and port maps) and the VM's rows in
    the mapping table as they were, and makes no removal call. *)
Theorem connect_volume_inst_mapped_again vm_uuid :
  (∀ fabric w w' r,
     fabric_state_of (metadata w) fabric = FS_INST_MAPPED →
     connect_fabric vm_uuid tt fabric w = (w', r) →
     (∃ evs, trace w' = trace w ++ evs
        ∧ List.filter is_remove evs = []
        ∧ calls evs = [EvAdd vm_uuid (stored_port_map (metadata w) fabric)])
     ∧ (NoDup (vfc_mappings w) → NoDup (vfc_mappings w')))
  ∧ (∀ w w1 w2 r,
       connect_volume conf vm_uuid w = (w1, Ok tt) →
       connect_volume conf vm_uuid w1 = (w2, r) →
       metadata w2 = metadata w1
       ∧ vfc_mappings w2 = vfc_mappings w1
       ∧ ∃ evs, trace w2 = trace w1 ++ evs ∧ List.filter is_remove evs = []).
Proof.
  split.
  - intros fabric w w' r Hst Hrun. split.
    + apply connect_fabric_effect in Hrun as (_ & _ & Htrace & _).
      destruct Htrace as (evs & Htr & _ & Hcalls).
      destruct Hcalls as [Hrm Hadd]; [rewrite Hst; discriminate |].
      now exists evs.
    + now apply (connect_fabric_nodup vm_uuid fabric w w' r).
  - intros w w1 w2 r Hfirst Hsecond. unfold connect_volume in *.
    apply connect_loop_ok in Hfirst as (Hmeta & _ & Hstate & Hrows & _).
    apply connect_loop_again in Hsecond; [assumption | |].
    + intros fabric Hin. unfold fabric_state_of. now rewrite Hstate.
    + intros fabric m Hin.
      rewrite (stored_port_map_frame fabric w w1) by apply Hmeta.
      now apply Hrows.
Qed.

End ConnectClaims.

(** ** Discovery: the fast path *)

Section FastPath.

Context {VIOS : Type} {ML : ManagementLayer VIOS}.
Variable conf : Config.
Implicit Types (w : World VIOS) (fabric key : string).
Implicit Types (fabrics keys : list string).

Lemma wwpns_scan_all fabrics keys w :
  Forall (λ fabric, is_Some (metadata w !! _sys_meta_fabric_key fabric)) fabrics →
  wwpns_scan fabrics keys w
  = (w, Ok (false, keys ++ flat_map (fabric_keys (metadata w)) fabrics)).
Proof.
  intros Hall. revert keys.
  induction Hall as [|fabric fabrics [s Hs] _ IH]; intros keys; simpl.
  - unfold ret. now rewrite app_nil_r.
  - unfold bind. rewrite _get_fabric_meta_eq.
    assert (Hpm : stored_port_map (metadata w) fabric = Some (decode_port_map s))
      by (unfold stored_port_map; now rewrite Hs).
    fold (stored_port_map (metadata w) fabric). rewrite Hpm, IH.
    cbn [flat_map]. unfold fabric_keys at 2. rewrite Hpm.
    cbn [default]. now rewrite <- app_assoc.
Qed.

Lemma wwpns_scan_missing fabrics keys w :
  Exists (λ fabric, metadata w !! _sys_meta_fabric_key fabric = None) fabrics →
  ∃ keys', wwpns_scan fabrics keys w = (w, Ok (true, keys')).
Proof.
  intros Hex. revert keys.
  induction fabrics as [|fabric fabrics IH]; intros keys; [inversion Hex |].
  simpl. unfold bind. rewrite _get_fabric_meta_eq.
  destruct (metadata w !! _sys_meta_fabric_key fabric) eqn:E; simpl.
  - apply IH. inversion Hex; subst; [congruence | assumption].
  - now exists keys.
Qed.

Lemma chunk3_Forall {A} (P : A → Prop) (l : list A) :
  Forall P l → Forall (λ '(a, b, c), P a ∧ P b ∧ P c) (chunk3 l).
Proof.
  remember (length l) as n eqn:Hn.
  revert l Hn. induction n as [n IH] using lt_wf_ind. intros l Hn Hl.
  destruct l as [|a [|b [|c rest]]]; simpl; try constructor.
  - inversion Hl as [|? ? Ha Hl1]; inversion Hl1 as [|? ? Hb Hl2];
      inversion Hl2 as [|? ? Hc Hl3]; subst. auto.
  - apply (IH (length rest)); [simpl in Hn; lia | reflexivity |].
    inversion Hl as [|? ? _ Hl1]; inversion Hl1 as [|? ? _ Hl2];
      now inversion Hl2.
Qed.

(** Two virtual WWPNs per stored triple, when no stored token has a space. *)
Lemma fabric_keys_triples md fabric :
  is_Some (md !! _sys_meta_fabric_key fabric) →
  Forall (λ tok, PyStr.contains " " tok = false) (stored_tokens md fabric) →
  fabric_keys md fabric
  = flat_map (λ '(_, v1, v2), [v1; v2]) (chunk3 (stored_tokens md fabric)).
Proof.
  intros [s Hs] Htok. unfold fabric_keys, stored_port_map, stored_tokens in *.
  rewrite Hs in *. simpl in Htok |- *.
  rewrite decode_port_map_chunks.
  apply chunk3_Forall in Htok.
  generalize dependent (chunk3 (PyStr.split "," s)). intros triples Htok.
  induction Htok as [|[[p v1] v2] triples (_ & Hv1 & Hv2) _ IH]; [reflexivity |].
  cbn [map flat_map snd]. rewrite IH.
  now rewrite split_space_pair by assumption.
Qed.

Lemma fabric_keys_all_triples md fabrics :
  Forall (λ fabric, is_Some (md !! _sys_meta_fabric_key fabric)) fabrics →
  Forall (λ fabric, Forall (λ tok, PyStr.contains " " tok = false)
                           (stored_tokens md fabric)) fabrics →
  flat_map (fabric_keys md) fabrics
  = flat_map (λ fabric, flat_map (λ '(_, v1, v2), [v1; v2])
                          (chunk3 (stored_tokens md fabric))) fabrics.
Proof.
  induction fabrics as [|fabric fabrics IH]; intros Hall Htok; [reflexivity |].
  inversion Hall; inversion Htok; subst.
  cbn [flat_map]. rewrite IH by assumption.
  now rewrite fabric_keys_triples.
Qed.

(** C2. When every configured fabric has a stored port map, [wwpns]
    returns the virtual WWPNs it reads out of them, fabric after fabric and
    mapping after mapping, and leaves the world as it was: no call is made
    (so no port is built) and no metadata written.  A second call right
    after returns the same list, again without any effect.  With stored
    tokens free of spaces the list is the two virtual WWPNs of every stored
    triple. *)
Theorem wwpns_fast_path w :
  Forall (λ fabric, is_Some (metadata w !! _sys_meta_fabric_key fabric))
         (_fabric_names conf) →
  let keys := flat_map (fabric_keys (metadata w)) (_fabric_names conf) in
  wwpns conf w = (w, Ok keys)
  ∧ (do_ wwpns conf; wwpns conf) w = (w, Ok keys)
  ∧ (Forall (λ fabric, Forall (λ tok, PyStr.contains " " tok = false)
                              (stored_tokens (metadata w) fabric))
            (_fabric_names conf) →
     keys = flat_map (λ fabric, flat_map (λ '(_, v1, v2), [v1; v2])
                                  (chunk3 (stored_tokens (metadata w) fabric)))
                     (_fabric_names conf)).
Proof.
  intros Hall keys.
  assert (Hrun : wwpns conf w = (w, Ok keys)).
  { unfold wwpns, bind. now rewrite (wwpns_scan_all _ [] w Hall). }
  split; [exact Hrun |]. split.
  - unfold bind. now rewrite Hrun.
  - intros Htok. subst keys. now apply fabric_keys_all_triples.
Qed.

End FastPath.

(** ** Discovery: the rebuild *)

Section Rebuild.

Context {VIOS : Type} {ML : ManagementLayer VIOS}.
Variable conf : Config.
Implicit Types (w : World VIOS) (fabric key : string).
Implicit Types (fabrics keys resp : list string) (vios : list VIOS).

Lemma pool_from_S (h : list (event VIOS)) n :
  pool_from h (S n)
  = match build_wwpn_pair h with
    | Ok wwpn_pair => [wwpn_pair.1; wwpn_pair.2]
    | Raise _ => []
    end ++ pool_from (h ++ [EvBuildPair]) n.
Proof.
  unfold pool_from. rewrite <- cons_seq. cbn [flat_map replicate].
  rewrite app_nil_r. f_equal.
  rewrite <- seq_shift, flat_map_concat_map, map_map, <- flat_map_concat_map.
  apply flat_map_ext. intros k. cbn [replicate].
  now rewrite <- app_assoc.
Qed.

Lemma build_loop_ok n acc w w' pool :
  repeat_n (λ wwpns,
              do wwpn_pair <- pvm_wwpn_build_wwpn_pair;
              ret (wwpns ++ [wwpn_pair.1; wwpn_pair.2])) n acc w
  = (w', Ok pool) →
  trace w' = trace w ++ replicate n EvBuildPair
  ∧ metadata w' = metadata w
  ∧ pool = acc ++ pool_from (trace w) n
  ∧ length (pool_from (trace w) n) = (2 * n)%nat.
Proof.
  revert acc w. induction n as [|n IH]; intros acc w.
  - intros [= <- <-]. now rewrite !app_nil_r.
  - simpl repeat_n. unfold bind at 1 2, pvm_wwpn_build_wwpn_pair, call, ret.
    rewrite pool_from_S.
    destruct (build_wwpn_pair (trace w)) as [[a b]|e]; [| discriminate].
    intros Hrun. apply IH in Hrun as (Htr & Hmd & Hpool & Hlen).
    rewrite trace_log in *. rewrite metadata_log in Hmd.
    repeat split.
    + rewrite Htr, <- app_assoc. reflexivity.
    + assumption.
    + rewrite Hpool, <- app_assoc. reflexivity.
    + rewrite length_app, Hlen. simpl. lia.
Qed.

Lemma _build_wwpns_for_fabric_ok w w' pool :
  _build_wwpns_for_fabric conf w = (w', Ok pool) →
  let n := Z.to_nat (_ports_per_fabric conf) in
  trace w' = trace w ++ replicate n EvBuildPair
  ∧ metadata w' = metadata w
  ∧ pool = pool_from (trace w) n
  ∧ length pool = (2 * n)%nat.
Proof.
  intros Hrun n. apply build_loop_ok in Hrun as (Htr & Hmd & Hpool & Hlen).
  simpl in Hpool. subst pool. auto.
Qed.

Lemma meta_key_not_state_key fabric fabric' :
  _sys_meta_fabric_key fabric ≠ _sys_fabric_state_key fabric'.
Proof. apply not_eq_sym, state_key_not_meta_key. Qed.

Lemma parked_idem state : parked (parked state) = parked state.
Proof.
  unfold parked. destruct (String.eqb_spec state FS_UNMAPPED); [reflexivity |].
  now destruct (String.eqb_spec state FS_UNMAPPED).
Qed.

(** What parking does to the world, when it returns. *)
Lemma _add_npiv_mgmt_mappings_effect fabric (pm : port_map) w w' :
  _add_npiv_mgmt_mappings fabric pm w = (w', Ok tt) →
  (∀ key, key ≠ _sys_fabric_state_key fabric →
          metadata w' !! key = metadata w !! key)
  ∧ fabric_state_of (metadata w') fabric
    = parked (fabric_state_of (metadata w) fabric)
  ∧ ∃ evs, trace w' = trace w ++ evs
      ∧ List.filter is_build evs = [] ∧ derive_orders evs = [].
Proof.
  rewrite _add_npiv_mgmt_mappings_eq. unfold parked.
  destruct (String.eqb (fabric_state_of (metadata w) fabric) FS_UNMAPPED).
  - unfold bind, mgmt_get_mgmt_partition, call,
      pvm_wwpn_add_npiv_port_mappings, _set_fabric_state, meta_set.
    destruct (get_mgmt_partition _) as [uuid|e]; [| discriminate].
    destruct (add_npiv_port_mappings_outcome _ uuid (Some pm)) as [[]|e];
      [| discriminate].
    intros [= <-]. split; [| split].
    + intros key Hk. autorewrite with world.
      rewrite lookup_insert_ne by congruence. now apply state_read_other.
    + apply fabric_state_put.
    + destruct (state_read_cases fabric w) as [[-> _]|(-> & _)].
      * exists [EvGetMgmt; EvAdd uuid (Some pm);
                EvMetaSet (_sys_fabric_state_key fabric) FS_MGMT_MAPPED].
        split; [autorewrite with world; now rewrite <- !app_assoc | auto].
      * exists [EvMetaSet (_sys_fabric_state_key fabric) FS_UNMAPPED;
                EvGetMgmt; EvAdd uuid (Some pm);
                EvMetaSet (_sys_fabric_state_key fabric) FS_MGMT_MAPPED].
        split; [autorewrite with world; now rewrite <- !app_assoc | auto].
  - intros [= <-]. repeat split. exists []. now rewrite app_nil_r.
Qed.

Lemma assoc_fabric_names fabric :
  fabric ∈ _fabric_names conf → is_Some (assoc fabric (NPIV_FABRIC_WWPNS conf)).
Proof.
  unfold _fabric_names. induction (NPIV_FABRIC_WWPNS conf) as [|[k v] l IH].
  - inversion 1.
  - cbn [fmap list_fmap fst]. intros Hin. cbn [assoc].
    destruct (String.eqb_spec k fabric) as [->|Hne]; [eauto |].
    apply elem_of_cons in Hin as [->|Hin]; [congruence | now apply IH].
Qed.

(** One round of the second loop of [wwpns], when it returns. *)
Lemma rebuild_fabric_ok vios resp fabric w w' vios' resp' :
  rebuild_fabric conf (vios, resp) fabric w = (w', Ok (vios', resp')) →
  let n := Z.to_nat (_ports_per_fabric conf) in
  let pool := pool_from (trace w) n in
  ∃ ports pm evs,
    assoc fabric (NPIV_FABRIC_WWPNS conf) = Some ports
    ∧ derive_npiv_map (trace w ++ replicate n EvBuildPair) vios ports pool = Ok pm
    ∧ trace w'
      = trace w
        ++ (replicate n EvBuildPair
            ++ [EvDerive vios ports pool;
                EvMetaSet (_sys_meta_fabric_key fabric) (encode_port_map pm)])
        ++ evs
    ∧ List.filter is_build evs = [] ∧ derive_orders evs = []
    ∧ length pool = (2 * n)%nat
    ∧ vios' = rev vios ∧ resp' = resp ++ pool
    ∧ metadata w' !! _sys_meta_fabric_key fabric = Some (encode_port_map pm)
    ∧ (∀ key, key ≠ _sys_meta_fabric_key fabric →
              key ≠ _sys_fabric_state_key fabric →
              metadata w' !! key = metadata w !! key)
    ∧ fabric_state_of (metadata w') fabric
      = parked (fabric_state_of (metadata w) fabric).
Proof.
  intros Hrun n pool. unfold rebuild_fabric, bind at 1 in Hrun.
  destruct (_build_wwpns_for_fabric conf w) as [w1 [pool'|e]] eqn:Hbuild;
    [| discriminate].
  apply _build_wwpns_for_fabric_ok in Hbuild as (Htr1 & Hmd1 & -> & Hlen).
  fold n in Htr1, Hlen, Hrun. fold pool in Hlen, Hrun.
  unfold bind at 1, _fabric_ports in Hrun.
  destruct (assoc fabric (NPIV_FABRIC_WWPNS conf)) as [ports|];
    [| discriminate].
  unfold ret at 1, bind at 1, pvm_wwpn_derive_npiv_map, call in Hrun.
  rewrite Htr1 in Hrun.
  destruct (derive_npiv_map _ vios ports pool) as [pm|e] eqn:Hderive;
    [| discriminate].
  unfold bind at 1 in Hrun. rewrite _set_fabric_meta_eq in Hrun.
  unfold bind at 1 in Hrun.
  destruct (_add_npiv_mgmt_mappings fabric pm _) as [w3 [[]|e]] eqn:Hpark;
    [| discriminate].
  injection Hrun as <- <- <-.
  apply _add_npiv_mgmt_mappings_effect in Hpark
    as (Hframe & Hstate & evs & Htr3 & Hnb & Hnd).
  autorewrite with world in *.
  exists ports, pm, evs. repeat split; try assumption; try reflexivity.
  - rewrite Htr3, Htr1. now rewrite <- !app_assoc.
  - rewrite Hframe by apply meta_key_not_state_key.
    apply lookup_insert_eq.
  - intros key Hm Hs. rewrite Hframe by assumption.
    rewrite lookup_insert_ne by congruence. now rewrite Hmd1.
  - rewrite Hstate. f_equal. unfold fabric_state_of.
    rewrite lookup_insert_ne by apply meta_key_not_state_key.
    now rewrite Hmd1.
Qed.

End Rebuild.

Section RebuildLoop.

Context {VIOS : Type} {ML : ManagementLayer VIOS}.
Variable conf : Config.
Implicit Types (w : World VIOS) (fabric key : string).
Implicit Types (fabrics keys resp : list string) (vios : list VIOS).

Local Abbreviation n := (Z.to_nat (_ports_per_fabric conf)).

Lemma filter_is_build_replicate k :
  List.filter is_build (replicate k (EvBuildPair (VIOS := VIOS)))
  = replicate k EvBuildPair.
Proof. induction k as [|k IH]; simpl; [reflexivity | now rewrite IH]. Qed.

Lemma derive_orders_replicate k :
  derive_orders (replicate k (EvBuildPair (VIOS := VIOS))) = [].
Proof. induction k as [|k IH]; simpl; [reflexivity | exact IH]. Qed.

Lemma derive_orders_app (evs evs' : list (event VIOS)) :
  derive_orders (evs ++ evs') = derive_orders evs ++ derive_orders evs'.
Proof. unfold derive_orders. now rewrite flat_map_app. Qed.

(** The calls of a run of the second loop of [wwpns] that returns: a pool
    built per fabric, and the derive calls on alternating orders. *)
Lemma rebuild_loop_trace fabrics vios resp w w' vios' resp' :
  for_each (rebuild_fabric conf) fabrics (vios, resp) w
  = (w', Ok (vios', resp')) →
  ∃ evs, trace w' = trace w ++ evs
    ∧ length (List.filter is_build evs) = (n * length fabrics)%nat
    ∧ derive_orders evs = alternating vios (length fabrics)
    ∧ length resp' = (length resp + 2 * n * length fabrics)%nat.
Proof.
  revert vios resp w.
  induction fabrics as [|f fabrics IH]; intros vios resp w Hrun.
  - injection Hrun as <- <- <-. exists []. rewrite app_nil_r. simpl.
    repeat split; lia.
  - apply for_each_cons_ok in Hrun as (w1 & [vios1 resp1] & Hround & Hrest).
    apply rebuild_fabric_ok in Hround
      as (ports & pm & evs1 & _ & _ & Htr1 & Hnb & Hnd & Hlen & -> & -> & _).
    apply IH in Hrest as (evs2 & Htr2 & Hb2 & Hd2 & Hr2).
    rewrite Htr1, <- !app_assoc in Htr2.
    eexists. split; [exact Htr2 |].
    repeat split.
    + rewrite !List.filter_app, filter_is_build_replicate, Hnb.
      cbn [List.filter is_build app]. rewrite !length_app, length_replicate, Hb2.
      simpl. lia.
    + rewrite !derive_orders_app, derive_orders_replicate, Hnd, Hd2.
      reflexivity.
    + rewrite Hr2, length_app, Hlen. simpl. lia.
Qed.

(** The same run, fabric by fabric: its pool is built, a mapping derived
    on that pool and stored under the fabric's key, where it still is at
    the end. *)
Lemma rebuild_loop_rounds fabrics vios resp w w' vios' resp' :
  NoDup fabrics →
  for_each (rebuild_fabric conf) fabrics (vios, resp) w
  = (w', Ok (vios', resp')) →
  (∀ fabric, fabric ∉ fabrics →
     metadata w' !! _sys_meta_fabric_key fabric
     = metadata w !! _sys_meta_fabric_key fabric)
  ∧ (∀ fabric, fabric ∈ fabrics →
       ∃ pre post vios_wraps ports pm,
         trace w'
         = trace w ++ pre
           ++ (replicate n EvBuildPair
               ++ [EvDerive vios_wraps ports (pool_from (trace w ++ pre) n);
                   EvMetaSet (_sys_meta_fabric_key fabric) (encode_port_map pm)])
           ++ post
         ∧ assoc fabric (NPIV_FABRIC_WWPNS conf) = Some ports
         ∧ derive_npiv_map (trace w ++ pre ++ replicate n EvBuildPair)
             vios_wraps ports (pool_from (trace w ++ pre) n) = Ok pm
         ∧ metadata w' !! _sys_meta_fabric_key fabric
           = Some (encode_port_map pm)).
Proof.
  intros Hnd. revert vios resp w.
  induction Hnd as [|f fabrics Hf Hnd IH]; intros vios resp w Hrun.
  - injection Hrun as <- <- <-. split; [reflexivity |].
    intros fabric Hin. inversion Hin.
  - apply for_each_cons_ok in Hrun as (w1 & [vios1 resp1] & Hround & Hrest).
    apply rebuild_fabric_ok in Hround
      as (ports & pm & evs1 & Hports & Hderive & Htr1 & _ & _ & _ & _ & _
          & Hstored & Hframe & _).
    pose proof (rebuild_loop_trace _ _ _ _ _ _ _ Hrest) as (evs2 & Htr2 & _).
    apply IH in Hrest as [IHframe IHrounds].
    split.
    + intros fabric Hnot. apply not_elem_of_cons in Hnot as [Hne Hnot].
      rewrite IHframe by assumption. apply Hframe.
      * intros H. now apply meta_key_inj in H.
      * apply meta_key_not_state_key.
    + intros fabric Hin. apply elem_of_cons in Hin as [->|Hin].
      * exists [], (evs1 ++ evs2), vios, ports, pm.
        rewrite !app_nil_r. simpl app at 1.
        repeat split; try assumption.
        -- rewrite Htr2, Htr1. now rewrite <- !app_assoc.
        -- now rewrite IHframe.
      * destruct (IHrounds fabric Hin)
          as (pre & post & vios_k & ports_k & pm_k & Htr & Hp & Hd & Hs).
        rewrite Htr1 in Htr, Hd.
        repeat rewrite <- app_assoc in Htr. repeat rewrite <- app_assoc in Hd.
        exists ((replicate n EvBuildPair
                 ++ [EvDerive vios ports (pool_from (trace w) n);
                     EvMetaSet (_sys_meta_fabric_key f) (encode_port_map pm)])
                ++ evs1 ++ pre), post, vios_k, ports_k, pm_k.
        repeat rewrite <- app_assoc.
        repeat split; assumption.
Qed.

(** The same run, on the metadata: what is stored for each fabric. *)
Lemma rebuild_loop_metadata fabrics vios resp w w' vios' resp' :
  for_each (rebuild_fabric conf) fabrics (vios, resp) w
  = (w', Ok (vios', resp')) →
  ∀ fabric,
    (fabric ∈ fabrics →
     is_Some (metadata w' !! _sys_meta_fabric_key fabric)
     ∧ fabric_state_of (metadata w') fabric
       = parked (fabric_state_of (metadata w) fabric))
    ∧ (fabric ∉ fabrics →
       metadata w' !! _sys_meta_fabric_key fabric
       = metadata w !! _sys_meta_fabric_key fabric
       ∧ metadata w' !! _sys_fabric_state_key fabric
         = metadata w !! _sys_fabric_state_key fabric).
Proof.
  revert vios resp w.
  induction fabrics as [|f fabrics IH]; intros vios resp w Hrun fabric.
  - injection Hrun as <- <- <-. split; [inversion 1 | auto].
  - apply for_each_cons_ok in Hrun as (w1 & [vios1 resp1] & Hround & Hrest).
    apply rebuild_fabric_ok in Hround
      as (ports & pm & evs1 & _ & _ & _ & _ & _ & _ & _ & _
          & Hstored & Hframe & Hstate).
    destruct (IH _ _ _ Hrest fabric) as [IHin IHout].
    assert (Hother : fabric ≠ f →
              metadata w1 !! _sys_meta_fabric_key fabric
              = metadata w !! _sys_meta_fabric_key fabric
              ∧ metadata w1 !! _sys_fabric_state_key fabric
                = metadata w !! _sys_fabric_state_key fabric).
    { intros Hne. split; apply Hframe.
      - intros H. now apply meta_key_inj in H.
      - apply meta_key_not_state_key.
      - apply state_key_not_meta_key.
      - intros H. now apply state_key_inj in H. }
    split.
    + intros Hin. destruct (decide (fabric ∈ fabrics)) as [Hin'|Hout].
      * destruct (IHin Hin') as [Hsome Hst]. split; [assumption |].
        rewrite Hst. destruct (decide (fabric = f)) as [->|Hne].
        -- rewrite Hstate. apply parked_idem.
        -- unfold fabric_state_of. now rewrite (proj2 (Hother Hne)).
      * apply elem_of_cons in Hin as [->|Hin]; [| contradiction].
        destruct (IHout Hout) as [Hm Hs]. split.
        -- rewrite Hm, Hstored. eauto.
        -- unfold fabric_state_of at 1. rewrite Hs. exact Hstate.
    + intros Hnot. apply not_elem_of_cons in Hnot as [Hne Hnot].
      destruct (IHout Hnot) as [Hm Hs]. destruct (Hother Hne) as [Hm1 Hs1].
      split; congruence.
Qed.

Lemma wwpns_rebuild_taken w :
  Exists (λ fabric, metadata w !! _sys_meta_fabric_key fabric = None)
         (_fabric_names conf) →
  wwpns conf w = wwpns_rebuild conf w.
Proof.
  intros Hex. unfold wwpns, bind at 1.
  now destruct (wwpns_scan_missing _ [] w Hex) as [keys ->].
Qed.

Lemma wwpns_rebuild_ok w w' keys :
  wwpns_rebuild conf w = (w', Ok keys) →
  ∃ vios0 vios',
    read_vios (trace w) = Ok vios0
    ∧ for_each (rebuild_fabric conf) (_fabric_names conf) (vios0, [])
        (log EvReadVIOS w)
      = (w', Ok (vios', keys)).
Proof.
  unfold wwpns_rebuild, bind at 1, adapter_read_vios, call.
  destruct (read_vios (trace w)) as [vios0|e]; [| discriminate].
  unfold bind.
  destruct (for_each _ _ _ _) as [w1 [[vios' resp']|e]] eqn:Hloop;
    [| discriminate].
  intros [= <- <-]. now exists vios0, vios'.
Qed.

End RebuildLoop.

Section RebuildClaims.

Context {VIOS : Type} {ML : ManagementLayer VIOS}.
Variable conf : Config.
Implicit Types (w : World VIOS) (fabric key : string).

Lemma alternating_parity {A} (v : list A) k :
  alternating v k = map (λ i, if Nat.odd i then v else rev v) (seq 1 k).
Proof.
  revert v. induction k as [|k IH]; intros v; [reflexivity |].
  cbn [alternating]. rewrite IH. rewrite <- cons_seq. cbn [map Nat.odd Nat.even].
  f_equal. rewrite <- (seq_shift k 1), map_map.
  apply map_ext. intros i. rewrite Nat.odd_succ, <- Nat.negb_odd, rev_involutive.
  now destruct (Nat.odd i).
Qed.

(** C1. When some configured fabric has no stored port map and [wwpns]
    returns, it has rebuilt every configured fabric.  One pool of
    [ports_per_fabric] pairs was built per fabric, and for each fabric,
    whether it had a stored port map or not, the effects of the call hold
    a run of [ports_per_fabric] build calls, a derive call on the pool
    those calls returned, and the assignment of the derived map to the
    fabric's key, which is what is stored for it at the end. *)
Theorem wwpns_rebuilds_every_fabric w w' keys :
  NoDup (_fabric_names conf) →
  Exists (λ fabric, metadata w !! _sys_meta_fabric_key fabric = None)
         (_fabric_names conf) →
  wwpns conf w = (w', Ok keys) →
  let n := Z.to_nat (_ports_per_fabric conf) in
  ∃ evs, trace w' = trace w ++ evs
    ∧ length (List.filter is_build evs) = (n * length (_fabric_names conf))%nat
    ∧ length keys = (2 * n * length (_fabric_names conf))%nat
    ∧ ∀ fabric, fabric ∈ _fabric_names conf →
        ∃ pre post vios_wraps ports pm,
          evs = pre
                ++ (replicate n EvBuildPair
                    ++ [EvDerive vios_wraps ports (pool_from (trace w ++ pre) n);
                        EvMetaSet (_sys_meta_fabric_key fabric)
                                  (encode_port_map pm)])
                ++ post
          ∧ assoc fabric (NPIV_FABRIC_WWPNS conf) = Some ports
          ∧ derive_npiv_map (trace w ++ pre ++ replicate n EvBuildPair)
              vios_wraps ports (pool_from (trace w ++ pre) n) = Ok pm
          ∧ metadata w' !! _sys_meta_fabric_key fabric
            = Some (encode_port_map pm).
Proof.
  intros Hnd Hex Hrun n. rewrite wwpns_rebuild_taken in Hrun by assumption.
  apply wwpns_rebuild_ok in Hrun as (vios0 & vios' & _ & Hloop).
  pose proof (rebuild_loop_trace _ _ _ _ _ _ _ _ Hloop)
    as (evs & Htr & Hbuilds & _ & Hkeys).
  pose proof (rebuild_loop_rounds _ _ _ _ _ _ _ _ Hnd Hloop) as [_ Hrounds].
  rewrite trace_log in Htr. rewrite <- app_assoc in Htr.
  exists ([EvReadVIOS] ++ evs). split; [exact Htr |].
  split; [exact Hbuilds |]. split; [exact Hkeys |].
  intros fabric Hin.
  destruct (Hrounds fabric Hin) as (pre & post & vios_k & ports & pm & Hseg & Hp & Hd & Hs).
  rewrite trace_log in Hseg, Hd. rewrite Htr in Hseg.
  repeat rewrite <- app_assoc in Hseg. repeat rewrite <- app_assoc in Hd.
  apply app_inv_head in Hseg.
  exists ([EvReadVIOS] ++ pre), post, vios_k, ports, pm.
  repeat rewrite <- app_assoc.
  repeat split; assumption.
Qed.

(** C7. On the rebuild path the order of the virtual I/O servers is
    reversed after every fabric: when [wwpns] returns, the derive call of
    the k-th configured fabric was given the order [read_vios] returned if
    k is odd, and that order reversed if k is even. *)
Theorem wwpns_alternates_vios w w' keys :
  Exists (λ fabric, metadata w !! _sys_meta_fabric_key fabric = None)
         (_fabric_names conf) →
  wwpns conf w = (w', Ok keys) →
  ∃ vios_wraps evs,
    read_vios (trace w) = Ok vios_wraps
    ∧ trace w' = trace w ++ evs
    ∧ derive_orders evs
      = map (λ k, if Nat.odd k then vios_wraps else rev vios_wraps)
            (seq 1 (length (_fabric_names conf))).
Proof.
  intros Hex Hrun. rewrite wwpns_rebuild_taken in Hrun by assumption.
  apply wwpns_rebuild_ok in Hrun as (vios0 & vios' & Hread & Hloop).
  apply rebuild_loop_trace in Hloop as (evs & Htr & _ & Horders & _).
  rewrite trace_log, <- app_assoc in Htr.
  exists vios0, ([EvReadVIOS] ++ evs). repeat split; try assumption.
  rewrite derive_orders_app, Horders. apply alternating_parity.
Qed.

End RebuildClaims.

(** ** The invariant of the data model *)

Section Invariant.

Context {VIOS : Type} {ML : ManagementLayer VIOS}.
Variable conf : Config.
Implicit Types (w : World VIOS) (fabric key vm_uuid : string).

Lemma stored_or_missing (md : gmap string string) (fabrics : list string) :
  Forall (λ fabric, is_Some (md !! _sys_meta_fabric_key fabric)) fabrics
  ∨ Exists (λ fabric, md !! _sys_meta_fabric_key fabric = None) fabrics.
Proof.
  induction fabrics as [|f fabrics [IH|IH]]; [left; constructor | |].
  - destruct (md !! _sys_meta_fabric_key f) eqn:E.
    + left. constructor; [rewrite E; eauto | assumption].
    + right. now constructor.
  - right. now constructor.
Qed.

Lemma wwpns_fast_path_unchanged w :
  Forall (λ fabric, is_Some (metadata w !! _sys_meta_fabric_key fabric))
         (_fabric_names conf) →
  ∃ keys, wwpns conf w = (w, Ok keys).
Proof.
  intros Hall. eexists. unfold wwpns, bind.
  now rewrite (wwpns_scan_all _ [] w Hall).
Qed.

Lemma disconnect_volume_metadata w w' r :
  disconnect_volume conf w = (w', r) → metadata w' = metadata w.
Proof.
  intros Hrun.
  destruct (py_in (task_state (instance w)) TASK_STATES_FOR_DISCONNECT) eqn:Hts.
  - destruct (stored_or_missing (metadata w) (_fabric_names conf)) as [Hall|Hex].
    + pose proof (disconnect_volume_teardown conf w Hts Hall) as H.
      rewrite Hrun in H. simpl in H. apply H.
    + rewrite (disconnect_volume_raises conf w Hts Hex) in Hrun.
      now injection Hrun as <- <-.
  - rewrite (disconnect_volume_not_teardown conf w Hts) in Hrun.
    now injection Hrun as <- <-.
Qed.

Lemma fabric_consistent_ext (md md' : gmap string string) fabric :
  md' !! _sys_meta_fabric_key fabric = md !! _sys_meta_fabric_key fabric →
  md' !! _sys_fabric_state_key fabric = md !! _sys_fabric_state_key fabric →
  fabric_consistent md fabric → fabric_consistent md' fabric.
Proof. unfold fabric_consistent, fabric_state_of. now intros -> ->. Qed.

Lemma fabric_consistent_mapped (md : gmap string string) fabric :
  is_Some (md !! _sys_meta_fabric_key fabric) →
  fabric_state_of md fabric = FS_MGMT_MAPPED
  ∨ fabric_state_of md fabric = FS_INST_MAPPED →
  fabric_consistent md fabric.
Proof.
  intros Hsome Hst. split; [| tauto].
  destruct Hst as [-> | ->]; unfold FS_UNMAPPED, FS_MGMT_MAPPED, FS_INST_MAPPED;
    set_solver.
Qed.

(** C9, as the code has it.  With [fabric_consistent] as the invariant
    (a stored state among the three, and a port map stored exactly when the
    state is [mgmt_mapped] or [inst_mapped]): for every fabric it is kept by
    a call of [wwpns] that returns, by a call of [connect_volume] that
    returns on an instance with a stored port map for each configured
    fabric, and by every call of [disconnect_volume]. *)
Theorem fabric_consistent_preserved fabric :
  (∀ w w' keys,
     fabric_consistent (metadata w) fabric →
     wwpns conf w = (w', Ok keys) →
     fabric_consistent (metadata w') fabric)
  ∧ (∀ vm_uuid w w',
       fabric_consistent (metadata w) fabric →
       (fabric ∈ _fabric_names conf →
        is_Some (metadata w !! _sys_meta_fabric_key fabric)) →
       connect_volume conf vm_uuid w = (w', Ok tt) →
       fabric_consistent (metadata w') fabric)
  ∧ (∀ w w' r,
       fabric_consistent (metadata w) fabric →
       disconnect_volume conf w = (w', r) →
       fabric_consistent (metadata w') fabric).
Proof.
  split; [| split].
  - intros w w' keys Hinv Hrun.
    destruct (stored_or_missing (metadata w) (_fabric_names conf)) as [Hall|Hex].
    + destruct (wwpns_fast_path_unchanged w Hall) as [keys' Hfast].
      rewrite Hfast in Hrun. now injection Hrun as <- _.
    + rewrite wwpns_rebuild_taken in Hrun by assumption.
      apply wwpns_rebuild_ok in Hrun as (vios0 & vios' & _ & Hloop).
      destruct (rebuild_loop_metadata _ _ _ _ _ _ _ _ Hloop fabric)
        as [Hin Hout].
      rewrite metadata_log in Hin, Hout.
      destruct (decide (fabric ∈ _fabric_names conf)) as [Hconf|Hconf].
      * destruct (Hin Hconf) as [Hsome Hst].
        apply fabric_consistent_mapped; [assumption |].
        rewrite Hst. destruct Hinv as [Hvalid _].
        repeat (apply elem_of_cons in Hvalid as [->|Hvalid]); auto.
        inversion Hvalid.
      * destruct (Hout Hconf) as [Hm Hs].
        now apply (fabric_consistent_ext (metadata w)).
  - intros vm_uuid w w' Hinv Hstored Hrun. unfold connect_volume in Hrun.
    apply connect_loop_ok in Hrun as (Hmeta & Hother & Hstate & _).
    destruct (decide (fabric ∈ _fabric_names conf)) as [Hconf|Hconf].
    + apply fabric_consistent_mapped.
      * rewrite Hmeta. now apply Hstored.
      * right. unfold fabric_state_of. now rewrite Hstate.
    + now apply (fabric_consistent_ext (metadata w)); auto.
  - intros w w' r Hinv Hrun.
    apply disconnect_volume_metadata in Hrun. now rewrite Hrun.
Qed.

End Invariant.

(** ** The claims on a running example

    Fabrics [A] and [B], one virtual port each, on the management layer of
    [Demo]. *)

Section Examples.

Import Demo.

Local Abbreviation w0 := (fresh None ∅).

(** The instance after a first [wwpns]: both fabrics parked. *)
Local Abbreviation md1 :=
  ({[ "npiv_adpt_wwpns_A" := "21a,c0a,c0b";
      "npiv_adpt_wwpns_B" := "21c,c0ai,c0bi";
      "fabric_state_A" := "mgmt_mapped";
      "fabric_state_B" := "mgmt_mapped" ]} : gmap string string).

Example wwpns_fresh_instance :
  metadata (wwpns conf w0).1 = md1
  ∧ (wwpns conf w0).2 = Ok ["c0a"; "c0b"; "c0ai"; "c0bi"].
Proof. vm_compute. split; reflexivity. Qed.

(** The stored example round trip of C3. *)
Lemma set_get_fabric_meta_roundtrip_witness :
  Forall well_formed_mapping [("21a", "c0a c0b"); ("21b", "c0ai c0bi")]
  ∧ (do_ _set_fabric_meta "A" [("21a", "c0a c0b"); ("21b", "c0ai c0bi")];
     _get_fabric_meta "A") w0
    = ((_set_fabric_meta "A" [("21a", "c0a c0b"); ("21b", "c0ai c0bi")] w0).1,
       Ok (Some [("21a", "c0a c0b"); ("21b", "c0ai c0bi")])).
Proof.
  assert (H : Forall well_formed_mapping
                [("21a", "c0a c0b"); ("21b", "c0ai c0bi")]).
  { repeat constructor; simpl.
    - exists "c0a", "c0b". repeat split; discriminate.
    - exists "c0ai", "c0bi". repeat split; discriminate. }
  split; [exact H |].
  exact (set_get_fabric_meta_roundtrip "A" _ w0 H).
Defined.

(** C8 as stated fails: four stored tokens decode, without any error, to
    the one mapping of the first three. *)
Lemma get_fabric_meta_accepts_four_tokens :
  length (PyStr.split "," "21a,c0a,c0b,21b") `mod` 3 ≠ 0
  ∧ _get_fabric_meta "A" (fresh None {[ "npiv_adpt_wwpns_A" := "21a,c0a,c0b,21b" ]})
    = (fresh None {[ "npiv_adpt_wwpns_A" := "21a,c0a,c0b,21b" ]},
       Ok (Some [("21a", "c0a c0b")])).
Proof. split; [vm_compute; discriminate | vm_compute; reflexivity]. Qed.

Lemma get_fabric_meta_truncates_witness :
  metadata (fresh None {[ "npiv_adpt_wwpns_A" := "21a,c0a,c0b,21b" ]})
    !! _sys_meta_fabric_key "A" = Some "21a,c0a,c0b,21b"
  ∧ _get_fabric_meta "A" (fresh None {[ "npiv_adpt_wwpns_A" := "21a,c0a,c0b,21b" ]})
    = (fresh None {[ "npiv_adpt_wwpns_A" := "21a,c0a,c0b,21b" ]},
       Ok (Some (map (λ '(p, v1, v2), (p, v1 +:+ " " +:+ v2))
                     (chunk3 (PyStr.split "," "21a,c0a,c0b,21b")))))
  ∧ length (chunk3 (PyStr.split "," "21a,c0a,c0b,21b"))
    = (length (PyStr.split "," "21a,c0a,c0b,21b") / 3)%nat.
Proof.
  assert (H : metadata (fresh None {[ "npiv_adpt_wwpns_A" := "21a,c0a,c0b,21b" ]})
                !! _sys_meta_fabric_key "A" = Some "21a,c0a,c0b,21b")
    by (vm_compute; reflexivity).
  split; [exact H |].
  exact (get_fabric_meta_truncates "A" "21a,c0a,c0b,21b" _ H).
Defined.

(** C9 as stated fails.  On a fresh instance the invariant holds; when
    [_set_fabric_meta] returns, in the middle of [wwpns], a port map is
    stored and the state is still [unmapped]; and [connect_volume] on the
    fresh instance, with a management layer that takes [None], returns with
    the state [inst_mapped] and no port map stored. *)
Lemma fabric_consistent_not_kept :
  fabric_consistent (metadata w0) "A"
  ∧ ¬ fabric_consistent
        (metadata (_set_fabric_meta "A" [("21a", "c0a c0b")] w0).1) "A"
  ∧ (connect_volume conf "vm" w0).2 = Ok tt
  ∧ ¬ fabric_consistent (metadata (connect_volume conf "vm" w0).1) "A".
Proof.
  split; [| split; [| split]].
  - split; [vm_compute; set_solver |].
    split.
    + intros [s Hs]. vm_compute in Hs. discriminate.
    + intros [H|H]; vm_compute in H; discriminate.
  - intros [_ [Hfwd _]].
    destruct Hfwd as [H|H]; [vm_compute; eauto | |]; vm_compute in H;
      discriminate.
  - vm_compute. reflexivity.
  - intros [_ [_ Hbwd]].
    destruct Hbwd as [s Hs]; [right; vm_compute; reflexivity |].
    vm_compute in Hs. discriminate.
Qed.

Lemma wwpns_fast_path_witness :
  Forall (λ fabric, is_Some (md1 !! _sys_meta_fabric_key fabric))
         (_fabric_names conf)
  ∧ wwpns conf (fresh None md1) = (fresh None md1, Ok ["c0a"; "c0b"; "c0ai"; "c0bi"])
  ∧ (do_ wwpns conf; wwpns conf) (fresh None md1)
    = (fresh None md1, Ok ["c0a"; "c0b"; "c0ai"; "c0bi"]).
Proof.
  assert (H : Forall (λ fabric, is_Some (metadata (fresh None md1)
                                           !! _sys_meta_fabric_key fabric))
                     (_fabric_names conf))
    by (repeat constructor; vm_compute; eauto).
  split; [exact H |].
  destruct (wwpns_fast_path conf (fresh None md1) H) as (Hone & Htwice & _).
  split; [exact Hone | exact Htwice].
Defined.

Lemma wwpns_alternates_vios_witness :
  Exists (λ fabric, metadata w0 !! _sys_meta_fabric_key fabric = None)
         (_fabric_names conf)
  ∧ ∃ evs, trace (wwpns conf w0).1 = trace w0 ++ evs
      ∧ derive_orders evs = [["V1"; "V2"]; ["V2"; "V1"]].
Proof.
  assert (H : Exists (λ fabric, metadata w0 !! _sys_meta_fabric_key fabric = None)
                     (_fabric_names conf))
    by (left; vm_compute; reflexivity).
  split; [exact H |].
  destruct (wwpns_alternates_vios conf w0 (wwpns conf w0).1
              ["c0a"; "c0b"; "c0ai"; "c0bi"] H)
    as (vios & evs & Hread & Htr & Horders); [vm_compute; reflexivity |].
  exists evs. split; [exact Htr |].
  injection Hread as <-. exact Horders.
Defined.

Lemma wwpns_rebuilds_every_fabric_witness :
  NoDup (_fabric_names conf)
  ∧ Exists (λ fabric, metadata w0 !! _sys_meta_fabric_key fabric = None)
           (_fabric_names conf)
  ∧ ∃ evs, trace (wwpns conf w0).1 = trace w0 ++ evs
      ∧ length (List.filter is_build evs) = 2%nat
      ∧ ∀ fabric, fabric ∈ _fabric_names conf →
          ∃ pm, EvMetaSet (_sys_meta_fabric_key fabric) (encode_port_map pm) ∈ evs
                ∧ metadata (wwpns conf w0).1 !! _sys_meta_fabric_key fabric
                  = Some (encode_port_map pm).
Proof.
  assert (Hnd : NoDup (_fabric_names conf))
    by (apply (bool_decide_unpack _); vm_compute; exact I).
  assert (Hex : Exists (λ fabric, metadata w0 !! _sys_meta_fabric_key fabric = None)
                       (_fabric_names conf))
    by (left; vm_compute; reflexivity).
  split; [exact Hnd |]. split; [exact Hex |].
  destruct (wwpns_rebuilds_every_fabric conf w0 (wwpns conf w0).1
              ["c0a"; "c0b"; "c0ai"; "c0bi"] Hnd Hex)
    as (evs & Htr & Hbuilds & _ & Hrounds); [vm_compute; reflexivity |].
  exists evs. split; [exact Htr |]. split; [exact Hbuilds |].
  intros fabric Hin.
  destruct (Hrounds fabric Hin) as (pre & post & vios & ports & pm & -> & _ & _ & Hs).
  exists pm. split; [| exact Hs].
  apply elem_of_app. right. apply elem_of_app. left.
  apply elem_of_app. right. apply elem_of_cons. right. now left.
Defined.

Lemma fresh_instance_consistent fabric :
  fabric_consistent (metadata w0) fabric.
Proof.
  split.
  - unfold fabric_state_of, metadata. simpl. rewrite lookup_empty. simpl.
    now left.
  - unfold fabric_state_of, metadata. simpl. rewrite !lookup_empty. simpl.
    split.
    + intros [s Hs]. discriminate.
    + intros [H|H]; vm_compute in H; discriminate.
Qed.

(** [connect_volume] on a fresh instance: both fabrics end [inst_mapped]. *)
Lemma connect_volume_marks_inst_mapped_witness :
  connect_volume conf "vm" w0 = ((connect_volume conf "vm" w0).1, Ok tt)
  ∧ ∀ fabric, fabric ∈ _fabric_names conf →
      metadata (connect_volume conf "vm" w0).1 !! _sys_fabric_state_key fabric
      = Some FS_INST_MAPPED.
Proof.
  assert (H : connect_volume conf "vm" w0
              = ((connect_volume conf "vm" w0).1, Ok tt))
    by (vm_compute; reflexivity).
  split; [exact H |].
  exact (proj1 (connect_volume_marks_inst_mapped conf "vm") w0 _ H).
Defined.

(** [connect_volume] twice after [wwpns]. *)
Lemma connect_volume_inst_mapped_again_witness :
  connect_volume conf "vm" (fresh None md1)
  = ((connect_volume conf "vm" (fresh None md1)).1, Ok tt)
  ∧ metadata (connect_volume conf "vm"
                (connect_volume conf "vm" (fresh None md1)).1).1
    = metadata (connect_volume conf "vm" (fresh None md1)).1
  ∧ vfc_mappings (connect_volume conf "vm"
                    (connect_volume conf "vm" (fresh None md1)).1).1
    = vfc_mappings (connect_volume conf "vm" (fresh None md1)).1.
Proof.
  assert (H : connect_volume conf "vm" (fresh None md1)
              = ((connect_volume conf "vm" (fresh None md1)).1, Ok tt))
    by (vm_compute; reflexivity).
  split; [exact H |].
  destruct (proj2 (connect_volume_inst_mapped_again conf "vm")
              (fresh None md1) _ _ _ H (surjective_pairing _))
    as (Hmd & Hvfc & _).
  split; [exact Hmd | exact Hvfc].
Defined.

(** [wwpns] on a fresh instance keeps fabric [A] consistent. *)
Lemma fabric_consistent_preserved_witness :
  fabric_consistent (metadata w0) "A"
  ∧ fabric_consistent (metadata (wwpns conf w0).1) "A".
Proof.
  split; [apply fresh_instance_consistent |].
  apply (proj1 (fabric_consistent_preserved conf "A") w0 _
           ["c0a"; "c0b"; "c0ai"; "c0bi"]).
  - apply fresh_instance_consistent.
  - vm_compute. reflexivity.
Defined.

(** The scenario of the spec: after [wwpns], [connect_volume] un-parks
    and attaches each fabric, and a second [connect_volume] only repeats the
    add calls. *)
Example connect_after_wwpns :
  calls (trace (connect_volume conf "vm" (fresh None md1)).1)
  = [EvRemove (Some [("21a", "c0a c0b")]); EvAdd "vm" (Some [("21a", "c0a c0b")]);
     EvRemove (Some [("21c", "c0ai c0bi")]);
     EvAdd "vm" (Some [("21c", "c0ai c0bi")])]
  ∧ calls (trace (connect_volume conf "vm"
                    (fresh None (metadata (connect_volume conf "vm"
                                             (fresh None md1)).1))).1)
    = [EvAdd "vm" (Some [("21a", "c0a c0b")]);
       EvAdd "vm" (Some [("21c", "c0ai c0bi")])].
Proof. vm_compute. split; reflexivity. Qed.

(** Parking fabric [A] of a fresh instance: the state is set on the read,
    the partition is asked for, the mappings are added for it, and the
    state becomes [mgmt_mapped]. *)
Lemma add_npiv_mgmt_mappings_guarded_witness :
  (_add_npiv_mgmt_mappings "A" [("21a", "c0a c0b")] w0).2 = Ok tt
  ∧ trace (_add_npiv_mgmt_mappings "A" [("21a", "c0a c0b")] w0).1
    = [EvMetaSet "fabric_state_A" "unmapped"; EvGetMgmt;
       EvAdd "mgmt" (Some [("21a", "c0a c0b")]);
       EvMetaSet "fabric_state_A" "mgmt_mapped"]
  ∧ vfc_mappings (_add_npiv_mgmt_mappings "A" [("21a", "c0a c0b")] w0).1
    = [("mgmt", ("21a", "c0a c0b"))].
Proof.
  pose proof (add_npiv_mgmt_mappings_guarded "A" [("21a", "c0a c0b")] w0) as H.
  destruct (_add_npiv_mgmt_mappings "A" [("21a", "c0a c0b")] w0) as [w' r].
  cbv zeta in H.
  change (String.eqb (fabric_state_of (metadata w0) "A") FS_UNMAPPED)
    with true in H.
  change (get_mgmt_partition (trace w0 ++ state_default (metadata w0) "A"))
    with (Ok (A := string) "mgmt") in H.
  change (add_npiv_port_mappings_outcome _ "mgmt" (Some [("21a", "c0a c0b")]))
    with (Ok tt) in H.
  destruct H as [(Hr & Htr & _ & Hvfc) _]. cbn [fst snd].
  split; [exact Hr |]. split; [exact Htr | exact Hvfc].
Defined.

End Examples.

(** * Further properties of the adapter *)

(** ** The fabric state store *)

Section StateStore.

Context {VIOS : Type} {ML : ManagementLayer VIOS}.
Implicit Types (w : World VIOS) (fabric key state : string).

(** X1.  Reading a fabric's state never fails: it returns the stored state, or
    stores [unmapped] and returns that; the state is stored afterwards, so
    a second read returns the same and writes nothing.  Reading right after
    [_set_fabric_state] returns the state set, without a further write. *)
Theorem get_fabric_state_write_on_read fabric w :
  let '(w', r) := _get_fabric_state fabric w in
  r = Ok (fabric_state_of (metadata w) fabric)
  ∧ metadata w' !! _sys_fabric_state_key fabric
    = Some (fabric_state_of (metadata w) fabric)
  ∧ (∀ key, key ≠ _sys_fabric_state_key fabric →
            metadata w' !! key = metadata w !! key)
  ∧ _get_fabric_state fabric w' = (w', r)
  ∧ ∀ state, (do_ _set_fabric_state fabric state; _get_fabric_state fabric) w
             = ((_set_fabric_state fabric state w).1, Ok state).
Proof.
  rewrite _get_fabric_state_read. repeat split.
  - apply state_read_stored.
  - intros key Hk. now apply state_read_other.
  - rewrite _get_fabric_state_read, state_read_idem, state_read_state.
    reflexivity.
  - intros state. unfold bind, _set_fabric_state, meta_set. cbn [fst].
    rewrite _get_fabric_state_eq, metadata_put, lookup_insert_eq.
    reflexivity.
Qed.

(** X2.  The two metadata keys of a fabric are its own: writing the state or
    the port map of one fabric changes neither the state nor the port map
    of any other fabric, a state write changes no port map at all, and a
    port-map write changes no state at all. *)
Theorem fabric_keys_do_not_collide fabric fabric' state (pm : port_map) w :
  fabric ≠ fabric' →
  let w1 := (_set_fabric_state fabric state w).1 in
  let w2 := (_set_fabric_meta fabric pm w).1 in
  fabric_state_of (metadata w1) fabric' = fabric_state_of (metadata w) fabric'
  ∧ stored_port_map (metadata w2) fabric' = stored_port_map (metadata w) fabric'
  ∧ (∀ f, stored_port_map (metadata w1) f = stored_port_map (metadata w) f)
  ∧ (∀ f, fabric_state_of (metadata w2) f = fabric_state_of (metadata w) f).
Proof.
  intros Hne w1 w2. subst w1 w2.
  unfold _set_fabric_state, _set_fabric_meta, meta_set. cbn [fst].
  unfold fabric_state_of, stored_port_map. rewrite !metadata_put.
  repeat split; intros.
  - rewrite lookup_insert_ne; [reflexivity |].
    intros H. now apply state_key_inj in H.
  - rewrite lookup_insert_ne; [reflexivity |].
    intros H. now apply meta_key_inj in H.
  - rewrite lookup_insert_ne; [reflexivity | apply state_key_not_meta_key].
  - rewrite lookup_insert_ne; [reflexivity | apply meta_key_not_state_key].
Qed.


End StateStore.

(** ** The port pool, teardown and repeated discovery *)

Section PoolAndTeardown.

Context {VIOS : Type} {ML : ManagementLayer VIOS}.
Variable conf : Config.
Implicit Types (w : World VIOS) (fabric key : string).

Lemma build_loop_any n acc w :
  let '(w', r) :=
    repeat_n (λ wwpns,
                do wwpn_pair <- pvm_wwpn_build_wwpn_pair;
                ret (wwpns ++ [wwpn_pair.1; wwpn_pair.2])) n acc w in
  metadata w' = metadata w
  ∧ vfc_mappings w' = vfc_mappings w
  ∧ match r with
    | Ok pool => trace w' = trace w ++ replicate n EvBuildPair
                 ∧ pool = acc ++ pool_from (trace w) n
    | Raise e =>
        ∃ k, (k < n)%nat
             ∧ trace w' = trace w ++ replicate (S k) EvBuildPair
             ∧ build_wwpn_pair (trace w ++ replicate k EvBuildPair) = Raise e
    end.
Proof.
  revert acc w. induction n as [|n IH]; intros acc w.
  - simpl. unfold ret. now rewrite !app_nil_r.
  - simpl repeat_n. unfold bind at 1 2, pvm_wwpn_build_wwpn_pair, call, ret.
    destruct (build_wwpn_pair (trace w)) as [[a b]|e] eqn:Hb.
    + specialize (IH (acc ++ [a; b]) (log EvBuildPair w)).
      destruct (repeat_n _ n _ _) as [w' r].
      destruct IH as (Hmd & Hvfc & Hr). repeat split; try assumption.
      destruct r as [pool|e].
      * destruct Hr as [Htr Hpool]. rewrite trace_log in Htr, Hpool.
        split; [rewrite Htr, <- app_assoc; reflexivity |].
        rewrite pool_from_S, Hb, Hpool, <- app_assoc. reflexivity.
      * destruct Hr as (k & Hk & Htr & Hfail). rewrite trace_log in Htr, Hfail.
        exists (S k). split; [lia |].
        split; [rewrite Htr, <- app_assoc; reflexivity |].
        cbn [replicate]. now rewrite <- app_assoc in Hfail.
    + repeat split. exists O. split; [lia |].
      split; [reflexivity |]. cbn [replicate]. now rewrite app_nil_r.
Qed.

Lemma build_wwpns_for_fabric_world w :
  let '(w', r) := _build_wwpns_for_fabric conf w in
  match r with
  | Ok pool =>
      metadata w' = metadata w
      ∧ vfc_mappings w' = vfc_mappings w
      ∧ trace w' = trace w ++ replicate (Z.to_nat (_ports_per_fabric conf))
                                        EvBuildPair
      ∧ pool = pool_from (trace w) (Z.to_nat (_ports_per_fabric conf))
  | Raise _ => metadata w' = metadata w ∧ vfc_mappings w' = vfc_mappings w
  end.
Proof.
  unfold _build_wwpns_for_fabric.
  pose proof (build_loop_any (Z.to_nat (_ports_per_fabric conf)) [] w) as Hany.
  destruct (repeat_n _ _ [] w) as [w' [pool|e]].
  - destruct Hany as (Hmd & Hvfc & Htr & Hpool). auto.
  - destruct Hany as (Hmd & Hvfc & _). auto.
Qed.

(** X4.  [_build_wwpns_for_fabric] makes [ports_per_fabric] build calls and
    returns the two WWPNs of each, in order; the first call that raises
    ends it, with no call after.  It writes no metadata and touches no
    mapping.  With [ports_per_fabric] zero or negative it returns the
    empty list without any call. *)
Theorem build_wwpns_for_fabric_calls w :
  let n := Z.to_nat (_ports_per_fabric conf) in
  let '(w', r) := _build_wwpns_for_fabric conf w in
  metadata w' = metadata w
  ∧ vfc_mappings w' = vfc_mappings w
  ∧ match r with
    | Ok pool => trace w' = trace w ++ replicate n EvBuildPair
                 ∧ pool = pool_from (trace w) n
                 ∧ length pool = (2 * n)%nat
    | Raise e =>
        ∃ k, (k < n)%nat
             ∧ trace w' = trace w ++ replicate (S k) EvBuildPair
             ∧ build_wwpn_pair (trace w ++ replicate k EvBuildPair) = Raise e
    end
  ∧ ((_ports_per_fabric conf <= 0)%Z → w' = w ∧ r = Ok []).
Proof.
  intros n. unfold _build_wwpns_for_fabric. fold n.
  pose proof (build_loop_any n [] w) as Hany.
  destruct (repeat_n _ n [] w) as [w' r] eqn:Hrun.
  destruct Hany as (Hmd & Hvfc & Hr).
  split; [exact Hmd |]. split; [exact Hvfc |]. split.
  - destruct r as [pool|e]; [| exact Hr].
    apply build_loop_ok in Hrun as (Htr & _ & Hpool & Hlen).
    simpl in Hpool. subst pool. auto.
  - intros Hle. subst n. rewrite Z2Nat.nonpos in Hrun by assumption.
    now injection Hrun as <- <-.
Qed.

(** X5.  With a stored port map for every configured fabric,
    [disconnect_volume] does nothing at all unless the task state is
    [deleting] or [spawning] (a task state of [None] included); with such
    a task state it makes one call, the removal of the port maps of all
    fabrics concatenated in fabric order, and writes no metadata. *)
Theorem disconnect_volume_gated w :
  Forall (λ fabric, is_Some (metadata w !! _sys_meta_fabric_key fabric))
         (_fabric_names conf) →
  let batch := flat_map (λ fabric, default [] (stored_port_map (metadata w) fabric))
                        (_fabric_names conf) in
  let '(w', r) := disconnect_volume conf w in
  if py_in (task_state (instance w)) TASK_STATES_FOR_DISCONNECT then
    trace w' = trace w ++ [EvRemove (Some batch)]
    ∧ metadata w' = metadata w
    ∧ vfc_mappings w'
      = match r with
        | Ok _ => vfc_remove batch (vfc_mappings w)
        | Raise _ => vfc_mappings w
        end
  else w' = w ∧ r = Ok tt.
Proof.
  intros Hall batch.
  destruct (py_in (task_state (instance w)) TASK_STATES_FOR_DISCONNECT) eqn:Hts.
  - unfold disconnect_volume, bind, get_task_state.
    rewrite Hts. cbn [negb]. cbv beta iota.
    rewrite (gather_all _ [] w Hall). simpl app. fold batch.
    unfold pvm_wwpn_remove_npiv_port_mappings.
    destruct (remove_npiv_port_mappings_outcome _ _) as [[]|e];
      repeat split; reflexivity.
  - now rewrite (disconnect_volume_not_teardown conf w Hts).
Qed.

(** X6.  [disconnect_volume] never writes metadata, whatever its outcome:
    fabric states and port maps stay.  So after a teardown a [wwpns] call
    on an instance that had its port maps still returns the stored WWPNs,
    without building anything. *)
Theorem disconnect_volume_keeps_metadata w w' r :
  disconnect_volume conf w = (w', r) →
  metadata w' = metadata w
  ∧ (Forall (λ fabric, is_Some (metadata w !! _sys_meta_fabric_key fabric))
            (_fabric_names conf) →
     wwpns conf w'
     = (w', Ok (flat_map (fabric_keys (metadata w)) (_fabric_names conf)))).
Proof.
  intros Hrun. apply disconnect_volume_metadata in Hrun.
  split; [exact Hrun |]. intros Hall.
  unfold wwpns, bind. rewrite <- Hrun in Hall |- *.
  now rewrite (wwpns_scan_all _ [] w' Hall).
Qed.

(** X7.  After any [wwpns] call that returns, every configured fabric has a
    stored port map, so the next call is a pure read: it returns without
    any call or write. *)
Theorem wwpns_leaves_all_stored w w' keys :
  wwpns conf w = (w', Ok keys) →
  Forall (λ fabric, is_Some (metadata w' !! _sys_meta_fabric_key fabric))
         (_fabric_names conf)
  ∧ wwpns conf w'
    = (w', Ok (flat_map (fabric_keys (metadata w')) (_fabric_names conf))).
Proof.
  intros Hrun.
  assert (Hall : Forall (λ fabric, is_Some (metadata w'
                                              !! _sys_meta_fabric_key fabric))
                        (_fabric_names conf)).
  { destruct (stored_or_missing (metadata w) (_fabric_names conf)) as [Hall|Hex].
    - destruct (wwpns_fast_path_unchanged conf w Hall) as [keys' Hfast].
      rewrite Hfast in Hrun. now injection Hrun as <- _.
    - rewrite wwpns_rebuild_taken in Hrun by assumption.
      apply wwpns_rebuild_ok in Hrun as (vios0 & vios' & _ & Hloop).
      apply Forall_forall. intros fabric Hin.
      now destruct (rebuild_loop_metadata _ _ _ _ _ _ _ _ Hloop fabric)
        as [[Hsome _] _]. }
  split; [exact Hall |].
  unfold wwpns, bind. now rewrite (wwpns_scan_all _ [] w' Hall).
Qed.

End PoolAndTeardown.

(** ** A rebuild that fails *)

Section RebuildFailure.

Context {VIOS : Type} {ML : ManagementLayer VIOS}.
Variable conf : Config.
Implicit Types (w : World VIOS) (fabric key : string).
Implicit Types (fabrics : list string) (vios : list VIOS).

Lemma for_each_raise {A S} (body : S → A → M VIOS S) (l : list A) acc w w' e :
  for_each body l acc w = (w', Raise e) →
  ∃ l1 x l2 w1 acc1,
    l = l1 ++ x :: l2
    ∧ for_each body l1 acc w = (w1, Ok acc1)
    ∧ body acc1 x w1 = (w', Raise e).
Proof.
  revert acc w. induction l as [|x l IH]; intros acc w; [discriminate |].
  simpl. unfold bind at 1.
  destruct (body acc x w) as [w1 [acc1|e1]] eqn:Hbody.
  - intros Hrest. apply IH in Hrest as (l1 & y & l2 & w2 & acc2 & -> & Hl1 & Hy).
    exists (x :: l1), y, l2, w2, acc2. repeat split; [| assumption].
    simpl. unfold bind. now rewrite Hbody.
  - intros [= <- <-]. now exists [], x, l, w, acc.
Qed.

Lemma _add_npiv_mgmt_mappings_frame fabric (pm : port_map) w w' r key :
  _add_npiv_mgmt_mappings fabric pm w = (w', r) →
  key ≠ _sys_fabric_state_key fabric →
  metadata w' !! key = metadata w !! key.
Proof.
  rewrite _add_npiv_mgmt_mappings_eq. intros Hrun Hk.
  destruct (String.eqb (fabric_state_of (metadata w) fabric) FS_UNMAPPED).
  - unfold bind, mgmt_get_mgmt_partition, call,
      pvm_wwpn_add_npiv_port_mappings, _set_fabric_state, meta_set in Hrun.
    destruct (get_mgmt_partition _) as [uuid|e1];
      [destruct (add_npiv_port_mappings_outcome _ uuid (Some pm)) as [[]|e2] |];
      injection Hrun as <- _; autorewrite with world;
      rewrite ?lookup_insert_ne by congruence; now apply state_read_other.
  - now injection Hrun as <- _.
Qed.

(** Whatever its outcome, a round of the rebuild writes under the keys of
    its own fabric only. *)
Lemma rebuild_fabric_frame acc fabric w w' r key :
  rebuild_fabric conf acc fabric w = (w', r) →
  key ≠ _sys_meta_fabric_key fabric →
  key ≠ _sys_fabric_state_key fabric →
  metadata w' !! key = metadata w !! key.
Proof.
  destruct acc as [vios resp]. intros Hrun Hm Hs.
  unfold rebuild_fabric, bind at 1 in Hrun.
  pose proof (build_wwpns_for_fabric_world conf w) as Hbuild.
  destruct (_build_wwpns_for_fabric conf w) as [w1 [pool|e]].
  - destruct Hbuild as (Hmd1 & _).
    unfold bind at 1, _fabric_ports in Hrun.
    destruct (assoc fabric (NPIV_FABRIC_WWPNS conf)) as [ports|].
    + unfold ret at 1, bind at 1, pvm_wwpn_derive_npiv_map, call in Hrun.
      destruct (derive_npiv_map _ vios ports pool) as [pm|e].
      * unfold bind at 1 in Hrun. rewrite _set_fabric_meta_eq in Hrun.
        unfold bind at 1 in Hrun.
        destruct (_add_npiv_mgmt_mappings fabric pm _) as [w3 r3] eqn:Hpark.
        apply _add_npiv_mgmt_mappings_frame with (key := key) in Hpark;
          [| assumption].
        autorewrite with world in Hpark.
        rewrite lookup_insert_ne in Hpark by congruence.
        rewrite Hmd1 in Hpark.
        destruct r3; injection Hrun as <- _; exact Hpark.
      * injection Hrun as <- _. autorewrite with world. now rewrite Hmd1.
    + unfold raise in Hrun. injection Hrun as <- _. now rewrite Hmd1.
  - destruct Hbuild as (Hmd1 & _). injection Hrun as <- _. now rewrite Hmd1.
Qed.


End RebuildFailure.

(** ** Rebuilding fabrics that are mapped already *)

Section Repark.

Context {VIOS : Type} {ML : ManagementLayer VIOS}.
Variable conf : Config.
Implicit Types (w : World VIOS) (fabric key : string).
Implicit Types (fabrics : list string) (vios : list VIOS).

Lemma fabric_state_insert_meta (md : gmap string string) fabric fabric' v :
  fabric_state_of (<[_sys_meta_fabric_key fabric := v]> md) fabric'
  = fabric_state_of md fabric'.
Proof.
  unfold fabric_state_of.
  now rewrite lookup_insert_ne by apply meta_key_not_state_key.
Qed.

Lemma build_results_app (h evs evs' : list (event VIOS)) :
  build_results h (evs ++ evs')
  = build_results h evs ++ build_results (h ++ evs) evs'.
Proof.
  revert h. induction evs as [|ev evs IH]; intros h.
  - simpl. now rewrite app_nil_r.
  - cbn [app build_results]. rewrite IH, <- !app_assoc. reflexivity.
Qed.

Lemma build_results_none (h evs : list (event VIOS)) :
  List.filter is_build evs = [] → build_results h evs = [].
Proof.
  revert h. induction evs as [|ev evs IH]; intros h; [reflexivity |].
  cbn [List.filter build_results].
  destruct (is_build ev); [discriminate |]. intros H. now apply IH.
Qed.

Lemma build_results_replicate (h : list (event VIOS)) k :
  build_results h (replicate k EvBuildPair) = pool_from h k.
Proof.
  revert h. induction k as [|k IH]; intros h; [reflexivity |].
  cbn [replicate build_results is_build]. now rewrite IH, pool_from_S.
Qed.

Lemma rebuild_loop_results fabrics vios resp w w' vios' resp' :
  for_each (rebuild_fabric conf) fabrics (vios, resp) w
  = (w', Ok (vios', resp')) →
  ∃ evs, trace w' = trace w ++ evs
         ∧ resp' = resp ++ build_results (trace w) evs.
Proof.
  revert vios resp w.
  induction fabrics as [|f fabrics IH]; intros vios resp w Hrun.
  - injection Hrun as <- <- <-. exists []. now rewrite !app_nil_r.
  - apply for_each_cons_ok in Hrun as (w1 & [vios1 resp1] & Hround & Hrest).
    apply rebuild_fabric_ok in Hround
      as (ports & pm & evs1 & _ & _ & Htr1 & Hnb & _ & _ & _ & -> & _).
    apply IH in Hrest as (evs2 & Htr2 & ->).
    rewrite Htr1 in Htr2 |- *. rewrite <- !app_assoc in Htr2.
    eexists. split; [exact Htr2 |].
    rewrite !build_results_app, build_results_replicate.
    cbn [build_results is_build app].
    rewrite (build_results_none _ evs1 Hnb).
    cbn [app]. repeat rewrite <- app_assoc. reflexivity.
Qed.

(** X10.  On the rebuild path [wwpns] returns exactly the WWPNs its
    [build_wwpn_pair] calls returned, in call order, whatever mappings were
    derived and stored. *)
Theorem wwpns_rebuild_returns_built w w' keys :
  Exists (λ fabric, metadata w !! _sys_meta_fabric_key fabric = None)
         (_fabric_names conf) →
  wwpns conf w = (w', Ok keys) →
  ∃ evs, trace w' = trace w ++ evs ∧ keys = build_results (trace w) evs.
Proof.
  intros Hex Hrun. rewrite wwpns_rebuild_taken in Hrun by assumption.
  apply wwpns_rebuild_ok in Hrun as (vios0 & vios' & _ & Hloop).
  apply rebuild_loop_results in Hloop as (evs & Htr & ->).
  rewrite trace_log, <- app_assoc in Htr.
  exists ([EvReadVIOS] ++ evs). split; [exact Htr |].
  rewrite build_results_app. reflexivity.
Qed.

End Repark.

(** ** What a rebuild parks, and what a failed rebuild leaves *)

Section RebuildRounds.

Context {VIOS : Type} {ML : ManagementLayer VIOS}.
Variable conf : Config.
Implicit Types (w : World VIOS) (fabric key : string).
Implicit Types (fabrics : list string) (vios : list VIOS).
Implicit Types (h evs : list (event VIOS)).

Lemma derive_results_app h evs evs' :
  derive_results h (evs ++ evs')
  = derive_results h evs ++ derive_results (h ++ evs) evs'.
Proof.
  revert h. induction evs as [|ev evs IH]; intros h.
  - simpl. now rewrite app_nil_r.
  - cbn [app derive_results]. rewrite IH, <- !app_assoc. reflexivity.
Qed.

Lemma mgmt_results_app h evs evs' :
  mgmt_results h (evs ++ evs')
  = mgmt_results h evs ++ mgmt_results (h ++ evs) evs'.
Proof.
  revert h. induction evs as [|ev evs IH]; intros h.
  - simpl. now rewrite app_nil_r.
  - cbn [app mgmt_results]. rewrite IH, <- !app_assoc. reflexivity.
Qed.

Lemma derive_results_none h evs :
  derive_orders evs = [] → derive_results h evs = [].
Proof.
  revert h. induction evs as [|ev evs IH]; intros h; [reflexivity |].
  destruct ev; cbn [derive_orders flat_map derive_results app];
    try discriminate; intros H; now apply IH.
Qed.

Lemma mgmt_results_none h evs :
  List.filter is_parking_call evs = [] → mgmt_results h evs = [].
Proof.
  revert h. induction evs as [|ev evs IH]; intros h; [reflexivity |].
  destruct ev; cbn [List.filter is_parking_call mgmt_results app];
    try discriminate; intros H; now apply IH.
Qed.

Lemma filter_is_add_none evs :
  List.filter is_parking_call evs = [] → List.filter is_add evs = [].
Proof.
  induction evs as [|ev evs IH]; [reflexivity |].
  destruct ev; cbn [List.filter is_parking_call is_add];
    try discriminate; exact IH.
Qed.

Lemma no_parking_builds k :
  List.filter is_parking_call (replicate k (EvBuildPair (VIOS := VIOS))) = [].
Proof. induction k as [|k IH]; [reflexivity | exact IH]. Qed.

Lemma no_parking_default (md : gmap string string) fabric :
  List.filter is_parking_call (state_default (VIOS := VIOS) md fabric) = [].
Proof.
  unfold state_default. now destruct (md !! _sys_fabric_state_key fabric).
Qed.

Lemma no_derive_default (md : gmap string string) fabric :
  derive_orders (state_default (VIOS := VIOS) md fabric) = [].
Proof.
  unfold state_default. now destruct (md !! _sys_fabric_state_key fabric).
Qed.

(** The effects of one round of the rebuild up to parking: the build
    calls, the derive call and the port map written. *)
Lemma round_front_results h k vios ports pool pm key value evs :
  derive_npiv_map (h ++ replicate k EvBuildPair) vios ports pool = Ok pm →
  derive_orders evs = [] →
  derive_results h (replicate k EvBuildPair
                    ++ [EvDerive vios ports pool; EvMetaSet key value] ++ evs)
  = [pm].
Proof.
  intros Hderive Hnone.
  rewrite derive_results_app,
    (derive_results_none _ _ (derive_orders_replicate k)).
  cbn [app derive_results]. rewrite Hderive.
  now rewrite (derive_results_none _ _ Hnone).
Qed.

(** One round of the rebuild that returns: the one port map derived is
    stored for the fabric, and an add call is made, for the partition the
    management layer named and with that port map, exactly when the fabric
    was [unmapped]. *)
Lemma rebuild_fabric_parks vios resp fabric w w' acc :
  rebuild_fabric conf (vios, resp) fabric w = (w', Ok acc) →
  ∃ evs pm,
    trace w' = trace w ++ evs
    ∧ derive_results (trace w) evs = [pm]
    ∧ metadata w' !! _sys_meta_fabric_key fabric = Some (encode_port_map pm)
    ∧ List.filter is_add evs
      = zip_with (λ uuid pm, EvAdd uuid (Some pm))
          (mgmt_results (trace w) evs)
          (unmapped_maps (metadata w) [fabric] [pm])
    ∧ length (mgmt_results (trace w) evs)
      = length (unmapped_maps (metadata w) [fabric] [pm]).
Proof.
  intros Hrun. unfold rebuild_fabric, bind at 1 in Hrun.
  destruct (_build_wwpns_for_fabric conf w) as [w1 [pool|e]] eqn:Hbuild;
    [| discriminate].
  apply _build_wwpns_for_fabric_ok in Hbuild as (Htr1 & Hmd1 & _ & _).
  unfold bind at 1, _fabric_ports in Hrun.
  destruct (assoc fabric (NPIV_FABRIC_WWPNS conf)) as [ports|];
    [| discriminate].
  unfold ret at 1, bind at 1, pvm_wwpn_derive_npiv_map, call in Hrun.
  destruct (derive_npiv_map (trace w1) vios ports pool) as [pm|e] eqn:Hderive;
    [| discriminate].
  unfold bind at 1 in Hrun. rewrite _set_fabric_meta_eq in Hrun.
  unfold bind at 1 in Hrun.
  match type of Hrun with
  | context [_add_npiv_mgmt_mappings fabric pm ?x] => set (w2 := x) in *
  end.
  assert (Htr2 : trace w2
                 = trace w ++ replicate (Z.to_nat (_ports_per_fabric conf)) EvBuildPair
                   ++ [EvDerive vios ports pool;
                       EvMetaSet (_sys_meta_fabric_key fabric) (encode_port_map pm)]).
  { subst w2. rewrite trace_put, trace_log, Htr1, <- !app_assoc. reflexivity. }
  assert (Hmd2 : metadata w2
                 = <[_sys_meta_fabric_key fabric := encode_port_map pm]> (metadata w)).
  { subst w2. now rewrite metadata_put, metadata_log, Hmd1. }
  rewrite Htr1 in Hderive.
  pose proof (_add_npiv_mgmt_mappings_run fabric pm w2) as Hpark.
  destruct (_add_npiv_mgmt_mappings fabric pm w2) as [w3 [[]|e]];
    [| discriminate].
  injection Hrun as <- _. cbv zeta in Hpark.
  rewrite Hmd2, fabric_state_insert_meta, <- Hmd2 in Hpark.
  cbn [unmapped_maps].
  destruct (String.eqb (fabric_state_of (metadata w) fabric) FS_UNMAPPED).
  - destruct (get_mgmt_partition _) as [uuid|e] eqn:Hmg;
      [| destruct Hpark as [? _]; discriminate].
    destruct (add_npiv_port_mappings_outcome _ uuid (Some pm)) as [[]|e];
      [| destruct Hpark as [? _]; discriminate].
    destruct Hpark as (_ & Htr3 & Hmd3 & _).
    rewrite Htr2 in Htr3, Hmg.
    repeat rewrite <- app_assoc in Htr3. repeat rewrite <- app_assoc in Hmg.
    set (front := replicate (Z.to_nat (_ports_per_fabric conf)) EvBuildPair
                  ++ [EvDerive vios ports pool;
                      EvMetaSet (_sys_meta_fabric_key fabric)
                                (encode_port_map pm)]
                  ++ state_default (metadata w2) fabric) in *.
    exists (front ++ [EvGetMgmt; EvAdd uuid (Some pm);
                      EvMetaSet (_sys_fabric_state_key fabric) FS_MGMT_MAPPED]), pm.
    assert (Hquiet : List.filter is_parking_call front = []).
    { subst front.
      rewrite !List.filter_app, no_parking_builds, no_parking_default.
      reflexivity. }
    assert (Hfront : derive_results (trace w) front = [pm]).
    { subst front. apply round_front_results; [exact Hderive |].
      apply no_derive_default. }
    split; [| split; [| split; [| split]]].
    + rewrite Htr3. subst front. now repeat rewrite <- app_assoc.
    + rewrite derive_results_app, Hfront. reflexivity.
    + rewrite Hmd3, lookup_insert_ne by apply state_key_not_meta_key.
      now rewrite Hmd2, lookup_insert_eq.
    + rewrite List.filter_app, mgmt_results_app.
      rewrite (filter_is_add_none _ Hquiet), (mgmt_results_none _ _ Hquiet).
      cbn [app mgmt_results List.filter is_add]. now rewrite Hmg.
    + rewrite mgmt_results_app, (mgmt_results_none _ _ Hquiet).
      cbn [app mgmt_results]. now rewrite Hmg.
  - destruct Hpark as [-> _]. eexists _, pm. split; [exact Htr2 |].
    assert (Hquiet : List.filter is_parking_call
                       (replicate (Z.to_nat (_ports_per_fabric conf)) EvBuildPair
                        ++ [EvDerive vios ports pool;
                            EvMetaSet (_sys_meta_fabric_key fabric)
                                      (encode_port_map pm)]) = []).
    { rewrite List.filter_app, no_parking_builds. reflexivity. }
    split; [| split; [| split]].
    + rewrite <- (app_nil_r [_; _]).
      now apply round_front_results.
    + now rewrite Hmd2, lookup_insert_eq.
    + now rewrite (filter_is_add_none _ Hquiet), (mgmt_results_none _ _ Hquiet).
    + now rewrite (mgmt_results_none _ _ Hquiet).
Qed.

Lemma unmapped_maps_ext (md md' : gmap string string) fabrics pms :
  (∀ fabric, fabric ∈ fabrics →
             fabric_state_of md fabric = fabric_state_of md' fabric) →
  unmapped_maps md fabrics pms = unmapped_maps md' fabrics pms.
Proof.
  revert pms. induction fabrics as [|f fabrics IH]; intros pms Hsame;
    [reflexivity |].
  destruct pms as [|pm pms]; [reflexivity |]. cbn [unmapped_maps].
  rewrite (Hsame f) by now left.
  rewrite IH; [reflexivity |]. intros g Hg. apply Hsame. now right.
Qed.

Lemma unmapped_maps_app (md : gmap string string) fabrics fabrics' pms pms' :
  length fabrics = length pms →
  unmapped_maps md (fabrics ++ fabrics') (pms ++ pms')
  = unmapped_maps md fabrics pms ++ unmapped_maps md fabrics' pms'.
Proof.
  revert pms. induction fabrics as [|f fabrics IH]; intros [|pm pms] Hlen;
    try discriminate; [reflexivity |].
  cbn [app unmapped_maps]. rewrite IH by (simpl in Hlen; lia).
  now rewrite <- app_assoc.
Qed.

(** The rounds of a rebuild loop that returns: every fabric has the port
    map derived for it stored at the end, and the add calls are, in order,
    those for the fabrics that were [unmapped], each for the partition the
    management layer named and with the fabric's derived port map. *)
Lemma rebuild_loop_parks fabrics vios resp w w' acc :
  NoDup fabrics →
  for_each (rebuild_fabric conf) fabrics (vios, resp) w = (w', Ok acc) →
  ∃ evs,
    trace w' = trace w ++ evs
    ∧ Forall2 (λ fabric pm, metadata w' !! _sys_meta_fabric_key fabric
                            = Some (encode_port_map pm))
              fabrics (derive_results (trace w) evs)
    ∧ List.filter is_add evs
      = zip_with (λ uuid pm, EvAdd uuid (Some pm))
          (mgmt_results (trace w) evs)
          (unmapped_maps (metadata w) fabrics (derive_results (trace w) evs))
    ∧ length (mgmt_results (trace w) evs)
      = length (unmapped_maps (metadata w) fabrics
                  (derive_results (trace w) evs)).
Proof.
  intros Hnd. revert vios resp w acc.
  induction Hnd as [|f fabrics Hf Hnd IH]; intros vios resp w acc Hrun.
  - injection Hrun as <- _. exists []. rewrite app_nil_r.
    repeat split. constructor.
  - apply for_each_cons_ok in Hrun as (w1 & [vios1 resp1] & Hround & Hrest).
    pose proof (rebuild_fabric_parks _ _ _ _ _ _ Hround)
      as (evs1 & pm & Htr1 & Hd1 & Hst1 & Hadd1 & Hlen1).
    destruct acc as [vios' resp'].
    pose proof (rebuild_loop_metadata conf _ _ _ _ _ _ _ Hrest f) as [_ Hout].
    destruct (Hout Hf) as [Hkeep _].
    apply IH in Hrest as (evs2 & Htr2 & Hd2 & Hadd2 & Hlen2).
    assert (Hsame : unmapped_maps (metadata w1) fabrics
                      (derive_results (trace w1) evs2)
                    = unmapped_maps (metadata w) fabrics
                        (derive_results (trace w1) evs2)).
    { apply unmapped_maps_ext. intros g Hg. unfold fabric_state_of.
      rewrite (rebuild_fabric_frame conf _ _ _ _ _ _ Hround); [reflexivity | |].
      - apply state_key_not_meta_key.
      - intros H. apply state_key_inj in H. now subst. }
    rewrite Hsame in Hadd2, Hlen2.
    rewrite Htr1 in Htr2, Hd2, Hadd2, Hlen2. rewrite <- app_assoc in Htr2.
    exists (evs1 ++ evs2). split; [exact Htr2 |].
    rewrite derive_results_app, mgmt_results_app, Hd1.
    split; [| split].
    + cbn [app]. constructor; [now rewrite Hkeep | exact Hd2].
    + rewrite List.filter_app, Hadd1, Hadd2.
      rewrite (unmapped_maps_app _ [f] fabrics [pm]) by reflexivity.
      now rewrite zip_with_app.
    + rewrite (unmapped_maps_app _ [f] fabrics [pm]) by reflexivity.
      rewrite !length_app. congruence.
Qed.

(** X9.  A rebuild parks the fabrics that were [unmapped], and only those.
    When a [wwpns] call that rebuilds returns, every configured fabric,
    whatever its state was, has the port map derived for it stored; and the
    add-mapping calls made are, in fabric order, one for each fabric whose
    state was [unmapped], for the partition [get_mgmt_partition] returned
    and with the port map derived for that fabric.  A fabric that was
    [mgmt_mapped] or [inst_mapped] gets no add-mapping call. *)
Theorem wwpns_rebuild_parks_unmapped_only w w' keys :
  NoDup (_fabric_names conf) →
  Exists (λ fabric, metadata w !! _sys_meta_fabric_key fabric = None)
         (_fabric_names conf) →
  wwpns conf w = (w', Ok keys) →
  ∃ evs,
    trace w' = trace w ++ evs
    ∧ Forall2 (λ fabric pm, metadata w' !! _sys_meta_fabric_key fabric
                            = Some (encode_port_map pm))
              (_fabric_names conf) (derive_results (trace w) evs)
    ∧ List.filter is_add evs
      = zip_with (λ uuid pm, EvAdd uuid (Some pm))
          (mgmt_results (trace w) evs)
          (unmapped_maps (metadata w) (_fabric_names conf)
             (derive_results (trace w) evs))
    ∧ length (mgmt_results (trace w) evs)
      = length (unmapped_maps (metadata w) (_fabric_names conf)
                  (derive_results (trace w) evs)).
Proof.
  intros Hnd Hex Hrun. rewrite wwpns_rebuild_taken in Hrun by assumption.
  apply wwpns_rebuild_ok in Hrun as (vios0 & vios' & _ & Hloop).
  apply rebuild_loop_parks in Hloop as (evs & Htr & Hd & Hadd & Hlen);
    [| exact Hnd].
  rewrite trace_log in Htr, Hd, Hadd, Hlen. rewrite metadata_log in Hadd, Hlen.
  rewrite <- app_assoc in Htr.
  exists ([EvReadVIOS] ++ evs). split; [exact Htr |].
  rewrite derive_results_app, mgmt_results_app, List.filter_app.
  cbn [derive_results mgmt_results List.filter is_add app].
  auto.
Qed.

End RebuildRounds.

Section RebuildFailureKept.

Context {VIOS : Type} {ML : ManagementLayer VIOS}.
Variable conf : Config.
Implicit Types (w : World VIOS) (fabric key : string).
Implicit Types (fabrics : list string) (vios : list VIOS).
Implicit Types (h evs : list (event VIOS)).

Lemma Forall2_impl_in {A B} (P Q : A → B → Prop) (l : list A) (k : list B) :
  Forall2 P l k → (∀ x y, x ∈ l → P x y → Q x y) → Forall2 Q l k.
Proof.
  induction 1 as [|x y l k Hxy _ IH]; intros Himpl; constructor.
  - apply Himpl; [now left | exact Hxy].
  - apply IH. intros x' y' Hin. apply Himpl. now right.
Qed.

(** One round of the rebuild that raises: the exception is that of the
    last call made.  When that is a build call or the derive call, nothing
    was written; when it is a call of parking, the port map derived is
    stored and the state is [unmapped]. *)
Lemma rebuild_fabric_raise vios resp fabric w w' e :
  rebuild_fabric conf (vios, resp) fabric w = (w', Raise e) →
  is_Some (assoc fabric (NPIV_FABRIC_WWPNS conf)) →
  ∃ h ev,
    trace w' = trace w ++ h ++ [ev]
    ∧ raised_by (trace w ++ h) ev e
    ∧ if is_parking_call ev then
        ∃ pm, derive_results (trace w) (h ++ [ev]) = [pm]
              ∧ metadata w' !! _sys_meta_fabric_key fabric
                = Some (encode_port_map pm)
              ∧ fabric_state_of (metadata w') fabric = FS_UNMAPPED
      else derive_results (trace w) (h ++ [ev]) = []
           ∧ metadata w' = metadata w.
Proof.
  intros Hrun [ports Hports].
  unfold rebuild_fabric, bind at 1, _build_wwpns_for_fabric in Hrun.
  pose proof (build_loop_any (Z.to_nat (_ports_per_fabric conf)) [] w) as Hany.
  destruct (repeat_n _ _ [] w) as [w1 [pool|e1]].
  - destruct Hany as (Hmd1 & _ & Htr1 & _).
    unfold bind at 1, _fabric_ports in Hrun. rewrite Hports in Hrun.
    unfold ret at 1, bind at 1, pvm_wwpn_derive_npiv_map, call in Hrun.
    rewrite Htr1 in Hrun.
    destruct (derive_npiv_map _ vios ports pool) as [pm|e1] eqn:Hderive.
    + unfold bind at 1 in Hrun. rewrite _set_fabric_meta_eq in Hrun.
      unfold bind at 1 in Hrun.
      match type of Hrun with
      | context [_add_npiv_mgmt_mappings fabric pm ?x] => set (w2 := x) in *
      end.
      assert (Htr2 : trace w2
                     = trace w
                       ++ replicate (Z.to_nat (_ports_per_fabric conf)) EvBuildPair
                       ++ [EvDerive vios ports pool;
                           EvMetaSet (_sys_meta_fabric_key fabric)
                                     (encode_port_map pm)]).
      { subst w2. rewrite trace_put, trace_log, Htr1, <- !app_assoc.
        reflexivity. }
      assert (Hmd2 : metadata w2
                     = <[_sys_meta_fabric_key fabric := encode_port_map pm]>
                         (metadata w)).
      { subst w2. now rewrite metadata_put, metadata_log, Hmd1. }
      pose proof (_add_npiv_mgmt_mappings_run fabric pm w2) as Hpark.
      destruct (_add_npiv_mgmt_mappings fabric pm w2) as [w3 [[]|e1]];
        [discriminate |].
      injection Hrun as <- <-. cbv zeta in Hpark.
      destruct (String.eqb (fabric_state_of (metadata w2) fabric) FS_UNMAPPED);
        [| destruct Hpark as [_ ?]; discriminate].
      rewrite Htr2 in Hpark. repeat rewrite <- app_assoc in Hpark.
      set (front := replicate (Z.to_nat (_ports_per_fabric conf)) EvBuildPair
                    ++ [EvDerive vios ports pool;
                        EvMetaSet (_sys_meta_fabric_key fabric)
                                  (encode_port_map pm)]
                    ++ state_default (metadata w2) fabric) in *.
      assert (Hfront : derive_results (trace w) front = [pm]).
      { subst front. apply round_front_results; [exact Hderive |].
        apply no_derive_default. }
      assert (Hkept : ∀ v,
                metadata w3 = <[_sys_fabric_state_key fabric := v]> (metadata w2) →
                metadata w3 !! _sys_meta_fabric_key fabric
                = Some (encode_port_map pm)).
      { intros v ->.
        rewrite lookup_insert_ne by apply state_key_not_meta_key.
        now rewrite Hmd2, lookup_insert_eq. }
      destruct (get_mgmt_partition (trace w ++ front)) as [uuid|e2] eqn:Hmg.
      * destruct (add_npiv_port_mappings_outcome _ uuid (Some pm))
          as [[]|e2] eqn:Hadd; [destruct Hpark as [? _]; discriminate |].
        destruct Hpark as (Hr & Htr3 & Hmd3 & _). injection Hr as <-.
        exists (front ++ [EvGetMgmt]), (EvAdd uuid (Some pm)).
        split; [| split].
        -- rewrite Htr3. subst front. now repeat rewrite <- app_assoc.
        -- cbn [raised_by]. subst front.
           repeat rewrite <- app_assoc in Hadd. repeat rewrite <- app_assoc.
           exact Hadd.
        -- cbn [is_parking_call]. exists pm. split; [| split].
           ++ rewrite !derive_results_app, Hfront. reflexivity.
           ++ now apply (Hkept FS_UNMAPPED).
           ++ unfold fabric_state_of. now rewrite Hmd3, lookup_insert_eq.
      * destruct Hpark as (Hr & Htr3 & Hmd3 & _). injection Hr as <-.
        exists front, EvGetMgmt. split; [| split].
        -- rewrite Htr3. subst front. now repeat rewrite <- app_assoc.
        -- exact Hmg.
        -- cbn [is_parking_call]. exists pm. split; [| split].
           ++ rewrite derive_results_app, Hfront. reflexivity.
           ++ now apply (Hkept FS_UNMAPPED).
           ++ unfold fabric_state_of. now rewrite Hmd3, lookup_insert_eq.
    + injection Hrun as <- <-.
      exists (replicate (Z.to_nat (_ports_per_fabric conf)) EvBuildPair),
        (EvDerive vios ports pool).
      split; [| split].
      * now rewrite trace_log, Htr1, <- app_assoc.
      * exact Hderive.
      * cbn [is_parking_call]. split; [| now rewrite metadata_log].
        rewrite derive_results_app,
          (derive_results_none _ _ (derive_orders_replicate _)).
        cbn [app derive_results]. now rewrite Hderive.
  - destruct Hany as (Hmd1 & _ & k & Hk & Htr1 & Hfail).
    injection Hrun as <- <-.
    exists (replicate k EvBuildPair), EvBuildPair. split; [| split].
    + rewrite Htr1. cbn [replicate]. now rewrite replicate_cons_app.
    + exact Hfail.
    + cbn [is_parking_call]. split; [| exact Hmd1].
      apply derive_results_none.
      rewrite derive_orders_app, derive_orders_replicate. reflexivity.
Qed.

(** X8.  No rollback.  When [wwpns] raises, the exception is that of the
    last call it made, and the configured fabrics split into those
    reached, for which a port map was derived during the call, and the
    rest.  Every fabric reached has the port map derived for it stored at
    the end, and its state is what parking gave it; the one exception is
    the fabric whose parking raised, the last one reached, which is left
    with its new port map stored and the state [unmapped].  Every other
    fabric has its port map and its state untouched. *)
Theorem wwpns_failure_keeps_done_fabrics w w' e :
  NoDup (_fabric_names conf) →
  wwpns conf w = (w', Raise e) →
  ∃ h ev reached rest,
    trace w' = trace w ++ h ++ [ev]
    ∧ raised_by (trace w ++ h) ev e
    ∧ _fabric_names conf = reached ++ rest
    ∧ Forall2 (λ fabric pm, metadata w' !! _sys_meta_fabric_key fabric
                            = Some (encode_port_map pm))
              reached (derive_results (trace w) (h ++ [ev]))
    ∧ (∀ fabric, fabric ∈ reached →
         fabric_state_of (metadata w') fabric
         = if is_parking_call ev && bool_decide (last reached = Some fabric)
           then FS_UNMAPPED
           else parked (fabric_state_of (metadata w) fabric))
    ∧ (∀ fabric, fabric ∈ rest →
         metadata w' !! _sys_meta_fabric_key fabric
         = metadata w !! _sys_meta_fabric_key fabric
         ∧ metadata w' !! _sys_fabric_state_key fabric
           = metadata w !! _sys_fabric_state_key fabric).
Proof.
  intros Hnd Hrun.
  destruct (stored_or_missing (metadata w) (_fabric_names conf)) as [Hall|Hex].
  { destruct (wwpns_fast_path_unchanged conf w Hall) as [keys Hfast].
    rewrite Hfast in Hrun. discriminate. }
  rewrite wwpns_rebuild_taken in Hrun by assumption.
  unfold wwpns_rebuild, bind at 1, adapter_read_vios, call in Hrun.
  destruct (read_vios (trace w)) as [vios0|e0] eqn:Hread.
  - unfold bind in Hrun.
    destruct (for_each _ _ _ _) as [w2 [acc|e1]] eqn:Hloop; [discriminate |].
    injection Hrun as <- <-.
    apply for_each_raise in Hloop
      as (done & x & rest & w1 & [vios1 resp1] & Hnames & Hdone & Hfail).
    pose proof Hnd as Hnd'. rewrite Hnames in Hnd'.
    apply NoDup_app in Hnd' as (Hnd1 & Hdisj & Hnd2).
    apply NoDup_cons in Hnd2 as [Hx _].
    assert (Hxdone : x ∉ done).
    { intros Hin. apply (Hdisj x Hin). now left. }
    pose proof (rebuild_loop_metadata conf _ _ _ _ _ _ _ Hdone) as Hmd.
    rewrite metadata_log in Hmd.
    pose proof (rebuild_loop_parks conf _ _ _ _ _ _ Hnd1 Hdone)
      as (evs & Htr1 & Hstored & _).
    rewrite trace_log in Htr1, Hstored.
    assert (Hframe : ∀ fabric, fabric ≠ x →
              metadata w2 !! _sys_meta_fabric_key fabric
              = metadata w1 !! _sys_meta_fabric_key fabric
              ∧ metadata w2 !! _sys_fabric_state_key fabric
                = metadata w1 !! _sys_fabric_state_key fabric).
    { intros fabric Hne.
      split; apply (rebuild_fabric_frame _ _ _ _ _ _ _ Hfail).
      - intros H. now apply meta_key_inj in H.
      - apply meta_key_not_state_key.
      - apply state_key_not_meta_key.
      - intros H. now apply state_key_inj in H. }
    assert (Hparked : ∀ fabric, fabric ∈ done →
              fabric_state_of (metadata w2) fabric
              = parked (fabric_state_of (metadata w) fabric)).
    { intros fabric Hin.
      assert (Hne : fabric ≠ x) by (intros ->; contradiction).
      destruct (Hframe fabric Hne) as [_ Hs].
      destruct (Hmd fabric) as [Hin' _]. destruct (Hin' Hin) as [_ Hst].
      unfold fabric_state_of at 1. rewrite Hs. exact Hst. }
    assert (Huntouched : ∀ fabric, fabric ∉ done →
              metadata w1 !! _sys_meta_fabric_key fabric
              = metadata w !! _sys_meta_fabric_key fabric
              ∧ metadata w1 !! _sys_fabric_state_key fabric
                = metadata w !! _sys_fabric_state_key fabric).
    { intros fabric Hout. destruct (Hmd fabric) as [_ Hout']. now apply Hout'. }
    assert (Hkept : Forall2 (λ fabric pm,
                       metadata w2 !! _sys_meta_fabric_key fabric
                       = Some (encode_port_map pm))
                      done (derive_results (trace w ++ [EvReadVIOS]) evs)).
    { apply (Forall2_impl_in _ _ _ _ Hstored). intros fabric pm Hin Hst.
      assert (Hne : fabric ≠ x) by (intros ->; contradiction).
      destruct (Hframe fabric Hne) as [Hm _]. now rewrite Hm. }
    assert (Hx' : is_Some (assoc x (NPIV_FABRIC_WWPNS conf))).
    { apply assoc_fabric_names. rewrite Hnames.
      apply elem_of_app. right. now left. }
    apply rebuild_fabric_raise in Hfail as (hx & ev & Htr2 & Hraised & Hcase);
      [| exact Hx'].
    rewrite Htr1 in Htr2, Hraised, Hcase.
    assert (Hres : derive_results (trace w) (([EvReadVIOS] ++ evs ++ hx) ++ [ev])
                   = derive_results (trace w ++ [EvReadVIOS]) evs
                     ++ derive_results ((trace w ++ [EvReadVIOS]) ++ evs)
                          (hx ++ [ev])).
    { repeat rewrite <- app_assoc. cbn [app derive_results].
      now rewrite derive_results_app, <- !app_assoc. }
    exists ([EvReadVIOS] ++ evs ++ hx), ev.
    destruct (is_parking_call ev) eqn:Hp.
    + destruct Hcase as (pm & Hd & Hst & Hun).
      exists (done ++ [x]), rest.
      split; [rewrite Htr2; now repeat rewrite <- app_assoc |].
      split.
      { repeat rewrite <- app_assoc in Hraised. repeat rewrite <- app_assoc.
        exact Hraised. }
      split; [now rewrite Hnames, <- app_assoc |].
      split; [| split].
      * rewrite Hres, Hd. apply Forall2_app; [exact Hkept |].
        constructor; [exact Hst | constructor].
      * intros fabric Hin. rewrite last_snoc. cbn [andb].
        destruct (decide (fabric = x)) as [->|Hne].
        -- now rewrite bool_decide_eq_true_2.
        -- rewrite bool_decide_eq_false_2 by congruence.
           apply Hparked. apply elem_of_app in Hin as [Hin|Hin]; [exact Hin |].
           apply list_elem_of_singleton in Hin. contradiction.
      * intros fabric Hin.
        assert (Hne : fabric ≠ x) by (intros ->; contradiction).
        assert (Hout : fabric ∉ done).
        { intros Hin'. apply (Hdisj fabric Hin'). now right. }
        destruct (Hframe fabric Hne) as [Hm Hs].
        destruct (Huntouched fabric Hout) as [Hm' Hs'].
        split; congruence.
    + destruct Hcase as (Hd & Hsame).
      exists done, (x :: rest).
      split; [rewrite Htr2; now repeat rewrite <- app_assoc |].
      split.
      { repeat rewrite <- app_assoc in Hraised. repeat rewrite <- app_assoc.
        exact Hraised. }
      split; [exact Hnames |].
      split; [| split].
      * rewrite Hres, Hd, app_nil_r. exact Hkept.
      * intros fabric Hin. cbn [andb]. now apply Hparked.
      * intros fabric Hin.
        assert (Hout : fabric ∉ done).
        { intros Hin'. now apply (Hdisj fabric Hin'). }
        rewrite Hsame. now apply Huntouched.
  - injection Hrun as <- <-.
    exists [], EvReadVIOS, [], (_fabric_names conf).
    split; [now rewrite trace_log |].
    split; [now rewrite app_nil_r |].
    split; [reflexivity |].
    split; [constructor |].
    split; [intros fabric Hin; inversion Hin |].
    intros fabric _. now rewrite metadata_log.
Qed.

End RebuildFailureKept.

(** ** Connecting parked fabrics *)

Section ConnectParked.

Context {VIOS : Type} {ML : ManagementLayer VIOS}.
Variable conf : Config.
Implicit Types (w : World VIOS) (fabric key vm_uuid : string).
Implicit Types (fabrics : list string).

(** One round of [connect_volume] on a fabric that is parked. *)
Lemma connect_fabric_parked vm_uuid fabric w w' :
  fabric_state_of (metadata w) fabric = FS_MGMT_MAPPED →
  connect_fabric vm_uuid tt fabric w = (w', Ok tt) →
  let pm := stored_port_map (metadata w) fabric in
  trace w'
  = trace w ++ [EvRemove pm;
                EvMetaSet (_sys_fabric_state_key fabric) FS_UNMAPPED;
                EvAdd vm_uuid pm;
                EvMetaSet (_sys_fabric_state_key fabric) FS_INST_MAPPED]
  ∧ vfc_mappings w'
    = vfc_add vm_uuid (default [] pm)
        (vfc_remove (default [] pm) (vfc_mappings w)).
Proof.
  intros Hst. rewrite connect_fabric_eq. unfold bind at 1.
  rewrite _remove_npiv_mgmt_mappings_eq, Hst. cbn [String.eqb].
  change (String.eqb FS_MGMT_MAPPED FS_MGMT_MAPPED) with true. cbv iota.
  unfold bind, pvm_wwpn_remove_npiv_port_mappings,
    pvm_wwpn_add_npiv_port_mappings, _set_fabric_state, meta_set.
  destruct (remove_npiv_port_mappings_outcome _ _) as [[]|e]; [| discriminate].
  destruct (add_npiv_port_mappings_outcome _ _ _) as [[]|e]; [| discriminate].
  intros [= <-]. autorewrite with world. split; [| reflexivity].
  now rewrite <- !app_assoc.
Qed.

Lemma connect_loop_parked vm_uuid fabrics w w' u u' :
  NoDup fabrics →
  (∀ fabric, fabric ∈ fabrics →
             fabric_state_of (metadata w) fabric = FS_MGMT_MAPPED) →
  for_each (connect_fabric vm_uuid) fabrics u w = (w', Ok u') →
  ∃ evs, trace w' = trace w ++ evs
    ∧ calls evs
      = flat_map (λ fabric, [EvRemove (stored_port_map (metadata w) fabric);
                             EvAdd vm_uuid (stored_port_map (metadata w) fabric)])
                 fabrics.
Proof.
  intros Hnd. revert w u.
  induction Hnd as [|f fabrics Hf Hnd IH]; intros w u Hst Hrun.
  - injection Hrun as <- <-. exists []. now rewrite app_nil_r.
  - apply for_each_cons_ok in Hrun as (w1 & u1 & Hbody & Hrest).
    destruct u, u1.
    pose proof (connect_fabric_effect _ _ _ _ _ Hbody) as (Hframe & _).
    apply connect_fabric_parked in Hbody as [Htr1 _]; [| apply Hst; now left].
    assert (Hmeta : ∀ fabric, stored_port_map (metadata w1) fabric
                              = stored_port_map (metadata w) fabric).
    { intros fabric. apply stored_port_map_frame, Hframe.
      apply meta_key_not_state_key. }
    apply IH in Hrest as (evs & Htr & Hcalls).
    + rewrite Htr1, <- app_assoc in Htr. eexists. split; [exact Htr |].
      unfold calls in *. rewrite List.filter_app, Hcalls. cbn [flat_map].
      cbn [List.filter is_call app]. do 2 f_equal.
      apply flat_map_ext. intros fabric. now rewrite Hmeta.
    + intros fabric Hin. unfold fabric_state_of. rewrite Hframe.
      * apply Hst. now right.
      * intros H. apply state_key_inj in H. now subst.
Qed.

(** X11.  The hand-over after discovery: when every configured fabric is parked
    ([mgmt_mapped]), a [connect_volume] that returns has made, fabric after
    fabric, the removal call for the fabric's stored port map followed by
    the add call of the same port map for the VM, and no other call. *)
Theorem connect_volume_unparks_then_attaches vm_uuid w w' :
  NoDup (_fabric_names conf) →
  (∀ fabric, fabric ∈ _fabric_names conf →
             fabric_state_of (metadata w) fabric = FS_MGMT_MAPPED) →
  connect_volume conf vm_uuid w = (w', Ok tt) →
  ∃ evs, trace w' = trace w ++ evs
    ∧ calls evs
      = flat_map (λ fabric, [EvRemove (stored_port_map (metadata w) fabric);
                             EvAdd vm_uuid (stored_port_map (metadata w) fabric)])
                 (_fabric_names conf).
Proof. intros Hnd Hst Hrun. now apply (connect_loop_parked vm_uuid _ w w' tt tt). Qed.

End ConnectParked.

(** * localdisk.py *)

Section Slices.

Import PySeq.

Lemma append_assoc (a b c : string) : (a +:+ b) +:+ c = a +:+ (b +:+ c).
Proof. induction a as [|x a IH]; simpl; [reflexivity | now rewrite IH]. Qed.

Lemma length_append (a b : string) :
  String.length (a +:+ b) = (String.length a + String.length b)%nat.
Proof. induction a as [|x a IH]; simpl; [reflexivity | now rewrite IH]. Qed.

Lemma append_eq_empty (a b : string) : a +:+ b = "" → a = "" ∧ b = "".
Proof. destruct a; simpl; [auto | discriminate]. Qed.

Lemma length_zero_empty (s : string) : String.length s = 0%nat → s = "".
Proof. destruct s; [reflexivity | discriminate]. Qed.

Lemma str_take_drop k (s : string) : str_take k s +:+ str_drop k s = s.
Proof.
  revert s. induction k as [|k IH]; intros [|a s]; simpl; try reflexivity.
  now rewrite IH.
Qed.

Lemma str_take_length k (s : string) :
  String.length (str_take k s) = Nat.min k (String.length s).
Proof.
  revert s. induction k as [|k IH]; intros [|a s]; simpl; try reflexivity.
  now rewrite IH.
Qed.

Lemma str_take_min k (s : string) :
  str_take (Nat.min k (String.length s)) s = str_take k s.
Proof.
  revert s. induction k as [|k IH]; intros [|a s]; simpl; try reflexivity.
  now rewrite IH.
Qed.

Lemma slice_index_le i len : (slice_index i len ≤ len)%nat.
Proof. unfold slice_index. destruct (i <? 0)%Z; lia. Qed.

Lemma slice_index_nonneg i len :
  (0 ≤ i)%Z → slice_index i len = Nat.min (Z.to_nat i) len.
Proof.
  intros Hi. unfold slice_index.
  destruct (Z.ltb_spec i 0); lia.
Qed.

(** [s[:i] + s[i:] == s], for every integer [i]. *)
Lemma slice_to_from (s : string) i : slice_to s i +:+ slice_from s i = s.
Proof. apply str_take_drop. Qed.

Lemma slice_to_nonneg (s : string) i :
  (0 ≤ i)%Z → slice_to s i = str_take (Z.to_nat i) s.
Proof.
  intros Hi. unfold slice_to. rewrite slice_index_nonneg by assumption.
  apply str_take_min.
Qed.

Lemma slice_to_nonempty (s : string) i :
  (0 < i)%Z → s ≠ "" → slice_to s i ≠ "".
Proof.
  intros Hi Hs. rewrite slice_to_nonneg by lia.
  destruct s as [|a s]; [congruence |].
  destruct (Z.to_nat i) as [|k] eqn:E; [lia | discriminate].
Qed.

End Slices.

Section FileAdapter.

Import PySeq LocalDisk.

Implicit Types (self : IterableToFileAdapter) (size : Z).

Lemma next_chunk_none chunk it :
  next_chunk chunk it = None → chunk +:+ join_all it = "".
Proof.
  revert chunk. induction it as [|c it IH]; intros [|a chunk]; simpl;
    try discriminate; [reflexivity |].
  intros H. now apply IH.
Qed.

Lemma next_chunk_some chunk it c it' :
  next_chunk chunk it = Some (c, it') →
  c ≠ "" ∧ c +:+ join_all it' = chunk +:+ join_all it.
Proof.
  revert chunk. induction it as [|c0 it IH]; intros [|a chunk]; simpl;
    try discriminate.
  - intros [= <- <-]. split; [discriminate | reflexivity].
  - intros H. now apply IH.
  - intros [= <- <-]. split; [discriminate | reflexivity].
Qed.

Lemma read_pending size self :
  (read size self).1 +:+ pending (read size self).2 = pending self.
Proof.
  unfold read, pending.
  destruct (next_chunk (remaining_data self) (iterator self))
    as [[c it']|] eqn:E; cbn [fst snd iterator remaining_data join_all].
  - apply next_chunk_some in E as [_ <-].
    now rewrite <- append_assoc, slice_to_from.
  - apply next_chunk_none in E. rewrite E.
    apply append_eq_empty in E as [-> _]. reflexivity.
Qed.

Lemma read_empty_iff size self :
  (0 < size)%Z → ((read size self).1 = "" ↔ pending self = "").
Proof.
  intros Hsize. unfold read, pending.
  destruct (next_chunk (remaining_data self) (iterator self))
    as [[c it']|] eqn:E; cbn [fst].
  - apply next_chunk_some in E as [Hc <-]. split.
    + intros H. now apply slice_to_nonempty in H.
    + intros H. apply append_eq_empty in H as [-> _]. congruence.
  - apply next_chunk_none in E. tauto.
Qed.

(** X12.  Reading loses and reorders nothing: for every [size], zero and
    negative included, what [read] returns followed by what the adapter
    has still to give is what it had to give before. *)
Theorem read_conserves_data size self :
  let '(data, self') := read size self in
  data +:+ pending self' = pending self.
Proof.
  pose proof (read_pending size self) as H.
  now destruct (read size self).
Qed.

(** X13.  With a positive [size], [read] returns at most [size] characters and
    returns the empty string exactly when no data is left (empty chunks are
    skipped, not taken for the end); after an empty read every further read
    is empty. *)
Theorem read_signals_end_of_data size self :
  (0 < size)%Z →
  let '(data, self') := read size self in
  (Z.of_nat (String.length data) ≤ size)%Z
  ∧ (data = "" ↔ pending self = "")
  ∧ (data = "" → (read size self').1 = "").
Proof.
  intros Hsize.
  pose proof (read_pending size self) as Hcons.
  pose proof (read_empty_iff size self Hsize) as Hiff.
  assert (Hlen : (Z.of_nat (String.length (read size self).1) ≤ size)%Z).
  { unfold read.
    destruct (next_chunk (remaining_data self) (iterator self)) as [[c it']|];
      cbn [fst]; [| simpl; lia].
    rewrite slice_to_nonneg by lia. rewrite str_take_length. lia. }
  destruct (read size self) as [data self']. cbn [fst snd] in *.
  split; [exact Hlen |]. split; [exact Hiff |].
  intros Hdata. apply (read_empty_iff size self' Hsize).
  apply Hiff in Hdata. rewrite Hdata in Hcons.
  now apply append_eq_empty in Hcons as [_ ?].
Qed.

(** X14.  Reading to the end gives the whole stream: with a positive [size], as
    many reads as the pending data has characters (or more) return pieces
    that, put together, are exactly the pending data, and leave nothing. *)
Theorem reads_give_whole_stream size k self :
  (0 < size)%Z →
  (String.length (pending self) ≤ k)%nat →
  let '(pieces, self') := reads size k self in
  join_all pieces = pending self ∧ pending self' = "".
Proof.
  intros Hsize. revert self. induction k as [|k IH]; intros self Hlen.
  - simpl. split; [| apply length_zero_empty; lia].
    symmetry. apply length_zero_empty. lia.
  - cbn [reads].
    pose proof (read_pending size self) as Hcons.
    pose proof (read_empty_iff size self Hsize) as Hiff.
    destruct (read size self) as [data self1]. cbn [fst snd] in *.
    assert (Hlen1 : (String.length (pending self1) ≤ k)%nat).
    { rewrite <- Hcons, length_append in Hlen.
      destruct data as [|a data].
      - assert (Hp : pending self = "") by now apply Hiff.
        rewrite Hp in Hcons. simpl in Hcons. rewrite Hcons. simpl. lia.
      - simpl in Hlen. lia. }
    specialize (IH self1 Hlen1).
    destruct (reads size k self1) as [rest self2].
    destruct IH as [Hrest Hend]. split; [| exact Hend].
    cbn [join_all]. now rewrite Hrest.
Qed.

(** X15.  A disk name has at most 15 characters, and for one type two instances
    get the same disk name exactly when their UUIDs agree on the first 8
    characters. *)
Theorem get_disk_name_bounded type_ uuid uuid' :
  (String.length (_get_disk_name type_ uuid) ≤ 15)%nat
  ∧ (_get_disk_name type_ uuid = _get_disk_name type_ uuid'
     ↔ str_take 8 uuid = str_take 8 uuid').
Proof.
  unfold _get_disk_name. rewrite !slice_to_nonneg by lia.
  change (Z.to_nat 6) with 6%nat. change (Z.to_nat 8) with 8%nat. split.
  - rewrite !length_append, !str_take_length. simpl String.length. lia.
  - split.
    + intros H. apply String.app_inj in H.
      now apply (String.app_inj "_") in H.
    + now intros ->.
Qed.

(** X16.  [_get_vg_uuid] returns the [id] of the first feed entry with the
    name; it raises [VGNotFound] exactly when no entry has the name (an
    empty feed included), [KeyError] when the first entry with the name has
    no [id], and what [adapter.read] raised when that failed. *)
Theorem get_vg_uuid_first_match (entries : list FeedEntry) name :
  match _get_vg_uuid (Returned entries) name with
  | Returned uuid =>
      ∃ before entry after,
        entries = before ++ entry :: after
        ∧ Forall (λ e, wrap_vg_name e ≠ name) before
        ∧ wrap_vg_name entry = name
        ∧ properties entry !! "id" = Some uuid
  | Raised (VGNotFound vg_name) =>
      vg_name = name ∧ Forall (λ e, wrap_vg_name e ≠ name) entries
  | Raised (LocalDisk.KeyError key) =>
      key = "id"
      ∧ ∃ before entry after,
          entries = before ++ entry :: after
          ∧ Forall (λ e, wrap_vg_name e ≠ name) before
          ∧ wrap_vg_name entry = name
          ∧ properties entry !! "id" = None
  | Raised (LocalDisk.AdapterError _) => False
  end
  ∧ ∀ e, _get_vg_uuid (Raised e) name = Raised e.
Proof.
  split; [| reflexivity]. cbn [_get_vg_uuid].
  induction entries as [|entry entries IH]; cbn [search_feed].
  - split; [reflexivity | constructor].
  - destruct (String.eqb_spec name (wrap_vg_name entry)) as [Heq|Hne].
    + destruct (properties entry !! "id") as [uuid|] eqn:Hid.
      * exists [], entry, entries. repeat split; auto.
      * split; [reflexivity |]. exists [], entry, entries. repeat split; auto.
    + destruct (search_feed name entries) as [uuid|[vg|key|msg]].
      * destruct IH as (before & e & after & -> & Hb & Hn & Hid).
        exists (entry :: before), e, after. repeat split; auto.
      * destruct IH as [-> Hall]. split; [reflexivity |]. constructor; auto.
      * destruct IH as (-> & before & e & after & -> & Hb & Hn & Hid).
        split; [reflexivity |].
        exists (entry :: before), e, after. repeat split; auto.
      * exact IH.
Qed.

End FileAdapter.

(** * media.py *)

Section MediaRepo.

Import PySeq Media.

Lemma find_vg_none name (entries : list VolumeGroup) :
  Forall (λ vol_grp, vg_name vol_grp ≠ name) entries → find_vg name entries = None.
Proof.
  induction 1 as [|vol_grp entries Hne _ IH]; [reflexivity |].
  cbn [find_vg]. now destruct (String.eqb_spec (vg_name vol_grp) name).
Qed.

Lemma find_vg_first name (before : list VolumeGroup) vol_grp after :
  Forall (λ vol_grp, vg_name vol_grp ≠ name) before →
  vg_name vol_grp = name →
  find_vg name (before ++ vol_grp :: after) = Some vol_grp.
Proof.
  intros Hb Hn. induction Hb as [|x before Hne _ IH]; cbn [app find_vg].
  - now destruct (String.eqb_spec (vg_name vol_grp) name).
  - now destruct (String.eqb_spec (vg_name x) name).
Qed.

(** X17.  [_validate_vopt_vg] looks at the first volume group of the feed that
    has the configured name.  Without one it raises
    [NoMediaRepoVolumeGroupFound] after the read alone, for [rootvg] as for
    any other name.  With one that has a media repository it returns its
    UUID with no further call.  With one that has none it creates a
    repository and makes one update call for that volume group, with the
    [etag] of the response, and returns the UUID if the update returns;
    without an [etag] header it raises [KeyError] before any update. *)
Theorem validate_vopt_vg_first_match name size resp update :
  let '(calls, r) := _validate_vopt_vg name size (Returned resp) update in
  (Forall (λ vol_grp, vg_name vol_grp ≠ name) (feed_entries resp) →
   calls = [EvReadVolumeGroups]
   ∧ r = Raised (NoMediaRepoVolumeGroupFound name))
  ∧ ∀ before vol_grp after,
      feed_entries resp = before ++ vol_grp :: after →
      Forall (λ vol_grp, vg_name vol_grp ≠ name) before →
      vg_name vol_grp = name →
      match vmedia_repos vol_grp, headers resp !! "etag" with
      | S _, _ => calls = [EvReadVolumeGroups] ∧ r = Returned (vg_uuid vol_grp)
      | O, Some etag =>
          calls = [EvReadVolumeGroups; EvCrtVmediaRepo "vopt" size;
                   EvUpdateVolumeGroup etag (vg_uuid vol_grp)]
          ∧ r = match update with
                | Returned _ => Returned (vg_uuid vol_grp)
                | Raised e => Raised e
                end
      | O, None =>
          calls = [EvReadVolumeGroups; EvCrtVmediaRepo "vopt" size]
          ∧ r = Raised (Media.KeyError "etag")
      end.
Proof.
  destruct (_validate_vopt_vg name size (Returned resp) update) as [calls r] eqn:Hrun.
  unfold _validate_vopt_vg in Hrun. split.
  - intros Hnone. rewrite (find_vg_none _ _ Hnone) in Hrun.
    destruct (String.eqb name "rootvg"); now injection Hrun as <- <-.
  - intros before vol_grp after Hfeed Hb Hn.
    rewrite Hfeed, (find_vg_first _ _ _ _ Hb Hn) in Hrun.
    destruct (vmedia_repos vol_grp) as [|k]; cbn [Nat.eqb] in Hrun.
    + destruct (headers resp !! "etag") as [etag|].
      * destruct update; now injection Hrun as <- <-.
      * now injection Hrun as <- <-.
    + destruct (headers resp !! "etag"); now injection Hrun as <- <-.
Qed.

Lemma replace_char_clean s :
  PyStr.contains "-" (replace_char "-" "_" s) = false.
Proof.
  induction s as [|a s IH]; [reflexivity |].
  cbn [replace_char PyStr.contains]. rewrite IH, orb_false_r.
  destruct (Ascii.eqb_spec a "-") as [->|Hne]; [reflexivity |].
  now apply Ascii.eqb_neq.
Qed.

Lemma contains_append c (a b : string) :
  PyStr.contains c (a +:+ b) = PyStr.contains c a || PyStr.contains c b.
Proof.
  induction a as [|x a IH]; [reflexivity |].
  cbn [String.append PyStr.contains]. simpl. now rewrite IH, orb_assoc.
Qed.

Lemma replace_char_length old new s :
  String.length (replace_char old new s) = String.length s.
Proof. induction s as [|a s IH]; simpl; [reflexivity | now rewrite IH]. Qed.

Lemma append_inj_l (a b c : string) : a +:+ c = b +:+ c → a = b.
Proof.
  revert b. induction a as [|x a IH]; intros [|y b] H; simpl in H.
  - reflexivity.
  - exfalso. apply (f_equal String.length) in H.
    simpl in H. rewrite length_append in H. lia.
  - exfalso. apply (f_equal String.length) in H.
    simpl in H. rewrite length_append in H. lia.
  - injection H as -> H. f_equal. now apply IH.
Qed.

(** X18.  The file name of a config drive ISO holds no ['-'] and is 11
    characters longer than the instance name; two instances get the same
    file name exactly when their names are the same once every ['-'] is
    taken for ['_'] (so [vm-1] and [vm_1] share one). *)
Theorem cfg_drv_file_name_clean instance_name instance_name' :
  PyStr.contains "-" (cfg_drv_file_name instance_name) = false
  ∧ String.length (cfg_drv_file_name instance_name)
    = (String.length instance_name + 11)%nat
  ∧ (cfg_drv_file_name instance_name = cfg_drv_file_name instance_name'
     ↔ replace_char "-" "_" instance_name = replace_char "-" "_" instance_name').
Proof.
  unfold cfg_drv_file_name. split; [| split].
  - now rewrite contains_append, replace_char_clean.
  - now rewrite length_append, replace_char_length.
  - split; [apply append_inj_l | now intros ->].
Qed.

End MediaRepo.

Section ConfigDrive.

Import PySeq Media.

Lemma startswith_slash_file_name instance_name :
  startswith_slash (cfg_drv_file_name instance_name)
  = startswith_slash instance_name.
Proof.
  unfold cfg_drv_file_name. destruct instance_name as [|a s]; [reflexivity |].
  cbn [replace_char]. simpl.
  destruct (Ascii.eqb_spec a "-") as [->|Hne]; reflexivity.
Qed.

Lemma path_join_suffix a b : ∃ prefix, path_join a b = prefix +:+ b.
Proof.
  unfold path_join. destruct (startswith_slash b).
  - now exists "".
  - destruct (String.eqb a "" || endswith_slash a).
    + now exists a.
    + exists (a +:+ "/"). now rewrite append_assoc.
Qed.

(** X19.  When [_create_cfg_dr_iso] returns, the directory was made exactly if
    it did not exist, and the path of the ISO ends with its file name; for
    an instance name that starts with ['/'] the path is the file name
    alone, outside the configured directory. *)
Theorem create_cfg_dr_iso_path dir instance_name admin_pass c evs iso_path file_name :
  _create_cfg_dr_iso dir instance_name admin_pass c
  = (evs, Returned (iso_path, file_name)) →
  file_name = cfg_drv_file_name instance_name
  ∧ (∃ prefix, iso_path = prefix +:+ file_name)
  ∧ (startswith_slash instance_name = true → iso_path = file_name)
  ∧ (startswith_slash instance_name = false →
     iso_path = dir +:+ file_name ∨ iso_path = dir +:+ "/" +:+ file_name)
  ∧ (In (EvMkdir dir) evs ↔ path_exists c = false)
  ∧ In (EvMakeDrive iso_path) evs.
Proof.
  unfold _create_cfg_dr_iso.
  destruct (instance_metadata c) as [[]|e]; [| discriminate].
  destruct (path_exists c) eqn:Hex.
  - destruct (make_drive c) as [[]|e]; [| discriminate].
    intros [= <- <- <-]. split; [reflexivity |].
    split; [apply path_join_suffix |].
    unfold path_join. rewrite startswith_slash_file_name.
    split; [now intros -> |]. split.
    + intros ->. destruct (String.eqb dir "" || endswith_slash dir); auto.
    + split.
      * split; [| discriminate]. cbn. intros [H|[H|[H|[]]]]; discriminate.
      * cbn. auto.
  - destruct (mkdir c) as [[]|e]; [| discriminate].
    destruct (make_drive c) as [[]|e]; [| discriminate].
    intros [= <- <- <-]. split; [reflexivity |].
    split; [apply path_join_suffix |].
    unfold path_join. rewrite startswith_slash_file_name.
    split; [now intros -> |]. split.
    + intros ->. destruct (String.eqb dir "" || endswith_slash dir); auto.
    + split; [split; [reflexivity | intros _; cbn; auto] | cbn; auto].
Qed.

(** X20.  [create_cfg_drv_vopt] removes the ISO it made only after an upload
    that returned: when the size cannot be read or the upload raises, the
    ISO stays on disk and the call raises.  When the call returns, it has
    read the size, uploaded, removed the file and made the mapping, in
    this order and for the one path and file name. *)
Theorem create_cfg_drv_vopt_cleanup dir instance_name lpar_uuid admin_pass c :
  let '(evs, r) := create_cfg_drv_vopt dir instance_name lpar_uuid admin_pass c in
  (List.filter is_remove_file evs ≠ [] →
   ∃ size, getsize c = Returned size ∧ upload_vopt c = Returned tt)
  ∧ ∀ file_name, r = Returned file_name →
      ∃ before iso_path size,
        evs = before ++ [EvMakeDrive iso_path; EvGetSize iso_path;
                         EvUploadVopt iso_path file_name size;
                         EvRemoveFile iso_path;
                         EvCrtScsiMapToVopt lpar_uuid file_name]
        ∧ List.filter is_remove_file before = []
        ∧ getsize c = Returned size.
Proof.
  unfold create_cfg_drv_vopt.
  destruct (_create_cfg_dr_iso dir instance_name admin_pass c)
    as [evs0 [[iso_path file_name]|e]] eqn:Hiso.
  - assert (Hev : ∃ before, evs0 = before ++ [EvMakeDrive iso_path]
                            ∧ List.filter is_remove_file before = []).
    { unfold _create_cfg_dr_iso in Hiso.
      destruct (instance_metadata c) as [[]|e]; [| discriminate].
      destruct (path_exists c).
      - destruct (make_drive c) as [[]|e]; [| discriminate].
        injection Hiso as <- <- <-. eexists [_; _]. split; reflexivity.
      - destruct (mkdir c) as [[]|e]; [| discriminate].
        destruct (make_drive c) as [[]|e]; [| discriminate].
        injection Hiso as <- <- <-. eexists [_; _; _]. split; reflexivity. }
    destruct Hev as (before & -> & Hclean).
    destruct (getsize c) as [size|e].
    + destruct (upload_vopt c) as [[]|e].
      * destruct (remove c) as [[]|e].
        -- destruct (crt_scsi_map_to_vopt c) as [[]|e].
           ++ split; [intros _; now exists size |].
              intros f [= <-]. exists before, iso_path, size.
              rewrite <- !app_assoc. auto.
           ++ split; [intros _; now exists size | discriminate].
        -- split; [intros _; now exists size | discriminate].
      * split; [| discriminate].
        rewrite !List.filter_app, Hclean. cbn. congruence.
    + split; [| discriminate].
      rewrite !List.filter_app, Hclean. cbn. congruence.
  - split; [| discriminate].
    intros Hrm. exfalso. apply Hrm. clear Hrm.
    unfold _create_cfg_dr_iso in Hiso.
    destruct (instance_metadata c) as [[]|e0]; [| now injection Hiso as <- _].
    destruct (path_exists c).
    + destruct (make_drive c) as [[]|e1]; [discriminate |].
      now injection Hiso as <- _.
    + destruct (mkdir c) as [[]|e1]; [| now injection Hiso as <- _].
      destruct (make_drive c) as [[]|e2]; [discriminate |].
      now injection Hiso as <- _.
Qed.

End ConfigDrive.

Section DeleteVopt.

Import PySeq Media.

Context {VOpt : Type} `{EqDecision VOpt}.
Variable media_name : VOpt → string.
Implicit Types (media : list VOpt) (repos : list (list VOpt)).

Lemma first_named_none name media :
  Forall (λ vopt, media_name vopt ≠ name) media →
  first_named media_name name media = None.
Proof.
  induction 1 as [|vopt media Hne _ IH]; [reflexivity |].
  cbn [first_named]. now destruct (String.eqb_spec (media_name vopt) name).
Qed.

Lemma first_named_first name before vopt after :
  Forall (λ vopt, media_name vopt ≠ name) before →
  media_name vopt = name →
  first_named media_name name (before ++ vopt :: after) = Some vopt.
Proof.
  intros Hb Hn. induction Hb as [|x before Hne _ IH]; cbn [app first_named].
  - now destruct (String.eqb_spec (media_name vopt) name).
  - now destruct (String.eqb_spec (media_name x) name).
Qed.

Lemma first_named_name name media vopt :
  first_named media_name name media = Some vopt → media_name vopt = name.
Proof.
  induction media as [|x media IH]; [discriminate |]. cbn [first_named].
  destruct (String.eqb_spec (media_name x) name); [| exact IH].
  now intros [= <-].
Qed.

Lemma list_remove_absent (x : VOpt) media :
  Forall (λ vopt, vopt ≠ x) media → list_remove x media = None.
Proof.
  induction 1 as [|y media Hne _ IH]; [reflexivity |].
  cbn [list_remove]. destruct (decide (y = x)); [contradiction |].
  now rewrite IH.
Qed.

Lemma list_remove_first (x : VOpt) before after :
  Forall (λ vopt, vopt ≠ x) before →
  list_remove x (before ++ x :: after) = Some (before ++ after).
Proof.
  induction 1 as [|y before Hne _ IH]; cbn [app list_remove].
  - now destruct (decide (x = x)).
  - destruct (decide (y = x)); [contradiction |]. now rewrite IH.
Qed.

Lemma search_repos_no_match name i repos acc :
  Forall (λ media, first_named media_name name media = None) repos →
  vopt_media (search_repos media_name name i repos acc) = vopt_media acc
  ∧ vmedia_repo (search_repos media_name name i repos acc) = vmedia_repo acc
  ∧ optical_media (search_repos media_name name i repos acc)
    = match last repos with
      | Some media => Some media
      | None => optical_media acc
      end.
Proof.
  intros Hall. revert i acc.
  induction Hall as [|media repos Hm _ IH]; intros i acc; [auto |].
  cbn [search_repos]. rewrite Hm.
  destruct (IH (S i) {| vmedia_repo := vmedia_repo acc;
                        optical_media := Some media;
                        vopt_media := vopt_media acc |})
    as (-> & -> & ->).
  repeat split. destruct repos as [|m repos]; [reflexivity |].
  change (last (media :: m :: repos)) with (last (m :: repos)).
  destruct (last (m :: repos)) eqn:E; [reflexivity |].
  now apply last_None in E.
Qed.

Lemma search_repos_app name i repos repos' acc :
  search_repos media_name name i (repos ++ repos') acc
  = search_repos media_name name (i + length repos) repos'
      (search_repos media_name name i repos acc).
Proof.
  revert i acc. induction repos as [|media repos IH]; intros i acc.
  - simpl. now rewrite Nat.add_0_r.
  - cbn [app search_repos length]. rewrite IH. f_equal. lia.
Qed.

(** X21.  Deleting a media that no repository holds does nothing after the
    read: no update, no look at the files, no delete, and no error. *)
Theorem dlt_cfg_drv_vopt_not_found name repos update file_feed delete :
  Forall (Forall (λ vopt, media_name vopt ≠ name)) repos →
  dlt_cfg_drv_vopt media_name name (Returned repos) update file_feed delete
  = ([EvReadVolumeGroup], Returned tt).
Proof.
  intros Hall. unfold dlt_cfg_drv_vopt.
  assert (Hnone : Forall (λ media, first_named media_name name media = None) repos).
  { eapply Forall_impl; [exact Hall |]. intros media. apply first_named_none. }
  destruct (search_repos_no_match name 0 repos
              {| vmedia_repo := None; optical_media := None; vopt_media := None |}
              Hnone) as (-> & _ & _).
  reflexivity.
Qed.

(** X22.  With one repository that holds the media, the update takes out the
    first media of that name and keeps the others in order; then the first
    file of that name is deleted, and when there is no such file the call
    still returns, without a delete. *)
Theorem dlt_cfg_drv_vopt_single_repo name before vopt after files delete :
  Forall (λ vopt, media_name vopt ≠ name) before →
  media_name vopt = name →
  dlt_cfg_drv_vopt media_name name (Returned [before ++ vopt :: after])
    (Returned tt) (Returned files) delete
  = match find_file name files with
    | Some v_file =>
        ([EvReadVolumeGroup; EvUpdate [before ++ after]; EvReadFiles;
          EvDeleteFile (file_uuid v_file)],
         match delete with
         | Raised e => Raised e
         | Returned _ => Returned tt
         end)
    | None =>
        ([EvReadVolumeGroup; EvUpdate [before ++ after]; EvReadFiles],
         Returned tt)
    end.
Proof.
  intros Hb Hn. unfold dlt_cfg_drv_vopt. cbn [search_repos].
  rewrite (first_named_first _ _ _ _ Hb Hn).
  cbn [vopt_media optical_media vmedia_repo].
  rewrite list_remove_first.
  - cbn. now destruct (find_file name files).
  - eapply Forall_impl; [exact Hb |]. intros x Hx ->. contradiction.
Qed.

(** X23.  The search keeps the media list of the last repository it looked at.
    When the media is found in a repository that is not the last one, and
    no later repository holds a media of that name, the removal is tried on
    the last repository's list: the call raises [ValueError] after the
    read, and nothing is updated or deleted. *)
Theorem dlt_cfg_drv_vopt_earlier_repo name earlier media vopt between final
    update file_feed delete :
  first_named media_name name media = Some vopt →
  Forall (Forall (λ vopt, media_name vopt ≠ name)) (between ++ [final]) →
  dlt_cfg_drv_vopt media_name name
    (Returned (earlier ++ media :: between ++ [final])) update file_feed delete
  = ([EvReadVolumeGroup], Raised ValueError).
Proof.
  intros Hfound Hlater. unfold dlt_cfg_drv_vopt.
  rewrite search_repos_app. cbn [search_repos]. rewrite Hfound.
  assert (Hnone : Forall (λ media, first_named media_name name media = None)
                         (between ++ [final])).
  { eapply Forall_impl; [exact Hlater |]. intros m. apply first_named_none. }
  destruct (search_repos_no_match name (S (0 + length earlier)) (between ++ [final])
              {| vmedia_repo := Some (0 + length earlier)%nat;
                 optical_media := Some media;
                 vopt_media := Some vopt |} Hnone) as (-> & -> & ->).
  rewrite last_snoc. cbn [vopt_media vmedia_repo].
  rewrite list_remove_absent; [reflexivity |].
  apply Forall_app in Hlater as [_ Hlast].
  rewrite Forall_singleton in Hlast.
  eapply Forall_impl; [exact Hlast |].
  intros x Hx ->. apply Hx. now apply first_named_name in Hfound.
Qed.

End DeleteVopt.

(** * Further examples *)

Section MoreExamples.

Import Demo PySeq LocalDisk Media.

Local Abbreviation w0 := (fresh None ∅).

Local Abbreviation md1 :=
  ({[ "npiv_adpt_wwpns_A" := "21a,c0a,c0b";
      "npiv_adpt_wwpns_B" := "21c,c0ai,c0bi";
      "fabric_state_A" := "mgmt_mapped";
      "fabric_state_B" := "mgmt_mapped" ]} : gmap string string).

(** An instance that is being deleted, with both fabrics parked. *)
Local Abbreviation w_deleting := (fresh (Some "deleting") md1).

(** Fabric [A] attached to the VM, fabric [B] configured afterwards. *)
Local Abbreviation md_a :=
  ({[ "npiv_adpt_wwpns_A" := "21a,c0a,c0b";
      "fabric_state_A" := "inst_mapped" ]} : gmap string string).

(** A configuration whose second fabric has no physical port: deriving
    its port map fails. *)
Local Abbreviation conf_no_port :=
  {| NPIV_FABRIC_WWPNS := [("A", ["21a"]); ("B", [])];
     ports_per_fabric := 1 |}.

Lemma fabric_keys_do_not_collide_witness :
  "A" ≠ "B"
  ∧ fabric_state_of
      (metadata (_set_fabric_state "A" "inst_mapped" (fresh None md1)).1) "B"
    = "mgmt_mapped"
  ∧ stored_port_map (metadata (_set_fabric_meta "A" [] (fresh None md1)).1) "B"
    = Some [("21c", "c0ai c0bi")].
Proof.
  assert (H : "A" ≠ "B") by discriminate.
  split; [exact H |].
  pose proof (fabric_keys_do_not_collide "A" "B" "inst_mapped" []
                (fresh None md1) H) as Hk.
  cbv zeta in Hk. destruct Hk as (Hs & Hm & _).
  split; [rewrite Hs | rewrite Hm]; vm_compute; reflexivity.
Defined.

Lemma disconnect_volume_gated_witness :
  Forall (λ fabric, is_Some (metadata w_deleting !! _sys_meta_fabric_key fabric))
         (_fabric_names conf)
  ∧ trace (disconnect_volume conf w_deleting).1
    = [EvRemove (Some [("21a", "c0a c0b"); ("21c", "c0ai c0bi")])]
  ∧ metadata (disconnect_volume conf w_deleting).1 = md1.
Proof.
  assert (H : Forall (λ fabric, is_Some (metadata w_deleting
                                           !! _sys_meta_fabric_key fabric))
                     (_fabric_names conf))
    by (repeat constructor; vm_compute; eauto).
  split; [exact H |].
  pose proof (disconnect_volume_gated conf w_deleting H) as Hg.
  cbv zeta in Hg.
  destruct (disconnect_volume conf w_deleting) as [w' r].
  change (py_in (task_state (instance w_deleting)) TASK_STATES_FOR_DISCONNECT)
    with true in Hg.
  destruct Hg as (Htr & Hmd & _). cbn [fst].
  split; [rewrite Htr; vm_compute; reflexivity | exact Hmd].
Defined.

Lemma disconnect_volume_keeps_metadata_witness :
  disconnect_volume conf w_deleting
  = ((disconnect_volume conf w_deleting).1, Ok tt)
  ∧ metadata (disconnect_volume conf w_deleting).1 = md1.
Proof.
  assert (H : disconnect_volume conf w_deleting
              = ((disconnect_volume conf w_deleting).1, Ok tt))
    by (vm_compute; reflexivity).
  split; [exact H |].
  exact (proj1 (disconnect_volume_keeps_metadata conf w_deleting _ _ H)).
Defined.

Lemma wwpns_leaves_all_stored_witness :
  wwpns conf w0 = ((wwpns conf w0).1, Ok ["c0a"; "c0b"; "c0ai"; "c0bi"])
  ∧ Forall (λ fabric, is_Some (metadata (wwpns conf w0).1
                                 !! _sys_meta_fabric_key fabric))
           (_fabric_names conf).
Proof.
  assert (H : wwpns conf w0
              = ((wwpns conf w0).1, Ok ["c0a"; "c0b"; "c0ai"; "c0bi"]))
    by (vm_compute; reflexivity).
  split; [exact H |].
  exact (proj1 (wwpns_leaves_all_stored conf w0 _ _ H)).
Defined.

(** Fabric [A] is rebuilt and parked, then deriving the port map of [B]
    raises: [A] keeps its new port map and stays parked. *)
Lemma wwpns_failure_keeps_done_fabrics_witness :
  NoDup (_fabric_names conf_no_port)
  ∧ wwpns conf_no_port w0
    = ((wwpns conf_no_port w0).1, Raise (ManagementError "no physical port"))
  ∧ metadata (wwpns conf_no_port w0).1 !! "npiv_adpt_wwpns_A"
    = Some "21a,c0a,c0b"
  ∧ fabric_state_of (metadata (wwpns conf_no_port w0).1) "A" = "mgmt_mapped".
Proof.
  assert (Hnd : NoDup (_fabric_names conf_no_port))
    by (apply (bool_decide_unpack _); vm_compute; exact I).
  assert (H : wwpns conf_no_port w0
              = ((wwpns conf_no_port w0).1,
                 Raise (ManagementError "no physical port")))
    by (vm_compute; reflexivity).
  split; [exact Hnd |]. split; [exact H |].
  destruct (wwpns_failure_keeps_done_fabrics conf_no_port w0 _ _ Hnd H)
    as (h & ev & reached & rest & Htr & _ & Hnames & Hkept & Hstate & _).
  assert (Hlast : h ++ [ev]
                  = [EvReadVIOS; EvBuildPair;
                     EvDerive ["V1"; "V2"] ["21a"] ["c0a"; "c0b"];
                     EvMetaSet "npiv_adpt_wwpns_A" "21a,c0a,c0b";
                     EvMetaSet "fabric_state_A" "unmapped"; EvGetMgmt;
                     EvAdd "mgmt" (Some [("21a", "c0a c0b")]);
                     EvMetaSet "fabric_state_A" "mgmt_mapped"; EvBuildPair]
                    ++ [EvDerive ["V2"; "V1"] [] ["c0ai"; "c0bi"]]).
  { symmetry. etransitivity; [| exact Htr]. vm_compute. reflexivity. }
  assert (Hd : derive_results (trace w0) (h ++ [ev]) = [[("21a", "c0a c0b")]]).
  { rewrite Hlast. vm_compute. reflexivity. }
  apply app_inj_tail in Hlast as [_ ->].
  rewrite Hd in Hkept.
  destruct reached as [|x reached]; [inversion Hkept |].
  apply Forall2_cons in Hkept as [Hx Hnil].
  destruct reached; [| inversion Hnil].
  injection Hnames as <- _.
  split; [exact Hx |].
  apply (Hstate "A"). now left.
Defined.

(** [A] is attached already and [B] is new: both get a new port map, and
    the one add call parks [B] with the port map derived for it. *)
Lemma wwpns_rebuild_parks_unmapped_only_witness :
  NoDup (_fabric_names conf)
  ∧ Exists (λ fabric, metadata (fresh None md_a)
                        !! _sys_meta_fabric_key fabric = None)
           (_fabric_names conf)
  ∧ ∃ evs, trace (wwpns conf (fresh None md_a)).1
           = trace (fresh None md_a) ++ evs
      ∧ List.filter is_add evs = [EvAdd "mgmt" (Some [("21c", "c0ai c0bi")])]
      ∧ metadata (wwpns conf (fresh None md_a)).1 !! "npiv_adpt_wwpns_B"
        = Some "21c,c0ai,c0bi".
Proof.
  assert (Hnd : NoDup (_fabric_names conf))
    by (apply (bool_decide_unpack _); vm_compute; exact I).
  assert (Hex : Exists (λ fabric, metadata (fresh None md_a)
                                    !! _sys_meta_fabric_key fabric = None)
                       (_fabric_names conf))
    by (right; left; vm_compute; reflexivity).
  split; [exact Hnd |]. split; [exact Hex |].
  destruct (wwpns_rebuild_parks_unmapped_only conf (fresh None md_a)
              (wwpns conf (fresh None md_a)).1
              ["c0a"; "c0b"; "c0ai"; "c0bi"] Hnd Hex)
    as (evs & Htr & Hkept & Hadd & _); [vm_compute; reflexivity |].
  exists evs. split; [exact Htr |].
  assert (Hevs : evs = trace (wwpns conf (fresh None md_a)).1)
    by (symmetry; exact Htr).
  assert (Hd : derive_results (trace (fresh None md_a)) evs
               = [[("21a", "c0a c0b")]; [("21c", "c0ai c0bi")]]).
  { rewrite Hevs. vm_compute. reflexivity. }
  split.
  - rewrite Hadd, Hd, Hevs. vm_compute. reflexivity.
  - rewrite Hd in Hkept.
    apply Forall2_cons in Hkept as [_ Hkept].
    apply Forall2_cons in Hkept as [HB _]. exact HB.
Defined.

Lemma wwpns_rebuild_returns_built_witness :
  Exists (λ fabric, metadata w0 !! _sys_meta_fabric_key fabric = None)
         (_fabric_names conf)
  ∧ ∃ evs, trace (wwpns conf w0).1 = trace w0 ++ evs
      ∧ ["c0a"; "c0b"; "c0ai"; "c0bi"] = build_results (trace w0) evs.
Proof.
  assert (Hex : Exists (λ fabric, metadata w0 !! _sys_meta_fabric_key fabric = None)
                       (_fabric_names conf))
    by (left; vm_compute; reflexivity).
  split; [exact Hex |].
  apply (wwpns_rebuild_returns_built conf w0 (wwpns conf w0).1 _ Hex).
  vm_compute. reflexivity.
Defined.

Lemma connect_volume_unparks_then_attaches_witness :
  NoDup (_fabric_names conf)
  ∧ (∀ fabric, fabric ∈ _fabric_names conf →
       fabric_state_of (metadata (fresh None md1)) fabric = FS_MGMT_MAPPED)
  ∧ ∃ evs, trace (connect_volume conf "vm" (fresh None md1)).1
           = trace (fresh None md1) ++ evs
      ∧ calls evs
        = [EvRemove (Some [("21a", "c0a c0b")]);
           EvAdd "vm" (Some [("21a", "c0a c0b")]);
           EvRemove (Some [("21c", "c0ai c0bi")]);
           EvAdd "vm" (Some [("21c", "c0ai c0bi")])].
Proof.
  assert (Hnd : NoDup (_fabric_names conf))
    by (apply (bool_decide_unpack _); vm_compute; exact I).
  assert (Hst : ∀ fabric, fabric ∈ _fabric_names conf →
            fabric_state_of (metadata (fresh None md1)) fabric = FS_MGMT_MAPPED).
  { intros fabric Hin.
    apply elem_of_cons in Hin as [->|Hin]; [vm_compute; reflexivity |].
    apply elem_of_cons in Hin as [->|Hin]; [vm_compute; reflexivity |].
    inversion Hin. }
  split; [exact Hnd |]. split; [exact Hst |].
  destruct (connect_volume_unparks_then_attaches conf "vm" (fresh None md1)
              (connect_volume conf "vm" (fresh None md1)).1 Hnd Hst)
    as (evs & Htr & Hcalls); [vm_compute; reflexivity |].
  exists evs. split; [exact Htr |].
  rewrite Hcalls. vm_compute. reflexivity.
Defined.

(** An image that comes in three chunks, one of them empty. *)
Local Abbreviation image := (init ["ab"; ""; "cdefg"]).

Lemma read_signals_end_of_data_witness :
  (0 < 4)%Z
  ∧ let '(data, self') := read 4 image in
    (Z.of_nat (String.length data) ≤ 4)%Z
    ∧ (data = "" ↔ pending image = "")
    ∧ (data = "" → (read 4 self').1 = "").
Proof.
  assert (H : (0 < 4)%Z) by lia.
  split; [exact H | exact (read_signals_end_of_data 4 image H)].
Defined.

Lemma reads_give_whole_stream_witness :
  (0 < 4)%Z
  ∧ (String.length (pending image) ≤ 7)%nat
  ∧ join_all (reads 4 7 image).1 = "abcdefg"
  ∧ pending (reads 4 7 image).2 = "".
Proof.
  assert (H : (0 < 4)%Z) by lia.
  assert (Hlen : (String.length (pending image) ≤ 7)%nat) by (vm_compute; lia).
  split; [exact H |]. split; [exact Hlen |].
  pose proof (reads_give_whole_stream 4 7 image H Hlen) as Hall.
  destruct (reads 4 7 image) as [pieces self'].
  destruct Hall as [Hjoin Hend]. cbn [fst snd]. split; [| exact Hend].
  rewrite Hjoin. vm_compute. reflexivity.
Defined.

(** Every call returns and the directory is not there yet. *)
Local Abbreviation all_fine :=
  {| instance_metadata := Returned tt;
     path_exists := false;
     mkdir := Returned tt;
     make_drive := Returned tt;
     getsize := Returned 4096%Z;
     upload_vopt := Returned tt;
     remove := Returned tt;
     crt_scsi_map_to_vopt := Returned tt |}.

Lemma create_cfg_dr_iso_path_witness :
  _create_cfg_dr_iso "/tmp/cfgdrv" "vm-1" None all_fine
  = ((_create_cfg_dr_iso "/tmp/cfgdrv" "vm-1" None all_fine).1,
     Returned ("/tmp/cfgdrv/vm_1_config.iso", "vm_1_config.iso"))
  ∧ In (EvMkdir "/tmp/cfgdrv")
       (_create_cfg_dr_iso "/tmp/cfgdrv" "vm-1" None all_fine).1
  ∧ In (EvMakeDrive "/tmp/cfgdrv/vm_1_config.iso")
       (_create_cfg_dr_iso "/tmp/cfgdrv" "vm-1" None all_fine).1.
Proof.
  assert (H : _create_cfg_dr_iso "/tmp/cfgdrv" "vm-1" None all_fine
              = ((_create_cfg_dr_iso "/tmp/cfgdrv" "vm-1" None all_fine).1,
                 Returned ("/tmp/cfgdrv/vm_1_config.iso", "vm_1_config.iso")))
    by (vm_compute; reflexivity).
  split; [exact H |].
  destruct (create_cfg_dr_iso_path _ _ _ _ _ _ _ H)
    as (_ & _ & _ & _ & Hmk & Hdrive).
  split; [apply Hmk; reflexivity | exact Hdrive].
Defined.

(** Media as a name with an identifier. *)
Local Abbreviation media_name := (fst : string * string → string).

Lemma dlt_cfg_drv_vopt_not_found_witness :
  Forall (Forall (λ vopt, media_name vopt ≠ "vm_2_config.iso"))
         [[("vm_1_config.iso", "m1")]; []]
  ∧ dlt_cfg_drv_vopt media_name "vm_2_config.iso"
      (Returned [[("vm_1_config.iso", "m1")]; []])
      (Returned tt) (Returned []) (Returned tt)
    = ([EvReadVolumeGroup], Returned tt).
Proof.
  assert (H : Forall (Forall (λ vopt, media_name vopt ≠ "vm_2_config.iso"))
                     [[("vm_1_config.iso", "m1")]; []])
    by (apply (bool_decide_unpack _); vm_compute; exact I).
  split; [exact H |].
  exact (dlt_cfg_drv_vopt_not_found media_name _ _ _ _ _ H).
Defined.

Lemma dlt_cfg_drv_vopt_single_repo_witness :
  Forall (λ vopt, media_name vopt ≠ "vm_2_config.iso")
         [("vm_1_config.iso", "m1")]
  ∧ media_name ("vm_2_config.iso", "m2") = "vm_2_config.iso"
  ∧ dlt_cfg_drv_vopt media_name "vm_2_config.iso"
      (Returned [[("vm_1_config.iso", "m1")] ++ ("vm_2_config.iso", "m2")
                 :: [("vm_3_config.iso", "m3")]])
      (Returned tt)
      (Returned [{| file_name := "vm_2_config.iso"; file_uuid := "f2" |}])
      (Returned tt)
    = ([EvReadVolumeGroup;
        EvUpdate [[("vm_1_config.iso", "m1")] ++ [("vm_3_config.iso", "m3")]];
        EvReadFiles; EvDeleteFile "f2"],
       Returned tt).
Proof.
  assert (H : Forall (λ vopt, media_name vopt ≠ "vm_2_config.iso")
                     [("vm_1_config.iso", "m1")])
    by (apply (bool_decide_unpack _); vm_compute; exact I).
  split; [exact H |]. split; [reflexivity |].
  exact (dlt_cfg_drv_vopt_single_repo media_name "vm_2_config.iso" _
           ("vm_2_config.iso", "m2") _
           [{| file_name := "vm_2_config.iso"; file_uuid := "f2" |}]
           (Returned tt) H eq_refl).
Defined.

(** Two repositories, the media in the first one. *)
Lemma dlt_cfg_drv_vopt_earlier_repo_witness :
  first_named media_name "vm_2_config.iso" [("vm_2_config.iso", "m2")]
  = Some ("vm_2_config.iso", "m2")
  ∧ Forall (Forall (λ vopt, media_name vopt ≠ "vm_2_config.iso"))
           ([] ++ [[("vm_1_config.iso", "m1")]])
  ∧ dlt_cfg_drv_vopt media_name "vm_2_config.iso"
      (Returned ([] ++ [("vm_2_config.iso", "m2")]
                 :: [] ++ [[("vm_1_config.iso", "m1")]]))
      (Returned tt) (Returned []) (Returned tt)
    = ([EvReadVolumeGroup], Raised ValueError).
Proof.
  assert (H : Forall (Forall (λ vopt, media_name vopt ≠ "vm_2_config.iso"))
                     ([] ++ [[("vm_1_config.iso", "m1")]]))
    by (apply (bool_decide_unpack _); vm_compute; exact I).
  split; [reflexivity |]. split; [exact H |].
  exact (dlt_cfg_drv_vopt_earlier_repo media_name "vm_2_config.iso" []
           [("vm_2_config.iso", "m2")] ("vm_2_config.iso", "m2") []
           [("vm_1_config.iso", "m1")] _ _ _ eq_refl H).
Defined.

End MoreExamples.
